(** * librist: logging, the ristreceiver tool and the public API

    A shallow embedding of

    - [src/log.c]            (module [Log]),
    - [tools/ristreceiver.c] (module [RistReceiver]),
    - the public header [librist.h] (module [LibRist]); the header only
      declares the API, so the bodies of the API functions are modelled
      from the specification and marked as such, and so is the receive
      path that fills the queue of [rist_receiver_data_read] (module
      [ReceiveLoop]).

    C integers are modelled as [Z]; every conversion to a fixed-width
    unsigned type is written out as a reduction modulo [2 ^ w]. *)

From Stdlib Require Import ZArith Lia.
From stdpp Require Import base option list strings pretty.

Local Open Scope Z_scope.

(** ** Fixed-width unsigned integers *)

Definition to_uint (w : Z) (x : Z) : Z := x mod 2 ^ w.

Definition uint8_t  (x : Z) : Z := to_uint 8 x.
Definition uint16_t (x : Z) : Z := to_uint 16 x.
Definition uint32_t (x : Z) : Z := to_uint 32 x.
Definition uint64_t (x : Z) : Z := to_uint 64 x.

Definition is_uint (w : Z) (x : Z) : Prop := 0 <= x < 2 ^ w.

(** The conversion [(int)x] to the 32-bit two's complement [int] of the
    platforms the code is built for. *)
Definition to_int (x : Z) : Z := (x + 2 ^ 31) mod 2 ^ 32 - 2 ^ 31.

Definition newline : string := String (Ascii.ascii_of_nat 10) "".
Definition dquote  : string := String (Ascii.ascii_of_nat 34) "".

(** [enum rist_profile] and [enum rist_log_level] of librist.h. *)

Definition RIST_PROFILE_SIMPLE   : Z := 0.
Definition RIST_PROFILE_MAIN     : Z := 1.
Definition RIST_PROFILE_ADVANCED : Z := 2.

Definition RIST_LOG_QUIET    : Z := -1.
Definition RIST_LOG_INFO     : Z := 0.
Definition RIST_LOG_ERROR    : Z := 1.
Definition RIST_LOG_WARN     : Z := 2.
Definition RIST_LOG_DEBUG    : Z := 3.
Definition RIST_LOG_SIMULATE : Z := 4.

(** ** src/log.c *)

Module Log.

(** The three branches of the [#if defined(__unix__) ... #elif
    defined(_WIN32) ... #else] chain. *)
Inductive platform : Set := Unix | Win32 | OtherOS.

Definition STDERR_FILENO : Z := 2.

(** [_fileno(stderr)] of the Windows C runtime. *)
Definition fileno_stderr : Z := 2.

(** The three file-scope statics. *)
Record state : Set := State {
  loglevel     : Z;
  stats_fd     : Z;
  stats_socket : Z
}.

Definition initial (p : platform) : state :=
  {| loglevel := RIST_LOG_WARN;
     stats_fd := match p with
                 | Unix => STDERR_FILENO
                 | Win32 => -1
                 | OtherOS => 2
                 end;
     stats_socket := 0 |}.

(** What the functions do to the outside world. *)
Inductive event : Set :=
| Stderr      (text : string)                       (* fprintf(stderr, ...) *)
| UdpConnect  (host : string) (port : Z)            (* udp_Connect(host, port, -1, 0, NULL) *)
| FdWrite     (fd : Z) (buf : string) (count : Z)   (* write(fd, buf, count) *)
| UdpWrite    (sock : Z) (buf : string) (count : Z) (* udp_Write(sock, buf, count) *).

Definition set_loglevel (level : Z) (st : state) : state :=
  {| loglevel := level; stats_fd := stats_fd st; stats_socket := stats_socket st |}.

Definition rist_set_stats_fd (fd : Z) (st : state) : Z * state * list event :=
  if bool_decide (fd > -1) then
    let st' := {| loglevel := loglevel st; stats_fd := fd;
                  stats_socket := stats_socket st |} in
    (0, st',
     [Stderr ("Statistic custom file handle set, #" +:+ pretty (stats_fd st') +:+
             newline)])
  else (0, st, []).

(** [udp_Connect] is not part of log.c: [connected] is the descriptor it
    returns when it is called. *)
Definition rist_set_stats_socket (connected : Z) (port : Z) (st : state)
  : Z * state * list event :=
  if bool_decide (port = 0) then
    (-1, st,
     [Stderr ("Invalid Statistic socket port " +:+ pretty port +:+ " requested" +:+
             newline)])
  else if bool_decide (stats_socket st = 0) then
    let st' := {| loglevel := loglevel st; stats_fd := stats_fd st;
                  stats_socket := connected |} in
    (0, st',
     [UdpConnect "127.0.0.1" port;
      Stderr ("Statistic socket created on port " +:+ pretty port +:+
              " (#" +:+ pretty (stats_socket st') +:+ ")" +:+ newline)])
  else
    (0, st,
     [Stderr ("Sorry, statistic socket was already created on port " +:+
              pretty port +:+ " (#" +:+ pretty (stats_socket st) +:+ ")" +:+
              newline)]).

(** [struct timeval] as filled in by [gettimeofday]. *)
Record timeval : Set := Timeval { tv_sec : Z; tv_usec : Z }.

(** printf's [%6.6d]: at least six digits, zero padded, sign in front. *)
Definition pad6 (digits : string) : string :=
  String.concat "" (replicate (6 - String.length digits)%nat "0") +:+ digits.

Definition fmt_6_6d (x : Z) : string :=
  if bool_decide (x < 0) then "-" +:+ pad6 (pretty (- x)) else pad6 (pretty x).

(** ["%d.%6.6d|%ld.%ld|%d|%s"] with the arguments [(int)tv.tv_sec,
    (int)tv.tv_usec, server_ctx, client_ctx, level, str_content]. The
    two contexts are [intptr_t] values printed with [%ld]: they come out
    as they are where [long] is as wide as [intptr_t]. *)
Definition format_udp (tv : timeval) (server_ctx client_ctx level : Z)
    (str_content : string) : string :=
  pretty (to_int (tv_sec tv)) +:+ "." +:+ fmt_6_6d (to_int (tv_usec tv)) +:+ "|" +:+
  pretty server_ctx +:+ "." +:+ pretty client_ctx +:+ "|" +:+
  pretty level +:+ "|" +:+ str_content.

(** The [#ifdef _WIN32] prologue of [msg]. *)
Definition win32_prologue (p : platform) (st : state) : state :=
  match p with
  | Win32 =>
      if bool_decide (stats_fd st = -1) then
        {| loglevel := loglevel st; stats_fd := fileno_stderr;
           stats_socket := stats_socket st |}
      else st
  | _ => st
  end.

(** [msg]; [tv] is the time [gettimeofday] reports and [str_content] the
    text [vasprintf] renders from the format and the variadic arguments. *)
Definition msg (p : platform) (tv : timeval) (server_ctx client_ctx : Z)
    (level : Z) (str_content : string) (st : state) : state * list event :=
  let st := win32_prologue p st in
  if bool_decide (level > loglevel st) then (st, [])
  else
    let str_udp := format_udp tv server_ctx client_ctx level str_content in
    let udplen := Z.of_nat (String.length str_udp) in
    (st,
     FdWrite (stats_fd st) str_udp (udplen + 1) ::
     (if bool_decide (stats_socket st > 0)
      then [UdpWrite (stats_socket st) str_udp udplen] else [])).

(** The configuration entry points, as one type. None of them has a
    context parameter. *)
Inductive config_call : Set :=
| SetLoglevel    (level : Z)
| SetStatsFd     (fd : Z)
| SetStatsSocket (connected : Z) (port : Z).

Definition configure (c : config_call) (st : state) : state :=
  match c with
  | SetLoglevel level => set_loglevel level st
  | SetStatsFd fd => (rist_set_stats_fd fd st).1.2
  | SetStatsSocket connected port => (rist_set_stats_socket connected port st).1.2
  end.

(** Where an event goes, without the text. *)
Inductive destination : Set :=
| ToStderr | ToConnect | ToFd (fd : Z) | ToSocket (sock : Z).

Definition destination_of (e : event) : destination :=
  match e with
  | Stderr _ => ToStderr
  | UdpConnect _ _ => ToConnect
  | FdWrite fd _ _ => ToFd fd
  | UdpWrite sock _ _ => ToSocket sock
  end.

(** A run of calls to [rist_set_stats_socket]; each call comes with the
    descriptor [udp_Connect] would return and with its port. The result
    collects the return values, the final state and the events. *)
Definition socket_calls (calls : list (Z * Z)) (st : state)
  : list Z * state * list event :=
  foldl (fun acc call =>
           let '(rets, st, evs) := acc in
           let '(r, st', ev) := rist_set_stats_socket call.1 call.2 st in
           (rets ++ [r], st', evs ++ ev))
        ([], st, []) calls.

Definition is_connect (e : event) : bool :=
  match e with UdpConnect _ _ => true | _ => false end.

End Log.

(** ** The public data types of librist.h *)

(** [struct rist_data_block]. [payload] holds the bytes the pointer of the
    same name addresses; [payload_len] says how many of them belong to the
    block. The [peer] pointer and [flags] play no part below. *)
Record rist_data_block : Set := DataBlock {
  payload       : list Z;
  payload_len   : Z;
  ts_ntp        : Z;   (* uint64_t *)
  virt_src_port : Z;   (* uint16_t *)
  virt_dst_port : Z;   (* uint16_t *)
  flow_id       : Z;   (* uint32_t *)
  seq           : Z;   (* uint64_t *)
  flags         : Z    (* uint32_t *)
}.

(** The [payload_len] bytes that [memcpy] and [udpsocket_send] read. *)
Definition block_bytes (b : rist_data_block) : list Z :=
  take (Z.to_nat (payload_len b)) (payload b).

(** Every field lies in the range of its C type and the payload really
    has [payload_len] bytes. *)
Definition block_wf (b : rist_data_block) : Prop :=
  Forall (is_uint 8) (payload b) /\
  payload_len b = Z.of_nat (length (payload b)) /\
  is_uint 64 (ts_ntp b) /\ is_uint 16 (virt_src_port b) /\
  is_uint 16 (virt_dst_port b) /\ is_uint 32 (flow_id b) /\
  is_uint 64 (seq b) /\ is_uint 32 (flags b).

(** ** tools/ristreceiver.c *)

Module RistReceiver.

Definition MAX_OUTPUT_COUNT : nat := 10.

(** Linux [errno.h]. *)
Definition ECONNREFUSED : Z := 111.

(** The fields of [struct rist_udp_config] that [cb_recv] reads. The
    structure is declared by the library, not by the tool; the fields
    are taken at the types of the variables they are assigned to. *)
Record rist_udp_config : Set := UdpConfig {
  stream_id    : Z;
  rtp          : Z;
  rtp_sequence : Z;
  rtp_ptype    : Z
}.

(** [struct rist_callback_object]: three arrays of [MAX_OUTPUT_COUNT]
    entries; a [NULL] configuration pointer is [None]. *)
Record rist_callback_object : Set := CallbackObject {
  mpeg       : list Z;
  udp_config : list (option rist_udp_config);
  i_seqnum   : list Z
}.

(** [risttools_rtp_set_hdr]: the twelve bytes stored through [p_rtp].
    The arguments are converted to the parameter types on entry. *)
Definition risttools_rtp_set_hdr (i_type i_seqnum i_timestamp i_ssrc : Z) : list Z :=
  let i_type := uint8_t i_type in
  let i_seqnum := uint16_t i_seqnum in
  let i_timestamp := uint32_t i_timestamp in
  let i_ssrc := uint32_t i_ssrc in
  [ uint8_t 0x80;
    uint8_t (Z.land i_type 0x7f);
    uint8_t (Z.shiftr i_seqnum 8);
    uint8_t (Z.land i_seqnum 0xff);
    uint8_t (Z.land (Z.shiftr i_timestamp 24) 0xff);
    uint8_t (Z.land (Z.shiftr i_timestamp 16) 0xff);
    uint8_t (Z.land (Z.shiftr i_timestamp 8) 0xff);
    uint8_t (Z.land i_timestamp 0xff);
    uint8_t (Z.land (Z.shiftr i_ssrc 24) 0xff);
    uint8_t (Z.land (Z.shiftr i_ssrc 16) 0xff);
    uint8_t (Z.land (Z.shiftr i_ssrc 8) 0xff);
    uint8_t (Z.land i_ssrc 0xff) ].

(** [risttools_convertNTPtoRTP], on a [uint64_t]. *)
Definition risttools_convertNTPtoRTP (i_ntp : Z) : Z :=
  let i_ntp := uint64_t i_ntp in
  let i_ntp := uint64_t (i_ntp * 90000) in
  let i_ntp := Z.shiftr i_ntp 32 in
  uint32_t i_ntp.

Inductive event : Set :=
| Sent      (output : nat) (fd : Z) (buf : list Z)  (* udpsocket_send(mpeg[output], buf, len) *)
| LogError  (text : string)
| LogInfo   (text : string)
| BlockFree                                          (* rist_receiver_data_block_free *)
| StatsFree                                          (* rist_stats_free *).

(** The test that maps the virtual destination port to an output. *)
Definition output_selected (profile : Z) (cfg : rist_udp_config)
    (b : rist_data_block) : bool :=
  let stream_port := uint16_t (stream_id cfg) in
  bool_decide (profile = RIST_PROFILE_SIMPLE)
  || bool_decide (stream_port = 0)
  || bool_decide (stream_port = virt_dst_port b).

(** The sequence number of the RTP header for output [i], and the
    callback object after the post-increment of [i_seqnum[i]]. *)
Definition rtp_seqnum (cfg : rist_udp_config) (b : rist_data_block) (i : nat)
    (co : rist_callback_object) : Z * rist_callback_object :=
  if bool_decide (rtp_sequence cfg <> 0) then (uint16_t (seq b), co)
  else
    let old := default 0 (i_seqnum co !! i) in
    (old, {| mpeg := mpeg co; udp_config := udp_config co;
             i_seqnum := <[i := uint16_t (old + 1)]> (i_seqnum co) |}).

Definition rtp_payload_type (cfg : rist_udp_config) : Z :=
  if bool_decide (rtp_ptype cfg <> 0) then uint8_t (rtp_ptype cfg) else 0x21.

(** The state of the loop of [cb_recv]. *)
Record recv_loop : Set := RecvLoop {
  rl_object : rist_callback_object;
  rl_events : list event;
  rl_found  : Z
}.

(** One iteration of the loop, for output [i]. [net fd buf] is what
    [udpsocket_send] returns together with the [errno] it leaves. *)
Definition cb_recv_body (profile : Z) (net : Z -> list Z -> Z * Z)
    (b : rist_data_block) (st : recv_loop) (i : nat) : recv_loop :=
  let co := rl_object st in
  match udp_config co !! i with
  | Some (Some cfg) =>
      if output_selected profile cfg b then
        let fd := default 0 (mpeg co !! i) in
        if bool_decide (fd > 0) then
          let '(buf, co') :=
            if bool_decide (rtp cfg <> 0) then
              let '(seqnum, co') := rtp_seqnum cfg b i co in
              let i_timestamp := risttools_convertNTPtoRTP (ts_ntp b) in
              let ptype := rtp_payload_type cfg in
              (risttools_rtp_set_hdr ptype seqnum i_timestamp (flow_id b)
                 ++ block_bytes b, co')
            else (block_bytes b, co) in
          let '(ret, errno) := net fd buf in
          let sent := [Sent i fd buf] in
          let failed :=
            if bool_decide (ret <= 0) && bool_decide (errno <> ECONNREFUSED)
            then [LogError ("Error " +:+ pretty errno +:+
                            " sending udp packet to socket " +:+ pretty fd +:+
                            newline)]
            else [] in
          {| rl_object := co';
             rl_events := rl_events st ++ sent ++ failed;
             rl_found := 1 |}
        else st
      else st
  | _ => st
  end.

(** [cb_recv]: return value, callback object and what was done. *)
Definition cb_recv (profile : Z) (net : Z -> list Z -> Z * Z)
    (co : rist_callback_object) (b : rist_data_block)
  : Z * rist_callback_object * list event :=
  let st := foldl (cb_recv_body profile net b)
                  {| rl_object := co; rl_events := []; rl_found := 0 |}
                  (List.seq 0 MAX_OUTPUT_COUNT) in
  if bool_decide (rl_found st = 0) then
    (-1, rl_object st,
     rl_events st ++
     [LogError ("Destination port mismatch, no output found for " +:+
                pretty (virt_dst_port b) +:+ newline)])
  else (0, rl_object st, rl_events st ++ [BlockFree]).

(** What one call of [cb_recv] does for output [i], read off the
    callback object the call starts with: the buffer it sends ... *)
Definition output_buffer (co : rist_callback_object) (b : rist_data_block)
    (i : nat) (cfg : rist_udp_config) : list Z :=
  if bool_decide (rtp cfg <> 0) then
    risttools_rtp_set_hdr (rtp_payload_type cfg) (rtp_seqnum cfg b i co).1
      (risttools_convertNTPtoRTP (ts_ntp b)) (flow_id b) ++ block_bytes b
  else block_bytes b.

(** ... and the events it leaves. *)
Definition output_events (profile : Z) (net : Z -> list Z -> Z * Z)
    (co : rist_callback_object) (b : rist_data_block) (i : nat) : list event :=
  match udp_config co !! i with
  | Some (Some cfg) =>
      let fd := default 0 (mpeg co !! i) in
      if output_selected profile cfg b && bool_decide (fd > 0) then
        let buf := output_buffer co b i cfg in
        Sent i fd buf ::
        (if bool_decide ((net fd buf).1 <= 0) && bool_decide ((net fd buf).2 <> ECONNREFUSED)
         then [LogError ("Error " +:+ pretty (net fd buf).2 +:+
                         " sending udp packet to socket " +:+ pretty fd +:+
                         newline)]
         else [])
      else []
  | _ => []
  end.

(** *** Cumulative statistics *)

(** A node of [struct ristreceiver_flow_cumulative_stats]; the [next]
    pointer is the tail of the list. *)
Record flow_cumulative_stats : Set := CumulativeStats {
  cs_flow_id   : Z;   (* uint32_t *)
  cs_received  : Z;   (* uint64_t *)
  cs_recovered : Z;   (* uint64_t *)
  cs_lost      : Z    (* uint64_t *)
}.

(** [struct rist_stats] is declared by the library, not by the tool. Of
    its union only the [receiver_flow] member is read; its [flow_id] is
    a [uint32_t] like that of the node. *)
Inductive rist_stats_type : Set :=
| RIST_STATS_SENDER_PEER
| RIST_STATS_RECEIVER_FLOW.

Record rist_stats : Set := Stats {
  stats_json   : string;
  stats_type   : rist_stats_type;
  rf_flow_id   : Z;
  rf_received  : Z;
  rf_recovered : Z;
  rf_lost      : Z
}.

(** The three [+=] on the node found or created. *)
Definition stats_add (c : rist_stats) (n : flow_cumulative_stats)
  : flow_cumulative_stats :=
  {| cs_flow_id := cs_flow_id n;
     cs_received := uint64_t (cs_received n + rf_received c);
     cs_recovered := uint64_t (cs_recovered n + rf_recovered c);
     cs_lost := uint64_t (cs_lost n + rf_lost c) |}.

(** The walk over [stats_list]: stop at the node of the flow, or link a
    zeroed node at the end. Returns the list and the node updated. *)
Fixpoint stats_update (c : rist_stats) (stats_list : list flow_cumulative_stats)
  : list flow_cumulative_stats * flow_cumulative_stats :=
  match stats_list with
  | [] =>
      let stats := {| cs_flow_id := rf_flow_id c; cs_received := 0;
                      cs_recovered := 0; cs_lost := 0 |} in
      ([stats_add c stats], stats_add c stats)
  | stats :: next =>
      if bool_decide (cs_flow_id stats <> rf_flow_id c) then
        let '(next', updated) := stats_update c next in
        (stats :: next', updated)
      else (stats_add c stats :: next, stats_add c stats)
  end.

Definition cumulative_json (n : flow_cumulative_stats) : string :=
  "{" +:+ dquote +:+ "flow_cumulative_stats" +:+ dquote +:+ ":{" +:+
  dquote +:+ "flow_id" +:+ dquote +:+ ":" +:+ pretty (cs_flow_id n) +:+ "," +:+
  dquote +:+ "received" +:+ dquote +:+ ":" +:+ pretty (cs_received n) +:+ "," +:+
  dquote +:+ "recovered" +:+ dquote +:+ ":" +:+ pretty (cs_recovered n) +:+ "," +:+
  dquote +:+ "lost" +:+ dquote +:+ ":" +:+ pretty (cs_lost n) +:+ "}}" +:+ newline.

(** [cb_stats], on the global [stats_list]. *)
Definition cb_stats (stats_container : rist_stats)
    (stats_list : list flow_cumulative_stats)
  : Z * list flow_cumulative_stats * list event :=
  let json := LogInfo (stats_json stats_container +:+ newline) in
  match stats_type stats_container with
  | RIST_STATS_RECEIVER_FLOW =>
      let '(stats_list', stats) := stats_update stats_container stats_list in
      (0, stats_list', [json; LogInfo (cumulative_json stats); StatsFree])
  | _ => (0, stats_list, [json; StatsFree])
  end.

(** The list after a run of callbacks; [stats_list] starts out [NULL]. *)
Definition stats_after (cs : list rist_stats) : list flow_cumulative_stats :=
  foldl (fun l c => (cb_stats c l).1.2) [] cs.

(** The node of flow [f], if the list has one: the first match, as in
    the walk of [cb_stats]. *)
Fixpoint lookup_flow (f : Z) (l : list flow_cumulative_stats)
  : option flow_cumulative_stats :=
  match l with
  | [] => None
  | n :: l' => if bool_decide (cs_flow_id n = f) then Some n else lookup_flow f l'
  end.

(** The receiver-flow reports among the callbacks that are about flow [f]. *)
Definition reports_flow (f : Z) (c : rist_stats) : bool :=
  match stats_type c with
  | RIST_STATS_RECEIVER_FLOW => bool_decide (rf_flow_id c = f)
  | _ => false
  end.

(** The sum of one interval counter over a list of reports. *)
Definition total (field : rist_stats -> Z) (cs : list rist_stats) : Z :=
  foldr (fun c acc => field c + acc) 0 cs.

(** *** main *)

(** The library calls [main] makes between creating the context and
    parsing the URLs. *)
Inductive api_call : Set :=
| ReceiverCreate   (profile : Z)
| AuthHandlerSet
| OobCallbackSet
| StatsCallbackSet (statsinterval : Z).

(** [ret c] is the value the library returns for the call [c]. The
    result lists the calls made and the exit status, if [main] exits. *)
Definition main_setup (profile statsinterval : Z) (ret : api_call -> Z)
  : list api_call * option Z :=
  if bool_decide (ret (ReceiverCreate profile) <> 0) then
    ([ReceiverCreate profile], Some 1)
  else if bool_decide (ret AuthHandlerSet <> 0) then
    ([ReceiverCreate profile; AuthHandlerSet], Some 1)
  else
    let '(oob, oob_failed) :=
      if bool_decide (profile <> RIST_PROFILE_SIMPLE)
      then ([OobCallbackSet], bool_decide (ret OobCallbackSet = -1))
      else ([], false) in
    if oob_failed then
      ([ReceiverCreate profile; AuthHandlerSet] ++ oob, Some 1)
    else if bool_decide (ret (StatsCallbackSet statsinterval) = -1) then
      ([ReceiverCreate profile; AuthHandlerSet] ++ oob ++
       [StatsCallbackSet statsinterval], Some 1)
    else
      ([ReceiverCreate profile; AuthHandlerSet] ++ oob ++
       [StatsCallbackSet statsinterval], None).

(** What the environment answers for one token of the output URL list:
    whether [rist_parse_udp_address] fails and the configuration it
    yields, whether the address part is rejected, and the descriptor
    [udpsocket_open_connect] returns. *)
Record output_token : Set := OutputToken {
  parse_failed : bool;
  parsed       : rist_udp_config;
  url_rejected : bool;
  opened       : Z
}.

(** The body of the loop that opens the outputs, for token [i]. *)
Definition open_output (st : rist_callback_object * bool) (it : nat * output_token)
  : rist_callback_object * bool :=
  let '(co, atleast_one_socket_opened) := st in
  let '(i, tok) := it in
  if parse_failed tok then st
  else if url_rejected tok then st
  else
    let co1 := {| mpeg := <[i := opened tok]> (mpeg co);
                  udp_config := udp_config co; i_seqnum := i_seqnum co |} in
    if bool_decide (opened tok <= 0) then (co1, atleast_one_socket_opened)
    else
      ({| mpeg := mpeg co1;
          udp_config := <[i := Some (parsed tok)]> (udp_config co1);
          i_seqnum := i_seqnum co1 |}, true).

(** The callback object as [main] hands it to the library: [mpeg] and
    [udp_config] cleared, then at most [MAX_OUTPUT_COUNT] tokens
    opened. [i_seqnum] is not initialised by [main]: [garbage] is
    whatever the array holds. *)
Definition open_outputs (garbage : list Z) (tokens : list output_token)
  : rist_callback_object * bool :=
  foldl open_output
    ({| mpeg := replicate MAX_OUTPUT_COUNT 0;
        udp_config := replicate MAX_OUTPUT_COUNT None;
        i_seqnum := garbage |}, false)
    (imap (fun i tok => (i, tok)) (take MAX_OUTPUT_COUNT tokens)).

(** What [main] guarantees about the callback object: ten entries each,
    and a configuration behind every open socket. *)
Definition outputs_consistent (co : rist_callback_object) : Prop :=
  length (mpeg co) = MAX_OUTPUT_COUNT /\
  length (udp_config co) = MAX_OUTPUT_COUNT /\
  forall i fd, mpeg co !! i = Some fd -> fd > 0 ->
               exists cfg, udp_config co !! i = Some (Some cfg).

End RistReceiver.

(** ** The RTP fixed header, as RFC 3550 and the specification lay it out *)

Module Rtp.

Definition byte_at (hdr : list Z) (i : nat) : Z := default 0 (hdr !! i).

Definition be16 (hdr : list Z) (i : nat) : Z :=
  Z.lor (Z.shiftl (byte_at hdr i) 8) (byte_at hdr (i + 1)).

Definition be32 (hdr : list Z) (i : nat) : Z :=
  Z.lor (Z.shiftl (byte_at hdr i) 24)
    (Z.lor (Z.shiftl (byte_at hdr (i + 1)) 16)
       (Z.lor (Z.shiftl (byte_at hdr (i + 2)) 8) (byte_at hdr (i + 3)))).

Definition version   (hdr : list Z) : Z := Z.shiftr (byte_at hdr 0) 6.
Definition padding   (hdr : list Z) : Z := Z.land (Z.shiftr (byte_at hdr 0) 5) 1.
Definition extension (hdr : list Z) : Z := Z.land (Z.shiftr (byte_at hdr 0) 4) 1.
Definition csrc_count (hdr : list Z) : Z := Z.land (byte_at hdr 0) 0xf.
Definition marker    (hdr : list Z) : Z := Z.shiftr (byte_at hdr 1) 7.
Definition payload_type (hdr : list Z) : Z := Z.land (byte_at hdr 1) 0x7f.
Definition sequence  (hdr : list Z) : Z := be16 hdr 2.
Definition timestamp (hdr : list Z) : Z := be32 hdr 4.
Definition ssrc      (hdr : list Z) : Z := be32 hdr 8.

End Rtp.

(** ** The API of librist.h

    The header declares the functions and documents their parameters;
    it has no bodies. *)

Module LibRist.

(** Modelled from the spec: the error kinds of its section 7 (the
    header only documents [0] and [-1]). *)
Inductive error : Set :=
| InvalidConfig | WouldBlock | TimedOut | MalformedPacket | DecryptFailed
| PeerDead | RingFull | Unauthorized | NotStarted | AlreadyStarted | Fatal.

Inductive result (A : Type) : Type :=
| Ok  (a : A)
| Err (e : error).
Arguments Ok {A} a.
Arguments Err {A} e.

(** [struct rist_peer_config] of librist.h ([address] left out). *)
Record rist_peer_config : Set := PeerConfig {
  version                    : Z;
  gre_dst_port               : Z;
  recovery_mode              : Z;
  recovery_maxbitrate        : Z;
  recovery_maxbitrate_return : Z;
  recovery_length_min        : Z;
  recovery_length_max        : Z;
  recovery_reorder_buffer    : Z;
  recovery_rtt_min           : Z;
  recovery_rtt_max           : Z;
  weight                     : Z;
  buffer_bloat_mode          : Z;
  buffer_bloat_limit         : Z;
  buffer_bloat_hard_limit    : Z
}.

(** Modelled from the spec: a peer of a sender, as far as [enqueue]
    needs it (sections 3 and 4.2): its authentication state, the level
    of its token bucket, what was transmitted to it (oldest first) and
    its retransmit ring, indexed by the sequence number modulo the
    capacity. *)
Record sender_peer : Set := SenderPeer {
  sp_config        : rist_peer_config;
  sp_authenticated : bool;
  sp_tokens        : Z;
  sp_transmitted   : list rist_data_block;
  sp_ring          : list (option rist_data_block)
}.

(** Modelled from the spec: the state behind [struct rist_sender]. *)
Record rist_sender : Set := Sender {
  s_profile      : Z;
  s_flow_id      : Z;
  s_log_level    : Z;
  s_peers        : list sender_peer;
  s_started      : bool;
  s_next_seq     : Z;
  s_backpressure : bool
}.

(** Modelled from the spec: the state behind [struct rist_receiver];
    [r_fifo] is the queue of released blocks the application reads
    from, oldest first. *)
Record rist_receiver : Set := Receiver {
  r_profile   : Z;
  r_log_level : Z;
  r_peers     : list rist_peer_config;
  r_started   : bool;
  r_fifo      : list rist_data_block
}.

(** Modelled from the spec: the body of [rist_sender_create]. The
    header says of [flow_id]: use 0 to delegate creation of flow_id to
    lib; [generated] is the identifier the library comes up with. *)
Definition rist_sender_create (profile flow_id log_level : Z) (generated : Z)
  : rist_sender :=
  {| s_profile := profile;
     s_flow_id := if bool_decide (flow_id = 0) then generated else flow_id;
     s_log_level := log_level;
     s_peers := [];
     s_started := false;
     s_next_seq := 0;
     s_backpressure := false |}.

(** Modelled from the spec: the body of [rist_sender_flow_id_get],
    which retrieves the current flow_id value. *)
Definition rist_sender_flow_id_get (ctx : rist_sender) : result Z :=
  Ok (s_flow_id ctx).

(** Modelled from the spec: the body of [rist_receiver_create]. *)
Definition rist_receiver_create (profile log_level : Z) : rist_receiver :=
  {| r_profile := profile; r_log_level := log_level; r_peers := [];
     r_started := false; r_fifo := [] |}.

(** Modelled from the spec: the body of [rist_sender_start]. The spec
    names the outcomes, not the configurations that are invalid:
    [config_ok] is the check. *)
Definition rist_sender_start (config_ok : rist_sender -> bool) (ctx : rist_sender)
  : result unit * rist_sender :=
  if s_started ctx then (Err AlreadyStarted, ctx)
  else if negb (config_ok ctx) then (Err InvalidConfig, ctx)
  else
    (Ok (),
     {| s_profile := s_profile ctx; s_flow_id := s_flow_id ctx;
        s_log_level := s_log_level ctx; s_peers := s_peers ctx;
        s_started := true; s_next_seq := s_next_seq ctx;
        s_backpressure := s_backpressure ctx |}).

(** Modelled from the spec: the body of [rist_receiver_start]. *)
Definition rist_receiver_start (config_ok : rist_receiver -> bool)
    (ctx : rist_receiver) : result unit * rist_receiver :=
  if r_started ctx then (Err AlreadyStarted, ctx)
  else if negb (config_ok ctx) then (Err InvalidConfig, ctx)
  else
    (Ok (),
     {| r_profile := r_profile ctx; r_log_level := r_log_level ctx;
        r_peers := r_peers ctx; r_started := true; r_fifo := r_fifo ctx |}).

(** Modelled from the spec: the stamping step of [enqueue] in the body
    of [rist_sender_data_write]: sequence = next_seq, flow_id and
    timestamp filled in if zero. [now] is the NTP clock. (The header
    agrees on the timestamp: the ts_ntp will be populated by the lib if
    a value of 0 is passed.) *)
Definition stamp (ctx : rist_sender) (now : Z) (b : rist_data_block)
  : rist_data_block :=
  {| payload := payload b;
     payload_len := payload_len b;
     ts_ntp := if bool_decide (ts_ntp b = 0) then now else ts_ntp b;
     virt_src_port := virt_src_port b;
     virt_dst_port := virt_dst_port b;
     flow_id := if bool_decide (flow_id b = 0) then s_flow_id ctx else flow_id b;
     seq := s_next_seq ctx;
     flags := flags b |}.

(** Modelled from the spec: an authenticated peer transmits the packet
    and keeps one copy in its retransmit ring; other peers are left
    alone. *)
Definition transmit (pkt : rist_data_block) (p : sender_peer) : sender_peer :=
  if sp_authenticated p then
    {| sp_config := sp_config p;
       sp_authenticated := true;
       sp_tokens := sp_tokens p - payload_len pkt;
       sp_transmitted := sp_transmitted p ++ [pkt];
       sp_ring := <[Z.to_nat (seq pkt mod Z.of_nat (length (sp_ring p))) := Some pkt]>
                    (sp_ring p) |}
  else p.

(** Modelled from the spec: [enqueue] fails with WouldBlock if the
    token bucket of the pacer is empty and backpressure is in effect. *)
Definition would_block (ctx : rist_sender) : bool :=
  s_backpressure ctx &&
  existsb (fun p => sp_authenticated p && bool_decide (sp_tokens p <= 0))
          (s_peers ctx).

(** Modelled from the spec: the body of [rist_sender_data_write]
    ([enqueue] of section 4.2). The sequence space is 32-bit modular. *)
Definition rist_sender_data_write (ctx : rist_sender) (now : Z)
    (data_block : rist_data_block) : result Z * rist_sender :=
  if would_block ctx then (Err WouldBlock, ctx)
  else
    let pkt := stamp ctx now data_block in
    (Ok (payload_len data_block),
     {| s_profile := s_profile ctx; s_flow_id := s_flow_id ctx;
        s_log_level := s_log_level ctx;
        s_peers := map (transmit pkt) (s_peers ctx);
        s_started := s_started ctx;
        s_next_seq := uint32_t (s_next_seq ctx + 1);
        s_backpressure := s_backpressure ctx |}).

Definition with_fifo (ctx : rist_receiver) (fifo : list rist_data_block)
  : rist_receiver :=
  {| r_profile := r_profile ctx; r_log_level := r_log_level ctx;
     r_peers := r_peers ctx; r_started := r_started ctx; r_fifo := fifo |}.

(** Modelled from the spec: the wait of [rist_receiver_data_read]. The
    header gives the timeout in milliseconds, 0 for no wait;
    [released] lists, millisecond by millisecond, the blocks the
    release loop appends to the queue while the caller waits. *)
Fixpoint wait_for_data (timeout : nat) (released : list (list rist_data_block))
    (ctx : rist_receiver) : result rist_data_block * rist_receiver :=
  match r_fifo ctx with
  | b :: fifo => (Ok b, with_fifo ctx fifo)
  | [] =>
      match timeout with
      | O => (Err TimedOut, ctx)
      | S timeout' =>
          wait_for_data timeout' (tail released)
            (with_fifo ctx (r_fifo ctx ++ default [] (head released)))
      end
  end.

(** Modelled from the spec: the body of [rist_receiver_data_read]: ok
    with a block, TimedOut on expiry, or NotStarted. *)
Definition rist_receiver_data_read (ctx : rist_receiver) (timeout : nat)
    (released : list (list rist_data_block))
  : result rist_data_block * rist_receiver :=
  if r_started ctx then wait_for_data timeout released ctx
  else (Err NotStarted, ctx).

(** What is in the queue, or arrives there, before the timeout. *)
Definition available (ctx : rist_receiver) (timeout : nat)
    (released : list (list rist_data_block)) : list rist_data_block :=
  r_fifo ctx ++ concat (take timeout released).

(** The calls an application makes on a sender once it is created. *)
Inductive sender_call : Set :=
| CallStart
| CallDataWrite (now : Z) (data_block : rist_data_block).

Definition sender_step (config_ok : rist_sender -> bool) (ctx : rist_sender)
    (c : sender_call) : rist_sender :=
  match c with
  | CallStart => (rist_sender_start config_ok ctx).2
  | CallDataWrite now data_block => (rist_sender_data_write ctx now data_block).2
  end.

Definition sender_run (config_ok : rist_sender -> bool) (ctx : rist_sender)
    (calls : list sender_call) : rist_sender :=
  foldl (sender_step config_ok) ctx calls.

End LibRist.

(** ** The receive path of the library

    [rist_receiver_data_read] reads from a queue; this is how a block
    gets into it. The header has none of it. *)

Module ReceiveLoop.

Import LibRist.

(** Modelled from the spec: the payload type of a data packet (section
    6); the others are NACK, RR, keep-alive and OOB. *)
Definition PAYLOAD_TYPE_DATA : Z := 0.

(** Modelled from the spec: the flags of the header, [flags:4]. Section
    4.1 names two of them, encrypted and compressed, and not their
    bits: they are taken as the two low ones, the other two being the
    reserved ones. *)
Definition FLAG_ENCRYPTED  : Z := 1.

(** Modelled from the spec: the flag compressed. *)
Definition FLAG_COMPRESSED : Z := 2.

(** Modelled from the spec: the reserved bits of the flags. *)
Definition FLAGS_RESERVED  : Z := 12.

(** Modelled from the spec: the GRE-style header of 4 + 8 bytes
    (section 6). *)
Definition GRE_HEADER : nat := 12.

(** Modelled from the spec: the RTP header of 12 bytes (section 6). *)
Definition RTP_HEADER : nat := 12.

(** Modelled from the spec: what the framer makes of a datagram: a data
    packet, or a packet of another payload type, which goes to the
    control handlers. *)
Inductive packet : Set :=
| DataPacket    (b : rist_data_block)
| ControlPacket (payload_type : Z) (body : list Z).

(** Modelled from the spec: decode of the main profile (sections 4.1
    and 6), on a datagram given as its bytes. The layout is
    [version:4|flags:4|payload_type:8|length:16], then
    [virt_src_port:16|virt_dst_port:16|flow_id:32], then for a data
    packet the RTP header [V,P,X,CC|M,PT|seq:16|ts:32|ssrc:32], then
    the payload. [length] is taken to count the whole datagram. Decode
    fails with MalformedPacket when the lengths mismatch or a reserved
    bit is set. The block of a data packet gets its payload length from
    the [length] of the header. *)
Definition decode_main (d : list Z) : result packet :=
  if bool_decide (length d < GRE_HEADER)%nat then Err MalformedPacket
  else
    let pkt_flags := Z.land (Rtp.byte_at d 0) 15 in
    let pkt_type := Rtp.byte_at d 1 in
    let pkt_length := Rtp.be16 d 2 in
    if bool_decide (pkt_length <> Z.of_nat (length d)) then Err MalformedPacket
    else if bool_decide (Z.land pkt_flags FLAGS_RESERVED <> 0) then Err MalformedPacket
    else if bool_decide (pkt_type <> PAYLOAD_TYPE_DATA) then
      Ok (ControlPacket pkt_type (drop GRE_HEADER d))
    else if bool_decide (length d < GRE_HEADER + RTP_HEADER)%nat then Err MalformedPacket
    else
      Ok (DataPacket
            {| payload := drop (GRE_HEADER + RTP_HEADER) d;
               payload_len := pkt_length - Z.of_nat (GRE_HEADER + RTP_HEADER);
               ts_ntp := Rtp.be32 d 16;
               virt_src_port := Rtp.be16 d 4;
               virt_dst_port := Rtp.be16 d 6;
               flow_id := Rtp.be32 d 8;
               seq := Rtp.be16 d 14;
               flags := pkt_flags |}).

(** Modelled from the spec: decode of the simple profile, where the
    GRE-style header and the virtual ports are absent and a packet is
    RTP over UDP (section 4.1); the flow is the SSRC. There is no
    length in the header: the datagram is the packet. *)
Definition decode_simple (d : list Z) : result packet :=
  if bool_decide (length d < RTP_HEADER)%nat then Err MalformedPacket
  else
    Ok (DataPacket
          {| payload := drop RTP_HEADER d;
             payload_len := Z.of_nat (length d) - Z.of_nat RTP_HEADER;
             ts_ntp := Rtp.timestamp d;
             virt_src_port := 0;
             virt_dst_port := 0;
             flow_id := Rtp.ssrc d;
             seq := Rtp.sequence d;
             flags := 0 |}).

(** Modelled from the spec: decode, by the profile of the context. *)
Definition decode (profile : Z) (d : list Z) : result packet :=
  if bool_decide (profile = RIST_PROFILE_SIMPLE) then decode_simple d
  else decode_main d.

(** Modelled from the spec: what it leaves open or treats as a black
    box:
    - [decrypt] and [decompress], AES and LZ4 (section 4.7), which give
      the clear payload or fail;
    - [keep], the decision of the reorder buffer on an arriving block,
      from the time and the blocks it holds (section 4.3: a duplicate
      or a late block is dropped);
    - [due], its decision to release a held block, from the time, the
      time the block arrived at and the block (section 4.3: the
      deadline of a slot). *)
Record policy : Type := Policy {
  decrypt    : list Z -> option (list Z);
  decompress : list Z -> option (list Z);
  keep       : Z -> list rist_data_block -> rist_data_block -> bool;
  due        : Z -> Z -> rist_data_block -> bool
}.

(** A block with its payload replaced as a whole. *)
Definition with_payload (b : rist_data_block) (bytes : list Z) : rist_data_block :=
  {| payload := bytes; payload_len := Z.of_nat (length bytes);
     ts_ntp := ts_ntp b; virt_src_port := virt_src_port b;
     virt_dst_port := virt_dst_port b; flow_id := flow_id b;
     seq := seq b; flags := flags b |}.

(** Modelled from the spec: decrypt, then decompress (section 2, the
    receive side); a failure of the first is DecryptFailed, one of the
    second MalformedPacket (section 4.7). *)
Definition unwrap (pol : policy) (b : rist_data_block) : result rist_data_block :=
  let encrypted := bool_decide (Z.land (flags b) FLAG_ENCRYPTED <> 0) in
  let compressed := bool_decide (Z.land (flags b) FLAG_COMPRESSED <> 0) in
  if negb encrypted && negb compressed then Ok b
  else
    match (if encrypted then decrypt pol (payload b) else Some (payload b)) with
    | None => Err DecryptFailed
    | Some clear =>
        match (if compressed then decompress pol clear else Some clear) with
        | None => Err MalformedPacket
        | Some bytes => Ok (with_payload b bytes)
        end
    end.

(** Modelled from the spec: a datagram on its way to the reorder
    buffer. Per-packet errors are counted and never surfaced (section
    7): the datagram is dropped. *)
Definition incoming (pol : policy) (profile : Z) (d : list Z)
  : option rist_data_block :=
  match decode profile d with
  | Ok (DataPacket b) =>
      match unwrap pol b with
      | Ok b' => Some b'
      | Err _ => None
      end
  | Ok (ControlPacket _ _) => None
  | Err _ => None
  end.

(** Modelled from the spec: the receive loop of a context (section 5):
    the context with its queue, the clock in milliseconds and the
    blocks the reorder buffer holds, each with the time it arrived
    at. *)
Record loop_state : Set := LoopState {
  ls_ctx  : rist_receiver;
  ls_now  : Z;
  ls_held : list (Z * rist_data_block)
}.

Definition with_ctx (st : loop_state) (ctx : rist_receiver) : loop_state :=
  {| ls_ctx := ctx; ls_now := ls_now st; ls_held := ls_held st |}.

(** Modelled from the spec: the loop of a context just created, which
    holds nothing. *)
Definition loop_create (profile log_level : Z) : loop_state :=
  {| ls_ctx := rist_receiver_create profile log_level; ls_now := 0; ls_held := [] |}.

(** Modelled from the spec: the arrival of a datagram (section 4.3):
    the block of a data packet is placed in the reorder buffer and
    held, unless the buffer drops it. *)
Definition arrive (pol : policy) (st : loop_state) (d : list Z) : loop_state :=
  match incoming pol (r_profile (ls_ctx st)) d with
  | Some b =>
      if keep pol (ls_now st) (map snd (ls_held st)) b then
        {| ls_ctx := ls_ctx st; ls_now := ls_now st;
           ls_held := ls_held st ++ [(ls_now st, b)] |}
      else st
  | None => st
  end.

(** The held blocks that are due. *)
Definition ready (pol : policy) (st : loop_state) : list rist_data_block :=
  map snd (filter (fun hb => due pol (ls_now st) hb.1 hb.2) (ls_held st)).

(** Modelled from the spec: the release loop (section 4.3): the held
    blocks that are due are delivered, to the queue of the application,
    and their slots freed. Nothing else is delivered: gaps are elided,
    no placeholder takes the place of a missing packet. (Section 5 calls
    the queue bounded and gives neither the bound nor what becomes of a
    block that does not fit; no bound is modelled.) *)
Definition release (pol : policy) (st : loop_state) : loop_state :=
  {| ls_ctx := with_fifo (ls_ctx st) (r_fifo (ls_ctx st) ++ ready pol st);
     ls_now := ls_now st;
     ls_held := filter (fun hb => negb (due pol (ls_now st) hb.1 hb.2)) (ls_held st) |}.

(** Modelled from the spec: one millisecond of the loop of a started
    context: the datagrams that arrive, then the release. The loop of a
    context that is not started does not run. *)
Definition tick (pol : policy) (datagrams : list (list Z)) (st : loop_state)
  : loop_state :=
  let st' :=
    if r_started (ls_ctx st) then release pol (foldl (arrive pol) st datagrams)
    else st in
  {| ls_ctx := ls_ctx st'; ls_now := ls_now st + 1; ls_held := ls_held st' |}.

(** What one millisecond appends to the queue. *)
Definition released_in (pol : policy) (datagrams : list (list Z)) (st : loop_state)
  : list rist_data_block :=
  if r_started (ls_ctx st) then ready pol (foldl (arrive pol) st datagrams) else [].

(** [n] milliseconds of the loop; [arrivals] lists the datagrams that
    arrive in each. *)
Fixpoint ticks (pol : policy) (n : nat) (arrivals : list (list (list Z)))
    (st : loop_state) : loop_state :=
  match n with
  | O => st
  | S n' => ticks pol n' (tail arrivals) (tick pol (default [] (head arrivals)) st)
  end.

(** What the loop appends to the queue in each of [n] milliseconds:
    the [released] of [rist_receiver_data_read]. *)
Fixpoint releases (pol : policy) (n : nat) (arrivals : list (list (list Z)))
    (st : loop_state) : list (list rist_data_block) :=
  match n with
  | O => []
  | S n' =>
      released_in pol (default [] (head arrivals)) st ::
      releases pol n' (tail arrivals) (tick pol (default [] (head arrivals)) st)
  end.

(** For how many milliseconds a read waits. *)
Fixpoint ms_waited (timeout : nat) (fifo : list rist_data_block)
    (released : list (list rist_data_block)) : nat :=
  match fifo, timeout with
  | _ :: _, _ => O
  | [], O => O
  | [], S timeout' =>
      S (ms_waited timeout' (default [] (head released)) (tail released))
  end.

(** Modelled from the spec: [rist_receiver_data_read] on a context
    whose loop runs while the caller waits: the result of the read, and
    the loop after the milliseconds the read has waited. *)
Definition loop_data_read (pol : policy) (st : loop_state) (timeout : nat)
    (arrivals : list (list (list Z))) : result rist_data_block * loop_state :=
  let released := releases pol timeout arrivals st in
  let r := rist_receiver_data_read (ls_ctx st) timeout released in
  (r.1,
   if r_started (ls_ctx st) then
     with_ctx (ticks pol (ms_waited timeout (r_fifo (ls_ctx st)) released) arrivals st)
              r.2
   else st).

(** What happens to a receiver once it is created: the application
    starts it, a millisecond goes by with its datagrams, or the
    application reads. *)
Inductive receiver_call : Type :=
| CallReceiverStart (config_ok : rist_receiver -> bool)
| Millisecond       (datagrams : list (list Z))
| CallDataRead      (timeout : nat) (arrivals : list (list (list Z))).

Definition receiver_step (pol : policy) (st : loop_state) (c : receiver_call)
  : loop_state :=
  match c with
  | CallReceiverStart config_ok =>
      with_ctx st (rist_receiver_start config_ok (ls_ctx st)).2
  | Millisecond datagrams => tick pol datagrams st
  | CallDataRead timeout arrivals => (loop_data_read pol st timeout arrivals).2
  end.

Definition receiver_run (pol : policy) (profile log_level : Z)
    (calls : list receiver_call) : loop_state :=
  foldl (receiver_step pol) (loop_create profile log_level) calls.

(** The datagrams a receiver has been sent. *)
Definition call_datagrams (c : receiver_call) : list (list Z) :=
  match c with
  | CallReceiverStart _ => []
  | Millisecond datagrams => datagrams
  | CallDataRead timeout arrivals => concat (take timeout arrivals)
  end.

Definition traffic (calls : list receiver_call) : list (list Z) :=
  flat_map call_datagrams calls.

(** A block is complete when its payload has the bytes its length
    announces. *)
Definition complete (b : rist_data_block) : Prop :=
  payload_len b = Z.of_nat (length (payload b)).

(** A block that came off the wire: what the receive path makes of one
    of the datagrams of [seen]. *)
Definition from_wire (pol : policy) (profile : Z) (seen : list (list Z))
    (b : rist_data_block) : Prop :=
  exists d, d ∈ seen /\ incoming pol profile d = Some b.

(** Every block the loop holds or has queued came off the wire. *)
Definition loop_sound (pol : policy) (profile : Z) (seen : list (list Z))
    (st : loop_state) : Prop :=
  r_profile (ls_ctx st) = profile /\
  Forall (from_wire pol profile seen) (r_fifo (ls_ctx st)) /\
  Forall (fun hb => from_wire pol profile seen hb.2) (ls_held st).

End ReceiveLoop.


(** ** Sample inputs *)

Module Sample.

(** Output 0 sends RTP with its own counter, output 2 sends the bare
    payload of the blocks for virtual port 1971. *)
Definition outputs : RistReceiver.rist_callback_object :=
  {| RistReceiver.mpeg := [5; 0; 6; 0; 0; 0; 0; 0; 0; 0];
     RistReceiver.udp_config :=
       [Some (RistReceiver.UdpConfig 0 1 0 0); None;
        Some (RistReceiver.UdpConfig 1971 0 0 0);
        None; None; None; None; None; None; None];
     RistReceiver.i_seqnum := [41; 0; 0; 0; 0; 0; 0; 0; 0; 0] |}.

(** The same outputs as [main] opens them from two URLs. *)
Definition tokens : list RistReceiver.output_token :=
  [ RistReceiver.OutputToken false (RistReceiver.UdpConfig 0 1 0 0) false 5;
    RistReceiver.OutputToken false (RistReceiver.UdpConfig 1971 0 0 0) false 6 ].

Definition block : rist_data_block :=
  {| payload := [71; 1; 2]; payload_len := 3; ts_ntp := 0x0000000100000000;
     virt_src_port := 0; virt_dst_port := 7; flow_id := 0x11223344;
     seq := 70000; flags := 0 |}.

(** A network on which every send goes through. *)
Definition net (fd : Z) (buf : list Z) : Z * Z := (Z.of_nat (length buf), 0).

(** A block as an application hands it to the sender: no flow id, no
    timestamp. *)
Definition fresh_block : rist_data_block :=
  {| payload := [71; 1; 2]; payload_len := 3; ts_ntp := 0;
     virt_src_port := 0; virt_dst_port := 1971; flow_id := 0;
     seq := 0; flags := 0 |}.

Definition peer_config : LibRist.rist_peer_config :=
  LibRist.PeerConfig 0 1968 3 100000 0 1000 1000 25 50 500 5 0 6 20.

(** A started sender at the end of the sequence space, with one
    authenticated peer and one that is not. *)
Definition sender : LibRist.rist_sender :=
  {| LibRist.s_profile := RIST_PROFILE_MAIN;
     LibRist.s_flow_id := 0x11223344;
     LibRist.s_log_level := RIST_LOG_WARN;
     LibRist.s_peers :=
       [ LibRist.SenderPeer peer_config true 1500 [] [None; None; None; None];
         LibRist.SenderPeer peer_config false 0 [] [None; None; None; None] ];
     LibRist.s_started := true;
     LibRist.s_next_seq := 4294967295;
     LibRist.s_backpressure := true |}.

(** A started receiver with nothing queued. *)
Definition receiver : LibRist.rist_receiver :=
  {| LibRist.r_profile := RIST_PROFILE_MAIN;
     LibRist.r_log_level := RIST_LOG_WARN;
     LibRist.r_peers := [peer_config];
     LibRist.r_started := true;
     LibRist.r_fifo := [] |}.

(** The reorder buffer with a deadline of two milliseconds after the
    arrival, which drops a block it already holds; no key and no
    codec. *)
Definition policy : ReceiveLoop.policy :=
  {| ReceiveLoop.decrypt := fun _ => None;
     ReceiveLoop.decompress := fun _ => None;
     ReceiveLoop.keep := fun _ held b =>
       negb (existsb (fun h => bool_decide (flow_id h = flow_id b /\ seq h = seq b))
                     held);
     ReceiveLoop.due := fun now arrival _ => bool_decide (arrival + 2 <= now) |}.

(** A data packet of the main profile with three bytes of payload, and
    the same datagram cut short by one byte. *)
Definition datagram : list Z :=
  [16; 0; 0; 27; 0; 0; 7; 179; 17; 34; 51; 68;
   128; 33; 17; 112; 0; 0; 0; 1; 17; 34; 51; 68;
   71; 1; 2].

Definition truncated : list Z := take 26 datagram.

Definition wire_block : rist_data_block :=
  {| payload := [71; 1; 2]; payload_len := 3; ts_ntp := 1;
     virt_src_port := 0; virt_dst_port := 1971; flow_id := 0x11223344;
     seq := 4464; flags := 0 |}.

End Sample.

(** ** The claims of the specification that the code does not meet, as
    the specification words them *)

Module Stated.

(** Configuration done for one context is invisible to [msg] called for
    another one: neither the filtering nor the descriptors change. The
    configuration calls carry no context, so the context on whose behalf
    one is made cannot be told from the call. *)
Definition logging_is_per_context (p : Log.platform) : Prop :=
  forall (c : Log.config_call) (st : Log.state) tv server_ctx client_ctx level content,
    map Log.destination_of
        (Log.msg p tv server_ctx client_ctx level content (Log.configure c st)).2 =
    map Log.destination_of
        (Log.msg p tv server_ctx client_ctx level content st).2.

(** A message above the log level writes nothing and modifies no state. *)
Definition filtered_msg_is_inert (p : Log.platform) : Prop :=
  forall tv server_ctx client_ctx level content (st : Log.state),
    level > Log.loglevel st ->
    Log.msg p tv server_ctx client_ctx level content st = (st, []).

(** In a run of calls of [rist_set_stats_socket] that starts without
    a stats socket, the first call with a nonzero port is the only one
    that connects, and the socket it has created stays in place whatever
    calls follow. *)
Definition stats_socket_created_once : Prop :=
  forall (st : Log.state) (connected port : Z) (later : list (Z * Z)),
    port <> 0 ->
    Log.stats_socket st = 0 ->
    let r := Log.socket_calls ((connected, port) :: later) st in
    filter Log.is_connect r.2 = [Log.UdpConnect "127.0.0.1" port] /\
    Log.stats_socket r.1.2 = connected.

End Stated.

(** ** Runs of calls into log.c *)

Module LogRun.

(** The arguments of one call of [msg], with the time the clock shows
    and the rendered text. *)
Record msg_call : Set := MsgCall {
  mc_tv      : Log.timeval;
  mc_server  : Z;
  mc_client  : Z;
  mc_level   : Z;
  mc_content : string
}.

Definition msg_of (p : Log.platform) (c : msg_call) (st : Log.state)
  : Log.state * list Log.event :=
  Log.msg p (mc_tv c) (mc_server c) (mc_client c) (mc_level c) (mc_content c) st.

(** A run of calls of [msg]: the final state and all the events. *)
Definition msg_run (p : Log.platform) (calls : list msg_call) (st : Log.state)
  : Log.state * list Log.event :=
  foldl (fun acc c => ((msg_of p c acc.1).1, acc.2 ++ (msg_of p c acc.1).2))
        (st, []) calls.

(** A run of calls of [rist_set_stats_fd]: the return values and the
    final state. *)
Definition fd_calls (fds : list Z) (st : Log.state) : list Z * Log.state :=
  foldl (fun acc fd =>
           (acc.1 ++ [(Log.rist_set_stats_fd fd acc.2).1.1],
            (Log.rist_set_stats_fd fd acc.2).1.2))
        ([], st) fds.

Definition is_udp_write (e : Log.event) : bool :=
  match e with Log.UdpWrite _ _ _ => true | _ => false end.

End LogRun.



(** ** Runs of calls into tools/ristreceiver.c *)

Module ToolRun.

Definition is_sent (e : RistReceiver.event) : bool :=
  match e with RistReceiver.Sent _ _ _ => true | _ => false end.

Definition is_free (e : RistReceiver.event) : bool :=
  match e with RistReceiver.BlockFree => true | _ => false end.

(** Whether a call of [cb_recv] takes the sequence number of the RTP
    header from the counter of output [i], and so increments it. *)
Definition counter_used (profile : Z) (co : RistReceiver.rist_callback_object)
    (b : rist_data_block) (i : nat) : bool :=
  match RistReceiver.udp_config co !! i with
  | Some (Some cfg) =>
      RistReceiver.output_selected profile cfg b
      && bool_decide (default 0 (RistReceiver.mpeg co !! i) > 0)
      && bool_decide (RistReceiver.rtp cfg <> 0)
      && bool_decide (RistReceiver.rtp_sequence cfg = 0)
  | _ => false
  end.

(** The callback object after the library has called [cb_recv] for each
    block of a list in turn. *)
Definition recv_run (profile : Z) (net : Z -> list Z -> Z * Z)
    (co : RistReceiver.rist_callback_object) (bs : list rist_data_block)
  : RistReceiver.rist_callback_object :=
  foldl (fun co b => (RistReceiver.cb_recv profile net co b).1.2) co bs.

(** The distinct elements of a list, in the order in which they first
    occur. *)
Fixpoint first_seen (ids : list Z) : list Z :=
  match ids with
  | [] => []
  | x :: rest => x :: filter (fun y => y <> x) (first_seen rest)
  end.

Definition is_flow_report (c : RistReceiver.rist_stats) : bool :=
  match RistReceiver.stats_type c with
  | RistReceiver.RIST_STATS_RECEIVER_FLOW => true
  | _ => false
  end.

(** What the loop of [main] that opens the outputs makes of one token:
    whether it gets as far as opening a socket, the descriptor it
    leaves in [mpeg], and the configuration it leaves in [udp_config]. *)
Definition token_ok (tok : RistReceiver.output_token) : bool :=
  negb (RistReceiver.parse_failed tok) && negb (RistReceiver.url_rejected tok).

Definition slot_fd (tok : RistReceiver.output_token) : Z :=
  if token_ok tok then RistReceiver.opened tok else 0.

Definition slot_open (tok : RistReceiver.output_token) : bool :=
  token_ok tok && bool_decide (RistReceiver.opened tok > 0).

Definition slot_cfg (tok : RistReceiver.output_token)
  : option RistReceiver.rist_udp_config :=
  if slot_open tok then Some (RistReceiver.parsed tok) else None.

(** The library calls of the set-up part of [main], in the order of the
    code, and the test [main] applies to what each returns. *)
Definition main_calls (profile statsinterval : Z) : list RistReceiver.api_call :=
  [RistReceiver.ReceiverCreate profile; RistReceiver.AuthHandlerSet] ++
  (if bool_decide (profile <> RIST_PROFILE_SIMPLE)
   then [RistReceiver.OobCallbackSet] else []) ++
  [RistReceiver.StatsCallbackSet statsinterval].

Definition call_failed (ret : RistReceiver.api_call -> Z)
    (c : RistReceiver.api_call) : bool :=
  match c with
  | RistReceiver.ReceiverCreate _ | RistReceiver.AuthHandlerSet =>
      bool_decide (ret c <> 0)
  | RistReceiver.OobCallbackSet | RistReceiver.StatsCallbackSet _ =>
      bool_decide (ret c = -1)
  end.

(** A list up to and including its first element that satisfies [f]. *)
Fixpoint up_to_first {A : Type} (f : A -> bool) (l : list A) : list A :=
  match l with
  | [] => []
  | x :: rest => x :: (if f x then [] else up_to_first f rest)
  end.

(** [main] exits when no output socket could be opened; otherwise the
    callback object is the one the library calls [cb_recv] with. *)
Definition main_outputs (garbage : list Z) (tokens : list RistReceiver.output_token)
  : option RistReceiver.rist_callback_object :=
  if (RistReceiver.open_outputs garbage tokens).2
  then Some (RistReceiver.open_outputs garbage tokens).1
  else None.

(** The fields of the peer configuration that the overrides of [main]
    touch. The structure is declared by the library; [po_secret] is its
    character array [secret], of [RIST_MAX_STRING_SHORT] bytes, the
    other fields are at the types the code assigns them at ([int] and
    [uint32_t]). *)
Record peer_overrides : Set := PeerOverrides {
  po_secret              : list Z;
  po_key_size            : Z;
  po_recovery_length_min : Z;
  po_recovery_length_max : Z
}.

(** [strncpy(dst, src, n)] of the C library, [src] being the characters
    of the source string without the terminator: [n] bytes of [dst] are
    written, the string first and zeros after it. *)
Definition strncpy (dst src : list Z) (n : nat) : list Z :=
  take n (src ++ replicate n 0) ++ drop n dst.

(** The string a character array holds: the bytes before the first 0. *)
Fixpoint c_string (a : list Z) : list Z :=
  match a with
  | [] => []
  | c :: rest => if bool_decide (c = 0) then [] else c :: c_string rest
  end.

(** The block of [main] headed Process overrides, for one peer:
    [shared_secret] is the argument of [-s] ([None] when the option is
    absent), [encryption_type] that of [-e] and [buffer] that of [-b];
    [max_string_short] stands for [RIST_MAX_STRING_SHORT]. *)
Definition process_overrides (max_string_short : nat)
    (shared_secret : option (list Z)) (encryption_type buffer : Z)
    (cfg : peer_overrides) : peer_overrides :=
  let cfg1 :=
    match shared_secret with
    | Some shared =>
        if bool_decide (default 0 (po_secret cfg !! 0%nat) = 0) then
          {| po_secret := strncpy (po_secret cfg) shared (max_string_short - 1);
             po_key_size :=
               if bool_decide (encryption_type <> 0) then encryption_type
               else if bool_decide (po_key_size cfg = 0) then 128
                    else po_key_size cfg;
             po_recovery_length_min := po_recovery_length_min cfg;
             po_recovery_length_max := po_recovery_length_max cfg |}
        else cfg
    | None => cfg
    end in
  if bool_decide (buffer <> 0) then
    {| po_secret := po_secret cfg1;
       po_key_size := po_key_size cfg1;
       po_recovery_length_min := uint32_t buffer;
       po_recovery_length_max := uint32_t buffer |}
  else cfg1.

(** *** The command line of [main] *)

(** The variables the option loop of [main] sets; a [NULL] string is
    [None]. *)
Record settings : Set := Settings {
  inputurl           : option string;
  outputurl          : option string;
  oobtun             : option string;
  shared_secret      : option string;
  buffer             : Z;
  encryption_type    : Z;
  profile            : Z;
  statsinterval      : Z;
  loglevel           : Z;
  remote_log_address : option string;
  srpfile            : option string
}.

(** The values the variables have before the loop. *)
Definition default_settings : settings :=
  {| inputurl := None; outputurl := None; oobtun := None; shared_secret := None;
     buffer := 0; encryption_type := 0; profile := RIST_PROFILE_MAIN;
     statsinterval := 1000; loglevel := RIST_LOG_INFO;
     remote_log_address := None; srpfile := None |}.

(** One pass of the [switch]: [c] is the character [getopt_long]
    returns (as a one-character string) and [optarg] its argument. The
    result is the variables after the case, or the status [main] ends
    with. [use_mbedtls] says whether [USE_MBEDTLS] is defined, [atoi]
    is the C library function and [fopen_ok] tells whether [fopen]
    succeeds on a path. *)
Definition parse_option (use_mbedtls : bool) (atoi : string -> Z)
    (fopen_ok : string -> bool) (s : settings) (opt : string * string)
  : settings + Z :=
  let '(c, optarg) := opt in
  if bool_decide (c = "i") then
    inl {| inputurl := Some optarg; outputurl := outputurl s; oobtun := oobtun s;
           shared_secret := shared_secret s; buffer := buffer s;
           encryption_type := encryption_type s; profile := profile s;
           statsinterval := statsinterval s; loglevel := loglevel s;
           remote_log_address := remote_log_address s; srpfile := srpfile s |}
  else if bool_decide (c = "o") then
    inl {| inputurl := inputurl s; outputurl := Some optarg; oobtun := oobtun s;
           shared_secret := shared_secret s; buffer := buffer s;
           encryption_type := encryption_type s; profile := profile s;
           statsinterval := statsinterval s; loglevel := loglevel s;
           remote_log_address := remote_log_address s; srpfile := srpfile s |}
  else if bool_decide (c = "b") then
    inl {| inputurl := inputurl s; outputurl := outputurl s; oobtun := oobtun s;
           shared_secret := shared_secret s; buffer := atoi optarg;
           encryption_type := encryption_type s; profile := profile s;
           statsinterval := statsinterval s; loglevel := loglevel s;
           remote_log_address := remote_log_address s; srpfile := srpfile s |}
  else if bool_decide (c = "s") then
    inl {| inputurl := inputurl s; outputurl := outputurl s; oobtun := oobtun s;
           shared_secret := Some optarg; buffer := buffer s;
           encryption_type := encryption_type s; profile := profile s;
           statsinterval := statsinterval s; loglevel := loglevel s;
           remote_log_address := remote_log_address s; srpfile := srpfile s |}
  else if bool_decide (c = "e") then
    inl {| inputurl := inputurl s; outputurl := outputurl s; oobtun := oobtun s;
           shared_secret := shared_secret s; buffer := buffer s;
           encryption_type := atoi optarg; profile := profile s;
           statsinterval := statsinterval s; loglevel := loglevel s;
           remote_log_address := remote_log_address s; srpfile := srpfile s |}
  else if bool_decide (c = "t") then
    inl {| inputurl := inputurl s; outputurl := outputurl s; oobtun := Some optarg;
           shared_secret := shared_secret s; buffer := buffer s;
           encryption_type := encryption_type s; profile := profile s;
           statsinterval := statsinterval s; loglevel := loglevel s;
           remote_log_address := remote_log_address s; srpfile := srpfile s |}
  else if bool_decide (c = "p") then
    inl {| inputurl := inputurl s; outputurl := outputurl s; oobtun := oobtun s;
           shared_secret := shared_secret s; buffer := buffer s;
           encryption_type := encryption_type s; profile := atoi optarg;
           statsinterval := statsinterval s; loglevel := loglevel s;
           remote_log_address := remote_log_address s; srpfile := srpfile s |}
  else if bool_decide (c = "S") then
    inl {| inputurl := inputurl s; outputurl := outputurl s; oobtun := oobtun s;
           shared_secret := shared_secret s; buffer := buffer s;
           encryption_type := encryption_type s; profile := profile s;
           statsinterval := atoi optarg; loglevel := loglevel s;
           remote_log_address := remote_log_address s; srpfile := srpfile s |}
  else if bool_decide (c = "v") then
    inl {| inputurl := inputurl s; outputurl := outputurl s; oobtun := oobtun s;
           shared_secret := shared_secret s; buffer := buffer s;
           encryption_type := encryption_type s; profile := profile s;
           statsinterval := statsinterval s; loglevel := atoi optarg;
           remote_log_address := remote_log_address s; srpfile := srpfile s |}
  else if bool_decide (c = "r") then
    inl {| inputurl := inputurl s; outputurl := outputurl s; oobtun := oobtun s;
           shared_secret := shared_secret s; buffer := buffer s;
           encryption_type := encryption_type s; profile := profile s;
           statsinterval := statsinterval s; loglevel := loglevel s;
           remote_log_address := Some optarg; srpfile := srpfile s |}
  else if use_mbedtls && bool_decide (c = "F") then
    if fopen_ok optarg then
      inl {| inputurl := inputurl s; outputurl := outputurl s; oobtun := oobtun s;
             shared_secret := shared_secret s; buffer := buffer s;
             encryption_type := encryption_type s; profile := profile s;
             statsinterval := statsinterval s; loglevel := loglevel s;
             remote_log_address := remote_log_address s; srpfile := Some optarg |}
    else inr 1                      (* return 1 *)
  else if bool_decide (c = "u") then inr 1   (* the URL help, exit(1) *)
  else inr 1.                       (* 'h' and default: usage, exit(1) *)

(** The [while] loop over the options [getopt_long] yields,
    [while ((c = (char)getopt_long(...)) != -1)] with [c] an [int]. At
    the end of the options [getopt_long] returns -1, which the cast
    turns into the [char] -1 where plain [char] is signed, and into 255
    where it is unsigned. [char_signed] says which: in the first case
    the loop ends, in the second the test holds, the [switch] takes its
    [default] case and [usage] ends the program with status 1. *)
Fixpoint parse_options (char_signed : bool) (use_mbedtls : bool)
    (atoi : string -> Z) (fopen_ok : string -> bool) (s : settings)
    (opts : list (string * string)) : settings + Z :=
  match opts with
  | [] => if char_signed then inl s else inr 1
  | opt :: rest =>
      match parse_option use_mbedtls atoi fopen_ok s opt with
      | inl s' => parse_options char_signed use_mbedtls atoi fopen_ok s' rest
      | inr status => inr status
      end
  end.

(** The loop and the test that follows it: without both URLs [usage]
    ends the program with status 1. *)
Definition main_options (char_signed : bool) (use_mbedtls : bool)
    (atoi : string -> Z) (fopen_ok : string -> bool)
    (opts : list (string * string)) : settings + Z :=
  match parse_options char_signed use_mbedtls atoi fopen_ok default_settings opts with
  | inl s =>
      match inputurl s, outputurl s with
      | Some _, Some _ => inl s
      | _, _ => inr 1
      end
  | inr status => inr status
  end.

(** The argument of the last occurrence of option [c]. *)
Definition last_arg (c : string) (opts : list (string * string)) : option string :=
  last (map snd (filter (fun opt => opt.1 = c) opts)).

(** The options that set a variable. *)
Definition sets_variable (use_mbedtls : bool) (fopen_ok : string -> bool)
    (opt : string * string) : bool :=
  bool_decide (opt.1 ∈ ["i"; "o"; "b"; "s"; "e"; "t"; "p"; "S"; "v"; "r"])
  || (use_mbedtls && bool_decide (opt.1 = "F") && fopen_ok opt.2).

End ToolRun.





(** * Properties *)

(** ** src/log.c *)

Import Log.

Lemma win32_prologue_loglevel p st : loglevel (win32_prologue p st) = loglevel st.
Proof. destruct p; simpl; try reflexivity. case_bool_decide; reflexivity. Qed.

Lemma win32_prologue_socket p st : stats_socket (win32_prologue p st) = stats_socket st.
Proof. destruct p; simpl; try reflexivity. case_bool_decide; reflexivity. Qed.

Lemma win32_prologue_fd p st :
  stats_fd (win32_prologue p st) =
  match p with
  | Win32 => if bool_decide (stats_fd st = -1) then fileno_stderr else stats_fd st
  | _ => stats_fd st
  end.
Proof. destruct p; simpl; try reflexivity. case_bool_decide; reflexivity. Qed.

Lemma msg_state p tv s c level content st :
  (msg p tv s c level content st).1 = win32_prologue p st.
Proof. unfold msg. case_bool_decide; reflexivity. Qed.

Lemma msg_destinations p tv s c level content st :
  map destination_of (msg p tv s c level content st).2 =
  let st' := win32_prologue p st in
  if bool_decide (level > loglevel st') then []
  else ToFd (stats_fd st') ::
       (if bool_decide (stats_socket st' > 0) then [ToSocket (stats_socket st')] else []).
Proof.
  unfold msg. cbv zeta. case_bool_decide; [reflexivity|].
  simpl. case_bool_decide; reflexivity.
Qed.

(** C8, as stated, fails on a Windows build: the first message, although
    above the default level, replaces the unset descriptor. *)
Lemma filtered_msg_changes_fd_on_win32 : ~ Stated.filtered_msg_is_inert Win32.
Proof.
  intros H.
  specialize (H (Timeval 0 0) 0 0 RIST_LOG_DEBUG "" (initial Win32)).
  assert (Hgt : RIST_LOG_DEBUG > loglevel (initial Win32)) by (vm_compute; reflexivity).
  specialize (H Hgt). vm_compute in H. discriminate H.
Qed.

(** C8, amended: a call to [msg] with a level strictly above the current
    [loglevel] writes nothing, neither to the stats descriptor nor to the
    stats socket, and leaves [loglevel] and [stats_socket] as they are;
    [stats_fd] is left as it is too, except that a [_WIN32] build first
    replaces a [stats_fd] of -1 by the descriptor of stderr. The
    [loglevel] every build starts with is [RIST_LOG_WARN]. *)
Theorem msg_above_loglevel p tv server_ctx client_ctx level content st :
  level > loglevel st ->
  let r := msg p tv server_ctx client_ctx level content st in
  r.2 = [] /\
  loglevel r.1 = loglevel st /\
  stats_socket r.1 = stats_socket st /\
  stats_fd r.1 =
    match p with
    | Win32 => if bool_decide (stats_fd st = -1) then fileno_stderr else stats_fd st
    | _ => stats_fd st
    end /\
  match p with Win32 => True | _ => r.1 = st end /\
  loglevel (initial Unix) = RIST_LOG_WARN /\
  loglevel (initial Win32) = RIST_LOG_WARN /\
  loglevel (initial OtherOS) = RIST_LOG_WARN.
Proof.
  intros Hlevel r. subst r.
  rewrite msg_state, win32_prologue_loglevel, win32_prologue_socket, win32_prologue_fd.
  repeat split; try reflexivity.
  - unfold msg. rewrite win32_prologue_loglevel.
    rewrite bool_decide_eq_true_2 by assumption. reflexivity.
  - destruct p; simpl; auto.
Qed.

Lemma msg_above_loglevel_witness :
  RIST_LOG_DEBUG > loglevel (initial Win32) /\
  (msg Win32 (Timeval 1 5) 7 9 RIST_LOG_DEBUG "late packet" (initial Win32)).2 = [] /\
  stats_fd (msg Win32 (Timeval 1 5) 7 9 RIST_LOG_DEBUG "late packet" (initial Win32)).1
    = fileno_stderr.
Proof.
  assert (Hlevel : RIST_LOG_DEBUG > loglevel (initial Win32)) by (vm_compute; reflexivity).
  destruct (msg_above_loglevel Win32 (Timeval 1 5) 7 9 RIST_LOG_DEBUG "late packet"
              (initial Win32) Hlevel) as (Hquiet & _ & _ & Hfd & _).
  split; [exact Hlevel|]. split; [exact Hquiet|exact Hfd].
Defined.

(** [socket_calls], call by call. *)
Lemma socket_calls_acc calls : forall rets st evs,
  foldl (fun acc call =>
           let '(rets, st, evs) := acc in
           let '(r, st', ev) := rist_set_stats_socket call.1 call.2 st in
           (rets ++ [r], st', evs ++ ev))
        (rets, st, evs) calls =
  (rets ++ (socket_calls calls st).1.1, (socket_calls calls st).1.2,
   evs ++ (socket_calls calls st).2).
Proof.
  unfold socket_calls.
  induction calls as [|call calls IH]; intros rets st evs; simpl.
  - rewrite !app_nil_r. reflexivity.
  - destruct (rist_set_stats_socket call.1 call.2 st) as [[r st'] ev].
    rewrite (IH (rets ++ [r]) st' (evs ++ ev)).
    rewrite (IH [r] st' ev).
    cbn [fst snd]. rewrite <- !app_assoc. reflexivity.
Qed.

Lemma socket_calls_cons call calls st :
  socket_calls (call :: calls) st =
  let '(r, st', ev) := rist_set_stats_socket call.1 call.2 st in
  (r :: (socket_calls calls st').1.1, (socket_calls calls st').1.2,
   ev ++ (socket_calls calls st').2).
Proof.
  unfold socket_calls at 1. simpl.
  destruct (rist_set_stats_socket call.1 call.2 st) as [[r st'] ev].
  rewrite socket_calls_acc. reflexivity.
Qed.

Lemma socket_calls_returns calls : forall st,
  (socket_calls calls st).1.1 =
  map (fun call => if bool_decide (call.2 = 0) then -1 else 0) calls.
Proof.
  induction calls as [|call calls IH]; intros st; [reflexivity|].
  rewrite socket_calls_cons. simpl.
  unfold rist_set_stats_socket.
  repeat case_bool_decide; simpl; rewrite IH; reflexivity.
Qed.

Lemma socket_calls_port_zero calls : forall st,
  Forall (fun call => call.2 = 0) calls ->
  (socket_calls calls st).1.2 = st /\ filter is_connect (socket_calls calls st).2 = [].
Proof.
  induction calls as [|call calls IH]; intros st Hall; [split; reflexivity|].
  inversion Hall as [|? ? Hport Hrest]; subst.
  rewrite socket_calls_cons. unfold rist_set_stats_socket.
  rewrite bool_decide_eq_true_2 by assumption. simpl.
  destruct (IH st Hrest) as [Hst Hev]. split; assumption.
Qed.

Lemma socket_calls_existing calls : forall st,
  stats_socket st <> 0 ->
  stats_socket (socket_calls calls st).1.2 = stats_socket st /\
  filter is_connect (socket_calls calls st).2 = [].
Proof.
  induction calls as [|call calls IH]; intros st Hsock; [split; reflexivity|].
  rewrite socket_calls_cons. unfold rist_set_stats_socket.
  case_bool_decide; simpl.
  - destruct (IH st Hsock) as [Hst Hev]. split; assumption.
  - rewrite bool_decide_eq_false_2 by assumption. simpl.
    destruct (IH st Hsock) as [Hst Hev]. split; assumption.
Qed.

Lemma socket_calls_app calls1 calls2 st :
  socket_calls (calls1 ++ calls2) st =
  ((socket_calls calls1 st).1.1 ++ (socket_calls calls2 (socket_calls calls1 st).1.2).1.1,
   (socket_calls calls2 (socket_calls calls1 st).1.2).1.2,
   (socket_calls calls1 st).2 ++ (socket_calls calls2 (socket_calls calls1 st).1.2).2).
Proof.
  unfold socket_calls at 1. rewrite foldl_app.
  fold (socket_calls calls1 st).
  destruct (socket_calls calls1 st) as [[rets st'] evs].
  rewrite socket_calls_acc. reflexivity.
Qed.

(** C10, as stated, fails when [udp_Connect] hands out descriptor 0:
    the code takes a [stats_socket] of 0 for no socket, so the next call
    with a nonzero port connects a second time and puts its own
    descriptor in the place of the first. *)
Lemma stats_socket_zero_is_replaced : ~ Stated.stats_socket_created_once.
Proof.
  intros H.
  specialize (H (initial Unix) 0 9000 [(7, 9001)]).
  assert (Hport : 9000 <> 0) by lia.
  specialize (H Hport eq_refl). vm_compute in H.
  destruct H as [_ H]. discriminate H.
Qed.

(** C10, amended: [rist_set_stats_socket] returns -1 exactly when the
    port is 0 and 0 otherwise; in a run of calls that starts without a
    stats socket the first call with a nonzero port is the only one that
    connects, provided the descriptor [udp_Connect] returns to it is not
    0, and whatever calls follow, with whatever ports, the socket it
    created stays in place. [rist_set_stats_fd] always returns 0 and
    changes nothing when its argument is not greater than -1. *)
Theorem stats_setters_contract st before connected port later fd fd'
    st0 connected0 port0 :
  Forall (fun call => call.2 = 0) before ->
  port <> 0 ->
  stats_socket st = 0 ->
  connected <> 0 ->
  fd' <= -1 ->
  let calls := before ++ (connected, port) :: later in
  let r := socket_calls calls st in
  (rist_set_stats_socket connected0 port0 st0).1.1 =
    (if bool_decide (port0 = 0) then -1 else 0) /\
  r.1.1 = map (fun call => if bool_decide (call.2 = 0) then -1 else 0) calls /\
  stats_socket r.1.2 = connected /\
  filter is_connect r.2 = [UdpConnect "127.0.0.1" port] /\
  (rist_set_stats_fd fd st).1.1 = 0 /\
  rist_set_stats_fd fd' st = (0, st, []).
Proof.
  intros Hbefore Hport Hnone Hconn Hfd calls r. subst r calls.
  split.
  { unfold rist_set_stats_socket. repeat case_bool_decide; reflexivity. }
  split; [apply socket_calls_returns|].
  rewrite socket_calls_app.
  destruct (socket_calls_port_zero before st Hbefore) as [Hst Hev].
  rewrite Hst. cbn [fst snd].
  rewrite socket_calls_cons. cbn [fst snd].
  assert (Hfirst : rist_set_stats_socket connected port st =
                   (0, {| loglevel := loglevel st; stats_fd := stats_fd st;
                          stats_socket := connected |},
                    [UdpConnect "127.0.0.1" port;
                     Stderr ("Statistic socket created on port " +:+ pretty port +:+
                             " (#" +:+ pretty connected +:+ ")" +:+ newline)])).
  { unfold rist_set_stats_socket.
    rewrite bool_decide_eq_false_2 by assumption.
    rewrite bool_decide_eq_true_2 by assumption. reflexivity. }
  rewrite Hfirst. cbn [fst snd].
  set (st1 := {| loglevel := loglevel st; stats_fd := stats_fd st;
                 stats_socket := connected |}).
  destruct (socket_calls_existing later st1 Hconn) as [Hsock Hlater].
  repeat split.
  - exact Hsock.
  - rewrite filter_app, Hev.
    change ([UdpConnect "127.0.0.1" port;
             Stderr ("Statistic socket created on port " +:+ pretty port +:+
                     " (#" +:+ pretty connected +:+ ")" +:+ newline)]
            ++ (socket_calls later st1).2)
      with (UdpConnect "127.0.0.1" port ::
            Stderr ("Statistic socket created on port " +:+ pretty port +:+
                     " (#" +:+ pretty connected +:+ ")" +:+ newline) ::
            (socket_calls later st1).2).
    rewrite filter_cons_True by reflexivity.
    rewrite filter_cons_False by (simpl; auto).
    rewrite Hlater. reflexivity.
  - unfold rist_set_stats_fd. case_bool_decide; reflexivity.
  - unfold rist_set_stats_fd. rewrite bool_decide_eq_false_2 by lia. reflexivity.
Qed.

Lemma stats_setters_contract_witness :
  let r := socket_calls [(5, 0); (7, 9000); (8, 9001); (9, 0)] (initial Unix) in
  r.1.1 = [-1; 0; 0; -1] /\
  stats_socket r.1.2 = 7 /\
  filter is_connect r.2 = [UdpConnect "127.0.0.1" 9000] /\
  rist_set_stats_fd (-1) (initial Unix) = (0, initial Unix, []).
Proof.
  assert (Hbefore : Forall (fun call : Z * Z => call.2 = 0) [(5, 0)])
    by (repeat constructor).
  assert (Hport : 9000 <> 0) by lia.
  assert (Hnone : stats_socket (initial Unix) = 0) by reflexivity.
  assert (Hconn : 7 <> 0) by lia.
  assert (Hfd : -1 <= -1) by lia.
  destruct (stats_setters_contract (initial Unix) [(5, 0)] 7 9000 [(8, 9001); (9, 0)]
              4 (-1) (initial Unix) 7 0 Hbefore Hport Hnone Hconn Hfd)
    as (_ & Hret & Hsock & Hev & _ & Hunset).
  cbv zeta. repeat split; assumption.
Defined.

(** C1, as stated, fails: whoever lowers the log level silences the
    messages of every context. *)
Lemma loglevel_is_shared : ~ Stated.logging_is_per_context Unix.
Proof.
  intros H.
  specialize (H (SetLoglevel RIST_LOG_QUIET) (initial Unix) (Timeval 0 0) 2 0
                RIST_LOG_ERROR "").
  vm_compute in H. discriminate H.
Qed.

(** C1, amended: the logging configuration is one per process.
    [set_loglevel], [rist_set_stats_fd] and [rist_set_stats_socket] take
    no context and set the one [loglevel], [stats_fd] and [stats_socket]
    there is; [msg] filters on them and writes to them in the same way
    for every context, the context arguments showing up only in the text
    of the line: after [set_loglevel l] a message of any context is
    dropped exactly when its level is above [l], after
    [rist_set_stats_fd fd] with [fd > -1] the messages of every context
    go to [fd], and after [rist_set_stats_socket] has created a socket
    they go to that socket as well. *)
Theorem logging_is_process_wide p tv s1 c1 s2 c2 level content st l fd connected port :
  fd > -1 ->
  port <> 0 ->
  stats_socket st = 0 ->
  connected > 0 ->
  level <= loglevel st ->
  map destination_of (msg p tv s1 c1 level content st).2 =
    map destination_of (msg p tv s2 c2 level content st).2 /\
  (msg p tv s1 c1 level content st).1 = (msg p tv s2 c2 level content st).1 /\
  ((msg p tv s2 c2 level content (set_loglevel l st)).2 = [] <-> level > l) /\
  head (map destination_of
          (msg p tv s2 c2 level content (rist_set_stats_fd fd st).1.2).2)
    = Some (ToFd fd) /\
  last (map destination_of
          (msg p tv s2 c2 level content (rist_set_stats_socket connected port st).1.2).2)
    = Some (ToSocket connected).
Proof.
  intros Hfd Hport Hnone Hconn Hlevel.
  split; [rewrite !msg_destinations; reflexivity|].
  split; [rewrite !msg_state; reflexivity|].
  split; [|split].
  - unfold msg. rewrite win32_prologue_loglevel. cbn [loglevel set_loglevel].
    case_bool_decide as Hl; cbn [snd]; split; intros Hx.
    + exact Hl.
    + reflexivity.
    + discriminate Hx.
    + contradiction.
  - rewrite msg_destinations. cbv zeta.
    rewrite win32_prologue_loglevel.
    unfold rist_set_stats_fd. rewrite (bool_decide_eq_true_2 (fd > -1)) by assumption.
    cbn [fst snd loglevel].
    rewrite (bool_decide_eq_false_2 (level > loglevel st)) by lia.
    rewrite win32_prologue_fd. cbn [stats_fd].
    destruct p; try reflexivity.
    rewrite (bool_decide_eq_false_2 (fd = -1)) by lia. reflexivity.
  - rewrite msg_destinations. cbv zeta.
    rewrite win32_prologue_loglevel, win32_prologue_socket.
    unfold rist_set_stats_socket.
    rewrite (bool_decide_eq_false_2 (port = 0)) by assumption.
    rewrite (bool_decide_eq_true_2 (stats_socket st = 0)) by assumption.
    cbn [fst snd loglevel stats_socket].
    rewrite (bool_decide_eq_false_2 (level > loglevel st)) by lia.
    rewrite (bool_decide_eq_true_2 (connected > 0)) by assumption.
    reflexivity.
Qed.

Lemma logging_is_process_wide_witness :
  (msg Unix (Timeval 3 14) 1 0 RIST_LOG_ERROR "a" (set_loglevel RIST_LOG_QUIET (initial Unix))).2
    = [] <-> RIST_LOG_ERROR > RIST_LOG_QUIET.
Proof.
  assert (Hfd : 5 > -1) by lia.
  assert (Hport : 9000 <> 0) by lia.
  assert (Hnone : stats_socket (initial Unix) = 0) by reflexivity.
  assert (Hconn : 7 > 0) by lia.
  assert (Hlevel : RIST_LOG_ERROR <= loglevel (initial Unix)) by (vm_compute; discriminate).
  destruct (logging_is_process_wide Unix (Timeval 3 14) 2 0 1 0 RIST_LOG_ERROR "a"
              (initial Unix) RIST_LOG_QUIET 5 7 9000 Hfd Hport Hnone Hconn Hlevel)
    as (_ & _ & Hquiet & _).
  exact Hquiet.
Defined.

(** ** tools/ristreceiver.c: the RTP header *)

Import RistReceiver.

Lemma lor_shiftl_add a b n :
  0 <= n -> 0 <= b < 2 ^ n -> Z.lor (Z.shiftl a n) b = a * 2 ^ n + b.
Proof.
  intros Hn Hb.
  rewrite <- (Z.shiftl_mul_pow2 a n Hn).
  rewrite <- Z.add_lor_land.
  assert (Hland : Z.land (Z.shiftl a n) b = 0).
  { destruct (Z.eq_dec b 0) as [->|Hb0]; [apply Z.land_0_r|].
    apply Z.bits_inj'. intros k Hk.
    rewrite Z.land_spec, Z.bits_0.
    destruct (Z.lt_ge_cases k n) as [Hlow|Hhigh].
    - rewrite Z.shiftl_spec_low by assumption. reflexivity.
    - rewrite (Z.bits_above_log2 b k).
      + apply andb_false_r.
      + lia.
      + apply Z.log2_lt_pow2; [lia|].
        apply Z.lt_le_trans with (2 ^ n); [lia|].
        apply Z.pow_le_mono_r; lia. }
  rewrite Hland. lia.
Qed.

Lemma land_255 x : Z.land x 0xff = x mod 2 ^ 8.
Proof. change 0xff with (Z.ones 8). apply Z.land_ones. lia. Qed.

Lemma land_127 x : Z.land x 0x7f = x mod 2 ^ 7.
Proof. change 0x7f with (Z.ones 7). apply Z.land_ones. lia. Qed.

Lemma land_15 x : Z.land x 0xf = x mod 2 ^ 4.
Proof. change 0xf with (Z.ones 4). apply Z.land_ones. lia. Qed.

Lemma land_1 x : Z.land x 1 = x mod 2 ^ 1.
Proof. change 1 with (Z.ones 1) at 1. apply Z.land_ones. lia. Qed.

Lemma to_uint_range w x : 0 <= w -> is_uint w (to_uint w x).
Proof. intros Hw. unfold is_uint, to_uint. apply Z.mod_pos_bound. apply Z.pow_pos_nonneg; lia. Qed.

Lemma to_uint_id w x : is_uint w x -> to_uint w x = x.
Proof. unfold is_uint, to_uint. intros H. apply Z.mod_small. exact H. Qed.

(** The header [risttools_rtp_set_hdr] writes, field by field. *)
Lemma rtp_set_hdr_fields i_type i_seqnum i_timestamp i_ssrc :
  let hdr := risttools_rtp_set_hdr i_type i_seqnum i_timestamp i_ssrc in
  length hdr = 12%nat /\
  Forall (is_uint 8) hdr /\
  Rtp.version hdr = 2 /\
  Rtp.padding hdr = 0 /\
  Rtp.extension hdr = 0 /\
  Rtp.csrc_count hdr = 0 /\
  Rtp.marker hdr = 0 /\
  Rtp.payload_type hdr = uint8_t i_type mod 2 ^ 7 /\
  Rtp.sequence hdr = uint16_t i_seqnum /\
  Rtp.timestamp hdr = uint32_t i_timestamp /\
  Rtp.ssrc hdr = uint32_t i_ssrc.
Proof.
  cbv zeta. split; [reflexivity|].
  split.
  { unfold risttools_rtp_set_hdr. repeat constructor; apply (to_uint_range 8); lia. }
  unfold Rtp.version, Rtp.padding, Rtp.extension, Rtp.csrc_count, Rtp.marker,
    Rtp.payload_type, Rtp.sequence, Rtp.timestamp, Rtp.ssrc, Rtp.be16, Rtp.be32,
    Rtp.byte_at, risttools_rtp_set_hdr.
  cbn [lookup list_lookup default Nat.add].
  assert (Ht : is_uint 8 (to_uint 8 i_type)) by (apply to_uint_range; lia).
  assert (Hs : is_uint 16 (to_uint 16 i_seqnum)) by (apply to_uint_range; lia).
  assert (Hts : is_uint 32 (to_uint 32 i_timestamp)) by (apply to_uint_range; lia).
  assert (Hss : is_uint 32 (to_uint 32 i_ssrc)) by (apply to_uint_range; lia).
  fold (uint8_t i_type) in Ht. fold (uint16_t i_seqnum) in Hs.
  fold (uint32_t i_timestamp) in Hts. fold (uint32_t i_ssrc) in Hss.
  unfold is_uint in *.
  set (t := uint8_t i_type) in *. set (s := uint16_t i_seqnum) in *.
  set (ts := uint32_t i_timestamp) in *. set (ss := uint32_t i_ssrc) in *.
  rewrite !land_255, !land_127.
  rewrite !Z.shiftr_div_pow2 by lia.
  unfold id, uint8_t, to_uint.
  rewrite !land_15, !land_1.
  change (128 mod 2 ^ 8) with 128.
  assert (Hbyte : forall x, 0 <= x mod 2 ^ 8 < 2 ^ 8)
    by (intros x; apply Z.mod_pos_bound; lia).
  repeat split; try reflexivity; try (Z.div_mod_to_equations; lia).
  - rewrite lor_shiftl_add by (try lia; apply Hbyte).
    Z.div_mod_to_equations; lia.
  - rewrite (lor_shiftl_add _ _ 8) by (try lia; apply Hbyte).
    rewrite (lor_shiftl_add _ _ 16) by (Z.div_mod_to_equations; lia).
    rewrite (lor_shiftl_add _ _ 24) by (Z.div_mod_to_equations; lia).
    Z.div_mod_to_equations; lia.
  - rewrite (lor_shiftl_add _ _ 8) by (try lia; apply Hbyte).
    rewrite (lor_shiftl_add _ _ 16) by (Z.div_mod_to_equations; lia).
    rewrite (lor_shiftl_add _ _ 24) by (Z.div_mod_to_equations; lia).
    Z.div_mod_to_equations; lia.
Qed.

(** ** tools/ristreceiver.c: the loop of [cb_recv] *)

Lemma rtp_seqnum_frame cfg b i co :
  mpeg (rtp_seqnum cfg b i co).2 = mpeg co /\
  udp_config (rtp_seqnum cfg b i co).2 = udp_config co /\
  forall j, j <> i -> i_seqnum (rtp_seqnum cfg b i co).2 !! j = i_seqnum co !! j.
Proof.
  unfold rtp_seqnum. case_bool_decide; cbn [snd mpeg udp_config i_seqnum].
  - auto.
  - repeat split. intros j Hj. apply list_lookup_insert_ne. congruence.
Qed.

Lemma rtp_seqnum_value cfg b i co co' :
  i_seqnum co' !! i = i_seqnum co !! i ->
  (rtp_seqnum cfg b i co').1 = (rtp_seqnum cfg b i co).1.
Proof.
  intros H. unfold rtp_seqnum. case_bool_decide; cbn [fst]; [reflexivity|].
  rewrite H. reflexivity.
Qed.

(** One iteration appends the events of its output and touches nothing
    but the sequence counter of that output. *)
Lemma cb_recv_body_events profile net b co st i :
  mpeg (rl_object st) = mpeg co ->
  udp_config (rl_object st) = udp_config co ->
  i_seqnum (rl_object st) !! i = i_seqnum co !! i ->
  rl_events (cb_recv_body profile net b st i) =
    rl_events st ++ output_events profile net co b i /\
  mpeg (rl_object (cb_recv_body profile net b st i)) = mpeg co /\
  udp_config (rl_object (cb_recv_body profile net b st i)) = udp_config co /\
  forall j, j <> i ->
    i_seqnum (rl_object (cb_recv_body profile net b st i)) !! j =
    i_seqnum (rl_object st) !! j.
Proof.
  intros Hmpeg Hcfg Hseq.
  unfold cb_recv_body, output_events. rewrite Hmpeg, Hcfg.
  destruct (udp_config co !! i) as [[cfg|]|];
    try (rewrite app_nil_r; auto).
  destruct (output_selected profile cfg b); cbn [andb];
    try (rewrite app_nil_r; auto).
  case_bool_decide as Hfd; try (rewrite app_nil_r; auto).
  unfold output_buffer.
  case_bool_decide as Hrtp.
  - destruct (rtp_seqnum_frame cfg b i (rl_object st)) as (Hm & Hc & Hs).
    pose proof (rtp_seqnum_value cfg b i co (rl_object st) Hseq) as Hval.
    destruct (rtp_seqnum cfg b i (rl_object st)) as [seqnum co'].
    cbn [fst snd] in *. rewrite <- Hval.
    destruct (net _ _) as [ret errno]. cbn [fst snd rl_events rl_object].
    repeat split; try congruence. exact Hs.
  - destruct (net _ _) as [ret errno]. cbn [fst snd rl_events rl_object].
    repeat split; auto.
Qed.

(** The loop over any list of distinct outputs. *)
Lemma cb_recv_loop_events profile net b co l : forall st,
  NoDup l ->
  mpeg (rl_object st) = mpeg co ->
  udp_config (rl_object st) = udp_config co ->
  (forall i, In i l -> i_seqnum (rl_object st) !! i = i_seqnum co !! i) ->
  rl_events (foldl (cb_recv_body profile net b) st l) =
    rl_events st ++ flat_map (output_events profile net co b) l.
Proof.
  induction l as [|i l IH]; intros st Hnodup Hmpeg Hcfg Hseq.
  - simpl. rewrite app_nil_r. reflexivity.
  - apply NoDup_cons in Hnodup as [Hnotin Hnodup].
    destruct (cb_recv_body_events profile net b co st i Hmpeg Hcfg)
      as (Hev & Hm & Hc & Hs).
    { apply Hseq. left. reflexivity. }
    cbn [foldl flat_map]. rewrite IH; try assumption.
    + rewrite Hev, <- app_assoc. reflexivity.
    + intros j Hj. rewrite Hs.
      * apply Hseq. right. exact Hj.
      * intros ->. apply Hnotin. apply list_elem_of_In. exact Hj.
Qed.

(** What a call of [cb_recv] sends is what each output sends, output by
    output, as read off the callback object the call starts with. *)
Lemma cb_recv_sends profile net co b i fd buf :
  In (Sent i fd buf) (cb_recv profile net co b).2 <->
  In (Sent i fd buf)
     (flat_map (output_events profile net co b) (List.seq 0 MAX_OUTPUT_COUNT)).
Proof.
  unfold cb_recv.
  pose proof (cb_recv_loop_events profile net b co (List.seq 0 MAX_OUTPUT_COUNT)
                {| rl_object := co; rl_events := []; rl_found := 0 |}) as Hloop.
  cbn [rl_object rl_events] in Hloop.
  rewrite app_nil_l in Hloop.
  specialize (Hloop (proj2 (NoDup_ListNoDup _) (List.seq_NoDup _ _))
                eq_refl eq_refl (fun _ _ => eq_refl)).
  case_bool_decide; cbn [snd]; rewrite Hloop, in_app_iff; split; intros Hin; auto;
    destruct Hin as [Hin|[Hin|[]]]; auto; discriminate Hin.
Qed.

Lemma output_events_sent profile net co b j i fd buf :
  In (Sent i fd buf) (output_events profile net co b j) ->
  j = i /\
  exists cfg, udp_config co !! i = Some (Some cfg) /\
              output_selected profile cfg b = true /\
              fd = default 0 (mpeg co !! i) /\ fd > 0 /\
              buf = output_buffer co b i cfg.
Proof.
  unfold output_events.
  destruct (udp_config co !! j) as [[cfg|]|] eqn:Hcfg; try solve [intros []].
  destruct (output_selected profile cfg b) eqn:Hsel; cbn [andb]; try solve [intros []].
  case_bool_decide as Hfd; try solve [intros []].
  intros [Hin|Hin].
  - inversion Hin; subst. split; [reflexivity|].
    exists cfg. repeat split; auto.
  - destruct (_ && _); [destruct Hin as [Hin|[]]; discriminate Hin|destruct Hin].
Qed.

Lemma to_uint_idemp w x : 0 <= w -> to_uint w (to_uint w x) = to_uint w x.
Proof. intros Hw. apply to_uint_id, to_uint_range, Hw. Qed.

Lemma rtp_payload_type_range cfg : is_uint 8 (rtp_payload_type cfg).
Proof.
  unfold rtp_payload_type. case_bool_decide.
  - apply (to_uint_range 8). lia.
  - unfold is_uint. lia.
Qed.

(** C3: whenever [cb_recv] forwards a block on an output configured for
    RTP, the buffer it sends is a 12-byte header followed by the payload
    of the block; the header has version 2, no padding, no extension, no
    CSRC, a payload type of 7 bits (that of the output) and, each in
    network byte order, the 16-bit sequence number (the low 16 bits of
    the sequence of the block, or the counter of the output), the 32-bit
    timestamp derived from the NTP time of the block, and the flow id of
    the block as SSRC. *)
Theorem rtp_header_of_forwarded_block profile net co b i fd buf cfg :
  is_uint 32 (flow_id b) ->
  udp_config co !! i = Some (Some cfg) ->
  rtp cfg <> 0 ->
  In (Sent i fd buf) (cb_recv profile net co b).2 ->
  let hdr := take 12 buf in
  buf = hdr ++ block_bytes b /\
  length hdr = 12%nat /\
  Forall (is_uint 8) hdr /\
  Rtp.version hdr = 2 /\
  Rtp.padding hdr = 0 /\
  Rtp.extension hdr = 0 /\
  Rtp.csrc_count hdr = 0 /\
  Rtp.marker hdr = 0 /\
  0 <= Rtp.payload_type hdr < 2 ^ 7 /\
  Rtp.payload_type hdr = rtp_payload_type cfg mod 2 ^ 7 /\
  is_uint 16 (Rtp.sequence hdr) /\
  Rtp.sequence hdr =
    uint16_t (if bool_decide (rtp_sequence cfg <> 0) then seq b
              else default 0 (i_seqnum co !! i)) /\
  is_uint 32 (Rtp.timestamp hdr) /\
  Rtp.timestamp hdr = risttools_convertNTPtoRTP (ts_ntp b) /\
  Rtp.ssrc hdr = flow_id b.
Proof.
  intros Hflow Hcfg Hrtp Hin hdr.
  pose proof (proj1 (cb_recv_sends profile net co b i fd buf) Hin) as Hflat.
  clear Hin.
  destruct (proj1 (in_flat_map _ _ _) Hflat) as (j & _ & Hin).
  clear Hflat.
  apply output_events_sent in Hin.
  destruct Hin as (-> & cfg' & Hcfg' & _ & _ & _ & Hbuf).
  assert (cfg' = cfg) by congruence. subst cfg'.
  unfold output_buffer in Hbuf.
  rewrite bool_decide_eq_true_2 in Hbuf by assumption.
  set (h := risttools_rtp_set_hdr (rtp_payload_type cfg) (rtp_seqnum cfg b i co).1
              (risttools_convertNTPtoRTP (ts_ntp b)) (flow_id b)) in *.
  destruct (rtp_set_hdr_fields (rtp_payload_type cfg) (rtp_seqnum cfg b i co).1
              (risttools_convertNTPtoRTP (ts_ntp b)) (flow_id b))
    as (Hlen & Hbytes & Hv & Hp & Hx & Hcc & Hm & Hpt & Hseq & Hts & Hssrc).
  fold h in Hlen, Hbytes, Hv, Hp, Hx, Hcc, Hm, Hpt, Hseq, Hts, Hssrc.
  assert (Hhdr : hdr = h).
  { subst hdr buf. rewrite take_app_length'; [reflexivity|exact Hlen]. }
  assert (Hpt' : Rtp.payload_type h = rtp_payload_type cfg mod 2 ^ 7).
  { rewrite Hpt. unfold uint8_t.
    rewrite (to_uint_id 8 _ (rtp_payload_type_range cfg)). reflexivity. }
  assert (Hseq' : Rtp.sequence h =
                  uint16_t (if bool_decide (rtp_sequence cfg <> 0) then seq b
                            else default 0 (i_seqnum co !! i))).
  { rewrite Hseq. unfold rtp_seqnum.
    case_bool_decide; cbn [fst]; [|reflexivity].
    unfold uint16_t. apply to_uint_idemp. lia. }
  assert (Hts' : Rtp.timestamp h = risttools_convertNTPtoRTP (ts_ntp b)).
  { rewrite Hts. unfold risttools_convertNTPtoRTP, uint32_t.
    apply to_uint_idemp. lia. }
  assert (Hssrc' : Rtp.ssrc h = flow_id b).
  { rewrite Hssrc. apply (to_uint_id 32). exact Hflow. }
  clearbody h hdr. subst hdr.
  split; [exact Hbuf|]. split; [exact Hlen|]. split; [exact Hbytes|].
  split; [exact Hv|]. split; [exact Hp|]. split; [exact Hx|].
  split; [exact Hcc|]. split; [exact Hm|].
  split; [rewrite Hpt'; apply Z.mod_pos_bound; lia|].
  split; [exact Hpt'|].
  split; [rewrite Hseq'; apply (to_uint_range 16); lia|].
  split; [exact Hseq'|].
  split; [rewrite Hts'; unfold risttools_convertNTPtoRTP;
          apply (to_uint_range 32); lia|].
  split; [exact Hts'|exact Hssrc'].
Qed.

Lemma rtp_header_of_forwarded_block_witness :
  let buf := [128; 33; 0; 41; 0; 1; 95; 144; 17; 34; 51; 68; 71; 1; 2] in
  In (Sent 0 5 buf) (cb_recv RIST_PROFILE_MAIN Sample.net Sample.outputs Sample.block).2 /\
  Rtp.version (take 12 buf) = 2 /\
  Rtp.sequence (take 12 buf) = uint16_t 41 /\
  Rtp.ssrc (take 12 buf) = 0x11223344.
Proof.
  intros buf.
  assert (Hflow : is_uint 32 (flow_id Sample.block)) by (vm_compute; split; congruence).
  assert (Hcfg : udp_config Sample.outputs !! 0%nat = Some (Some (UdpConfig 0 1 0 0)))
    by reflexivity.
  assert (Hrtp : rtp (UdpConfig 0 1 0 0) <> 0) by (simpl; lia).
  assert (Hin : In (Sent 0 5 buf)
                   (cb_recv RIST_PROFILE_MAIN Sample.net Sample.outputs Sample.block).2)
    by (vm_compute; left; reflexivity).
  destruct (rtp_header_of_forwarded_block RIST_PROFILE_MAIN Sample.net Sample.outputs
              Sample.block 0 5 buf (UdpConfig 0 1 0 0) Hflow Hcfg Hrtp Hin)
    as (_ & _ & _ & Hv & _ & _ & _ & _ & _ & _ & _ & Hseq & _ & _ & Hssrc).
  split; [exact Hin|]. split; [exact Hv|]. split; [exact Hseq|exact Hssrc].
Defined.

(** ** tools/ristreceiver.c: the simple profile *)

Lemma open_output_consistent st it :
  outputs_consistent st.1 -> outputs_consistent (open_output st it).1.
Proof.
  destruct st as [co opened_any], it as [i tok].
  intros (Hlm & Hlc & Hopen). cbn [fst] in Hlm, Hlc, Hopen. unfold open_output.
  destruct (parse_failed tok); [repeat split; assumption|].
  destruct (url_rejected tok); [repeat split; assumption|].
  unfold outputs_consistent.
  case_bool_decide as Hfd; cbn [fst mpeg udp_config].
  - split; [rewrite length_insert; exact Hlm|]. split; [exact Hlc|].
    intros j fd Hj Hpos.
    destruct (decide (i = j)) as [->|Hne].
    + rewrite list_lookup_insert_eq in Hj
        by (apply lookup_lt_Some in Hj; rewrite length_insert in Hj; exact Hj).
      injection Hj as Heq. lia.
    + rewrite list_lookup_insert_ne in Hj by exact Hne. eauto.
  - split; [rewrite length_insert; exact Hlm|].
    split; [rewrite length_insert; exact Hlc|].
    intros j fd Hj Hpos.
    destruct (decide (i = j)) as [->|Hne].
    + exists (parsed tok). apply list_lookup_insert_eq.
      apply lookup_lt_Some in Hj. rewrite length_insert in Hj. lia.
    + rewrite list_lookup_insert_ne in Hj by exact Hne.
      rewrite list_lookup_insert_ne by exact Hne. eauto.
Qed.

Lemma open_outputs_consistent garbage tokens :
  outputs_consistent (open_outputs garbage tokens).1.
Proof.
  unfold open_outputs.
  generalize (imap (fun i tok => (i, tok)) (take MAX_OUTPUT_COUNT tokens)).
  intros l.
  assert (Hinit : outputs_consistent
                    ({| mpeg := replicate MAX_OUTPUT_COUNT 0;
                        udp_config := replicate MAX_OUTPUT_COUNT None;
                        i_seqnum := garbage |}, false).1).
  { cbn [fst]. split; [reflexivity|]. split; [reflexivity|].
    intros i fd Hi Hpos. cbn [mpeg] in Hi.
    apply lookup_replicate in Hi. lia. }
  revert Hinit. generalize ({| mpeg := replicate MAX_OUTPUT_COUNT 0;
                               udp_config := replicate MAX_OUTPUT_COUNT None;
                               i_seqnum := garbage |}, false).
  induction l as [|it l IH]; intros st Hst; [exact Hst|].
  cbn [foldl]. apply IH. apply open_output_consistent. exact Hst.
Qed.

(** An output that is selected and open is sent to. *)
Lemma selected_output_is_sent_to profile net co b i fd cfg :
  (i < MAX_OUTPUT_COUNT)%nat ->
  udp_config co !! i = Some (Some cfg) ->
  output_selected profile cfg b = true ->
  mpeg co !! i = Some fd ->
  fd > 0 ->
  In (Sent i fd (output_buffer co b i cfg)) (cb_recv profile net co b).2.
Proof.
  intros Hi Hcfg Hsel Hfd Hpos.
  apply (proj2 (cb_recv_sends profile net co b i fd _)).
  apply (proj2 (in_flat_map _ _ _)).
  exists i. split.
  - apply in_seq. lia.
  - unfold output_events. rewrite Hcfg, Hfd, Hsel. cbn [default andb from_option id].
    rewrite bool_decide_eq_true_2 by exact Hpos. left. reflexivity.
Qed.

(** C4: with the simple profile every data block, whatever its virtual
    destination port, is sent to every output socket that [main] has
    opened, and [main] does not register the out-of-band callback. *)
Theorem simple_profile_forwards_to_all garbage tokens net b i fd statsinterval ret :
  let co := (open_outputs garbage tokens).1 in
  mpeg co !! i = Some fd ->
  fd > 0 ->
  (exists cfg, udp_config co !! i = Some (Some cfg) /\
               In (Sent i fd (output_buffer co b i cfg))
                  (cb_recv RIST_PROFILE_SIMPLE net co b).2) /\
  ~ In OobCallbackSet (main_setup RIST_PROFILE_SIMPLE statsinterval ret).1.
Proof.
  intros co Hfd Hpos. split.
  - destruct (open_outputs_consistent garbage tokens) as (Hlm & _ & Hopen).
    fold co in Hlm, Hopen.
    destruct (Hopen i fd Hfd Hpos) as [cfg Hcfg].
    exists cfg. split; [exact Hcfg|].
    apply selected_output_is_sent_to; try assumption.
    + apply lookup_lt_Some in Hfd. rewrite Hlm in Hfd. exact Hfd.
    + unfold output_selected. rewrite bool_decide_eq_true_2 by reflexivity.
      reflexivity.
  - unfold main_setup.
    rewrite (bool_decide_eq_false_2 (RIST_PROFILE_SIMPLE <> RIST_PROFILE_SIMPLE))
      by (intros H; apply H; reflexivity).
    repeat case_bool_decide; cbn [fst app In];
      intros Hin; repeat (destruct Hin as [Hin|Hin]; try discriminate Hin);
      exact Hin.
Qed.

Lemma simple_profile_forwards_to_all_witness :
  let co := (open_outputs [41; 0; 0; 0; 0; 0; 0; 0; 0; 0] Sample.tokens).1 in
  mpeg co !! 1%nat = Some 6 /\
  In (Sent 1 6 [71; 1; 2]) (cb_recv RIST_PROFILE_SIMPLE Sample.net co Sample.block).2.
Proof.
  intros co.
  assert (Hfd : mpeg co !! 1%nat = Some 6) by reflexivity.
  assert (Hpos : 6 > 0) by lia.
  destruct (simple_profile_forwards_to_all [41; 0; 0; 0; 0; 0; 0; 0; 0; 0]
              Sample.tokens Sample.net Sample.block 1 6 1000 (fun _ => 0) Hfd Hpos)
    as [(cfg & Hcfg & Hin) _].
  split; [exact Hfd|].
  assert (Hc : cfg = UdpConfig 1971 0 0 0).
  { assert (H : udp_config co !! 1%nat = Some (Some (UdpConfig 1971 0 0 0)))
      by reflexivity.
    fold co in Hcfg. congruence. }
  subst cfg. exact Hin.
Defined.

(** ** tools/ristreceiver.c: the cumulative statistics *)

Lemma stats_after_snoc cs c :
  stats_after (cs ++ [c]) = (cb_stats c (stats_after cs)).1.2.
Proof. unfold stats_after. rewrite foldl_app. reflexivity. Qed.

Lemma cb_stats_list c l :
  (cb_stats c l).1.2 =
  match stats_type c with
  | RIST_STATS_RECEIVER_FLOW => (stats_update c l).1
  | _ => l
  end.
Proof.
  unfold cb_stats. destruct (stats_type c); [reflexivity|].
  destruct (stats_update c l). reflexivity.
Qed.

Lemma stats_add_flow_id c n : cs_flow_id (stats_add c n) = cs_flow_id n.
Proof. reflexivity. Qed.

(** The walk adds no flow id but that of the report. *)
Lemma stats_update_ids c l x :
  In x (map cs_flow_id (stats_update c l).1) ->
  In x (map cs_flow_id l) \/ x = rf_flow_id c.
Proof.
  induction l as [|n l IH]; cbn [stats_update].
  - cbn. intros [<-|[]]. right. reflexivity.
  - case_bool_decide as Hne.
    + destruct (stats_update c l) as [l' updated]. cbn [fst map In] in *.
      intros [Hx|Hx]; [left; left; exact Hx|].
      destruct (IH Hx) as [H|H]; [left; right; exact H|right; exact H].
    + cbn [fst map In]. rewrite stats_add_flow_id.
      intros H. left. exact H.
Qed.

Lemma stats_update_NoDup c l :
  List.NoDup (map cs_flow_id l) -> List.NoDup (map cs_flow_id (stats_update c l).1).
Proof.
  induction l as [|n l IH]; cbn [stats_update]; intros Hnd.
  - cbn. constructor; [intros []|constructor].
  - inversion Hnd as [|? ? Hnotin Hnd']; subst.
    case_bool_decide as Hne.
    + pose proof (stats_update_ids c l (cs_flow_id n)) as Hids.
      specialize (IH Hnd').
      destruct (stats_update c l) as [l' updated]. cbn [fst map] in *.
      constructor; [|exact IH].
      intros Hin. destruct (Hids Hin) as [H|H]; [exact (Hnotin H)|exact (Hne H)].
    + cbn [fst map]. rewrite stats_add_flow_id. constructor; assumption.
Qed.

(** After the walk the node of the reported flow holds what it held
    before, or zero, plus the interval; the other nodes are as before. *)
Lemma stats_update_lookup c l f :
  lookup_flow f (stats_update c l).1 =
  if bool_decide (f = rf_flow_id c) then
    Some (stats_add c (default {| cs_flow_id := f; cs_received := 0;
                                  cs_recovered := 0; cs_lost := 0 |}
                               (lookup_flow f l)))
  else lookup_flow f l.
Proof.
  induction l as [|n l IH]; cbn [stats_update lookup_flow].
  - cbn [fst lookup_flow]. rewrite stats_add_flow_id. cbn [cs_flow_id default from_option id].
    destruct (bool_decide_reflect (f = rf_flow_id c)) as [Hf|Hf].
    + subst f. rewrite bool_decide_eq_true_2 by reflexivity. reflexivity.
    + rewrite bool_decide_eq_false_2 by congruence. reflexivity.
  - destruct (bool_decide_reflect (cs_flow_id n <> rf_flow_id c)) as [Hne|Hn].
    + destruct (stats_update c l) as [l' updated]. cbn [fst lookup_flow] in *.
      destruct (bool_decide_reflect (cs_flow_id n = f)) as [Hn|Hn].
      * subst f. rewrite (bool_decide_eq_false_2 _ Hne). reflexivity.
      * exact IH.
    + cbn [fst lookup_flow]. rewrite stats_add_flow_id.
      apply dec_stable in Hn.
      destruct (bool_decide_reflect (f = rf_flow_id c)) as [Hf|Hf].
      * subst f. rewrite (bool_decide_eq_true_2 _ Hn). reflexivity.
      * rewrite bool_decide_eq_false_2 by congruence. reflexivity.
Qed.

Lemma total_snoc field cs c : total field (cs ++ [c]) = total field cs + field c.
Proof.
  unfold total. induction cs as [|c' cs IH]; cbn [app foldr]; [lia|].
  rewrite IH. lia.
Qed.

Lemma uint64_add_l a b : uint64_t (uint64_t a + b) = uint64_t (a + b).
Proof. unfold uint64_t, to_uint. apply Zplus_mod_idemp_l. Qed.

Lemma stats_after_NoDup cs : List.NoDup (map cs_flow_id (stats_after cs)).
Proof.
  induction cs as [|c cs IH] using rev_ind; [constructor|].
  rewrite stats_after_snoc, cb_stats_list.
  destruct (stats_type c); [exact IH|].
  apply stats_update_NoDup. exact IH.
Qed.

(** The node of a flow after a run of callbacks. *)
Lemma stats_after_lookup cs f :
  lookup_flow f (stats_after cs) =
  match filter (reports_flow f) cs with
  | [] => None
  | reports =>
      Some {| cs_flow_id := f;
              cs_received := uint64_t (total rf_received reports);
              cs_recovered := uint64_t (total rf_recovered reports);
              cs_lost := uint64_t (total rf_lost reports) |}
  end.
Proof.
  induction cs as [|c cs IH] using rev_ind; [reflexivity|].
  rewrite stats_after_snoc, cb_stats_list, filter_app.
  unfold reports_flow at 2.
  destruct (stats_type c) eqn:Htype.
  - rewrite filter_cons_False by (unfold reports_flow; rewrite Htype; auto).
    rewrite filter_nil, app_nil_r. exact IH.
  - rewrite stats_update_lookup.
    case_bool_decide as Hf.
    + rewrite filter_cons_True
        by (unfold reports_flow; rewrite Htype; apply bool_decide_pack; congruence).
      rewrite filter_nil, IH.
      destruct (filter (reports_flow f) cs) as [|r reports].
      * cbn [app default from_option id]. unfold stats_add, total.
        cbn [cs_flow_id cs_received cs_recovered cs_lost foldr].
        rewrite !Z.add_0_r, !Z.add_0_l. reflexivity.
      * change ((r :: reports) ++ [c]) with (r :: (reports ++ [c])).
        cbn [default from_option id]. unfold stats_add.
        cbn [cs_flow_id cs_received cs_recovered cs_lost].
        rewrite !uint64_add_l.
        change (r :: (reports ++ [c])) with ((r :: reports) ++ [c]).
        rewrite !total_snoc. reflexivity.
    + rewrite filter_cons_False
        by (unfold reports_flow; rewrite Htype; intros H;
            apply bool_decide_unpack in H; congruence).
      rewrite filter_nil, app_nil_r. exact IH.
Qed.

(** With one node per flow id, the nodes of a flow are the one found. *)
Lemma filter_flow_lookup l f :
  List.NoDup (map cs_flow_id l) ->
  filter (fun n => cs_flow_id n = f) l = option_list (lookup_flow f l).
Proof.
  induction l as [|n l IH]; intros Hnd; [reflexivity|].
  inversion Hnd as [|? ? Hnotin Hnd']; subst.
  cbn [lookup_flow]. case_bool_decide as Hn.
  - rewrite filter_cons_True by exact Hn. cbn [option_list]. f_equal.
    rewrite IH by exact Hnd'.
    destruct (lookup_flow f l) as [m|] eqn:Hm; [|reflexivity].
    exfalso. apply Hnotin. rewrite Hn.
    clear -Hm. induction l as [|n' l IHl]; [discriminate Hm|].
    cbn [lookup_flow] in Hm. case_bool_decide as Hn'.
    + left. exact Hn'.
    + right. apply IHl. exact Hm.
  - rewrite filter_cons_False by exact Hn. apply IH. exact Hnd'.
Qed.

(** C9: after any run of statistics callbacks the cumulative list has at
    most one node per flow id, and the node of a flow, present exactly
    when the flow was reported, holds in each counter the sum of the
    interval values of all receiver-flow reports for that flow;
    callbacks of another type and reports for other flows leave it
    alone. The counters are [uint64_t]: the sums are taken modulo
    [2 ^ 64], and are the plain sums whenever these fit in 64 bits. *)
Theorem cumulative_stats_are_sums (cs : list rist_stats) (f : Z) :
  let reports := filter (reports_flow f) cs in
  List.NoDup (map cs_flow_id (stats_after cs)) /\
  filter (fun n => cs_flow_id n = f) (stats_after cs) =
    match reports with
    | [] => []
    | _ =>
        [ {| cs_flow_id := f;
             cs_received := uint64_t (total rf_received reports);
             cs_recovered := uint64_t (total rf_recovered reports);
             cs_lost := uint64_t (total rf_lost reports) |} ]
    end /\
  (is_uint 64 (total rf_received reports) ->
   is_uint 64 (total rf_recovered reports) ->
   is_uint 64 (total rf_lost reports) ->
   filter (fun n => cs_flow_id n = f) (stats_after cs) =
     match reports with
     | [] => []
     | _ =>
         [ {| cs_flow_id := f;
              cs_received := total rf_received reports;
              cs_recovered := total rf_recovered reports;
              cs_lost := total rf_lost reports |} ]
     end).
Proof.
  intros reports.
  assert (Hmod : filter (fun n => cs_flow_id n = f) (stats_after cs) =
                 match reports with
                 | [] => []
                 | _ =>
                     [ {| cs_flow_id := f;
                          cs_received := uint64_t (total rf_received reports);
                          cs_recovered := uint64_t (total rf_recovered reports);
                          cs_lost := uint64_t (total rf_lost reports) |} ]
                 end).
  { rewrite filter_flow_lookup by apply stats_after_NoDup.
    rewrite stats_after_lookup. fold reports.
    destruct reports; reflexivity. }
  split; [apply stats_after_NoDup|]. split; [exact Hmod|].
  intros Hreceived Hrecovered Hlost. rewrite Hmod.
  unfold uint64_t.
  rewrite (to_uint_id 64 _ Hreceived), (to_uint_id 64 _ Hrecovered),
    (to_uint_id 64 _ Hlost).
  reflexivity.
Qed.

Lemma cumulative_stats_are_sums_witness :
  filter (fun n => cs_flow_id n = 7)
    (stats_after
       [ Stats "{}" RIST_STATS_RECEIVER_FLOW 7 10 1 2;
         Stats "{}" RIST_STATS_SENDER_PEER 0 99 99 99;
         Stats "{}" RIST_STATS_RECEIVER_FLOW 9 5 0 0;
         Stats "{}" RIST_STATS_RECEIVER_FLOW 7 20 3 4 ])
  = [ CumulativeStats 7 30 4 6 ].
Proof.
  destruct (cumulative_stats_are_sums
              [ Stats "{}" RIST_STATS_RECEIVER_FLOW 7 10 1 2;
                Stats "{}" RIST_STATS_SENDER_PEER 0 99 99 99;
                Stats "{}" RIST_STATS_RECEIVER_FLOW 9 5 0 0;
                Stats "{}" RIST_STATS_RECEIVER_FLOW 7 20 3 4 ] 7)
    as (_ & _ & Hexact).
  apply Hexact; vm_compute; split; congruence.
Defined.

Example cumulative_stats_two_flows :
  stats_after
    [ Stats "{}" RIST_STATS_RECEIVER_FLOW 7 10 1 2;
      Stats "{}" RIST_STATS_SENDER_PEER 0 99 99 99;
      Stats "{}" RIST_STATS_RECEIVER_FLOW 9 5 0 0;
      Stats "{}" RIST_STATS_RECEIVER_FLOW 7 20 3 4 ]
  = [ CumulativeStats 7 30 4 6; CumulativeStats 9 5 0 0 ].
Proof. reflexivity. Qed.

(** ** The API *)

Import LibRist.

Lemma wait_for_data_result timeout : forall released ctx,
  (wait_for_data timeout released ctx).1 =
  match head (available ctx timeout released) with
  | Some b => Ok b
  | None => Err TimedOut
  end.
Proof.
  unfold available.
  induction timeout as [|timeout IH]; intros released ctx; cbn [wait_for_data].
  - destruct (r_fifo ctx) as [|b fifo]; reflexivity.
  - destruct (r_fifo ctx) as [|b fifo] eqn:Hfifo; [|reflexivity].
    rewrite IH. cbn [with_fifo r_fifo app].
    destruct released as [|ms released]; cbn [head tail default from_option id take concat];
      [rewrite take_nil|]; reflexivity.
Qed.

(** *** The receive path *)

Import ReceiveLoop.

Lemma decode_complete profile d b :
  decode profile d = Ok (DataPacket b) -> complete b.
Proof.
  unfold decode, decode_simple, decode_main, complete, GRE_HEADER, RTP_HEADER.
  repeat case_bool_decide; intros Hdec; try discriminate Hdec;
    injection Hdec as <-; cbn [payload payload_len]; rewrite length_drop; lia.
Qed.

Lemma unwrap_complete pol b b' :
  complete b -> unwrap pol b = Ok b' -> complete b'.
Proof.
  unfold unwrap. intros Hb.
  destruct (negb _ && negb _); [intros [= <-]; exact Hb|].
  destruct (if bool_decide (Z.land (flags b) FLAG_ENCRYPTED <> 0)
            then decrypt pol (payload b) else Some (payload b)) as [clear|];
    [|discriminate].
  destruct (if bool_decide (Z.land (flags b) FLAG_COMPRESSED <> 0)
            then decompress pol clear else Some clear) as [bytes|];
    [|discriminate].
  intros [= <-]. reflexivity.
Qed.

(** The receive path hands on complete blocks only. *)
Lemma incoming_complete pol profile d b :
  incoming pol profile d = Some b -> complete b.
Proof.
  unfold incoming.
  destruct (decode profile d) as [[b0|pt body]|e] eqn:Hdec; try discriminate.
  destruct (unwrap pol b0) as [b1|e] eqn:Hun; [|discriminate].
  intros [= <-]. apply (unwrap_complete pol b0 b1); [|exact Hun].
  apply (decode_complete profile d). exact Hdec.
Qed.

Lemma from_wire_complete pol profile seen b :
  from_wire pol profile seen b -> complete b.
Proof. intros (d & _ & Hd). apply (incoming_complete pol profile d). exact Hd. Qed.

Lemma arrive_sound pol profile seen st d :
  loop_sound pol profile seen st -> d ∈ seen ->
  loop_sound pol profile seen (arrive pol st d).
Proof.
  intros (Hprofile & Hfifo & Hheld) Hd. unfold arrive.
  destruct (incoming pol (r_profile (ls_ctx st)) d) as [b|] eqn:Hin;
    [|split; [exact Hprofile|split; assumption]].
  destruct (keep pol (ls_now st) (map snd (ls_held st)) b);
    [|split; [exact Hprofile|split; assumption]].
  split; [exact Hprofile|]. split; [exact Hfifo|].
  cbn [ls_held]. apply Forall_app. split; [exact Hheld|].
  constructor; [|constructor].
  exists d. split; [exact Hd|]. rewrite <- Hprofile. exact Hin.
Qed.

Lemma arrivals_sound pol profile seen ds : forall st,
  loop_sound pol profile seen st -> Forall (fun d => d ∈ seen) ds ->
  loop_sound pol profile seen (foldl (arrive pol) st ds).
Proof.
  induction ds as [|d ds IH]; intros st Hst Hds; cbn [foldl]; [exact Hst|].
  inversion Hds as [|? ? Hd Hds']; subst.
  apply IH; [|exact Hds']. apply arrive_sound; assumption.
Qed.

Lemma Forall_filter_keeps {A : Type} (P Q : A -> Prop) `{!forall x, Decision (Q x)}
    (l : list A) :
  Forall P l -> Forall P (filter Q l).
Proof.
  intros Hl. apply Forall_forall. intros x Hx.
  destruct (proj1 (list_elem_of_filter Q l x) Hx) as [_ Hin].
  exact (proj1 (Forall_forall P l) Hl x Hin).
Qed.

Lemma ready_sound pol profile seen st :
  loop_sound pol profile seen st -> Forall (from_wire pol profile seen) (ready pol st).
Proof.
  intros (_ & _ & Hheld). unfold ready.
  apply Forall_fmap. apply Forall_filter_keeps. exact Hheld.
Qed.

Lemma release_sound pol profile seen st :
  loop_sound pol profile seen st -> loop_sound pol profile seen (release pol st).
Proof.
  intros Hst. pose proof (ready_sound pol profile seen st Hst) as Hready.
  destruct Hst as (Hprofile & Hfifo & Hheld).
  split; [exact Hprofile|]. split.
  - cbn [release ls_ctx with_fifo r_fifo]. apply Forall_app. split; assumption.
  - cbn [release ls_held]. apply Forall_filter_keeps. exact Hheld.
Qed.

Lemma tick_sound pol profile seen ds st :
  loop_sound pol profile seen st -> Forall (fun d => d ∈ seen) ds ->
  loop_sound pol profile seen (tick pol ds st).
Proof.
  intros Hst Hds. unfold tick.
  assert (H : loop_sound pol profile seen
                (if r_started (ls_ctx st)
                 then release pol (foldl (arrive pol) st ds) else st)).
  { destruct (r_started (ls_ctx st)); [|exact Hst].
    apply release_sound, arrivals_sound; assumption. }
  destruct H as (Hprofile & Hfifo & Hheld).
  split; [exact Hprofile|]. split; assumption.
Qed.

Lemma released_in_sound pol profile seen ds st :
  loop_sound pol profile seen st -> Forall (fun d => d ∈ seen) ds ->
  Forall (from_wire pol profile seen) (released_in pol ds st).
Proof.
  intros Hst Hds. unfold released_in.
  destruct (r_started (ls_ctx st)); [|constructor].
  apply (ready_sound pol profile seen), arrivals_sound; assumption.
Qed.

(** [released_in] is what a millisecond of the loop appends to the
    queue. *)
Lemma tick_appends pol ds st :
  r_fifo (ls_ctx (tick pol ds st)) = r_fifo (ls_ctx st) ++ released_in pol ds st.
Proof.
  assert (Hfifo : forall l st0,
            r_fifo (ls_ctx (foldl (arrive pol) st0 l)) = r_fifo (ls_ctx st0)).
  { induction l as [|d l IH]; intros st0; cbn [foldl]; [reflexivity|].
    rewrite IH. unfold arrive.
    destruct (incoming _ _ _); [|reflexivity].
    destruct (keep _ _ _ _); reflexivity. }
  unfold tick, released_in.
  destruct (r_started (ls_ctx st)); cbn [ls_ctx release with_fifo r_fifo].
  - rewrite Hfifo. reflexivity.
  - rewrite app_nil_r. reflexivity.
Qed.

(** The context after the arrivals of a millisecond is the context
    before them. *)
Lemma arrivals_context pol ds : forall st,
  ls_ctx (foldl (arrive pol) st ds) = ls_ctx st.
Proof.
  induction ds as [|d ds IH]; intros st; cbn [foldl]; [reflexivity|].
  rewrite IH. unfold arrive.
  destruct (incoming _ _ _); [|reflexivity].
  destruct (keep _ _ _ _); reflexivity.
Qed.

Lemma tick_context pol ds st :
  r_started (ls_ctx st) = true ->
  ls_ctx (tick pol ds st) =
  with_fifo (ls_ctx st) (r_fifo (ls_ctx st) ++ released_in pol ds st).
Proof.
  intros Hstarted. unfold tick, released_in. rewrite Hstarted.
  cbn [ls_ctx release]. rewrite arrivals_context. reflexivity.
Qed.

(** A read is the loop running for the milliseconds the read waits,
    followed by the removal of the oldest block from the queue. *)
Lemma data_read_is_wait_then_pop pol timeout : forall arrivals st,
  r_started (ls_ctx st) = true ->
  let released := releases pol timeout arrivals st in
  let ctx := ls_ctx (ticks pol (ms_waited timeout (r_fifo (ls_ctx st)) released)
                       arrivals st) in
  rist_receiver_data_read (ls_ctx st) timeout released =
  match r_fifo ctx with
  | b :: fifo => (Ok b, with_fifo ctx fifo)
  | [] => (Err TimedOut, ctx)
  end.
Proof.
  unfold rist_receiver_data_read.
  induction timeout as [|timeout IH]; intros arrivals st Hstarted;
    cbn zeta; rewrite Hstarted; cbn [releases wait_for_data].
  - destruct (r_fifo (ls_ctx st)) as [|b fifo] eqn:Hfifo; cbn [ms_waited ticks];
      rewrite Hfifo; reflexivity.
  - destruct (r_fifo (ls_ctx st)) as [|b fifo] eqn:Hfifo; cbn [ms_waited ticks];
      [|rewrite Hfifo; reflexivity].
    cbn [head tail default from_option id].
    pose proof (tick_context pol (default [] (head arrivals)) st Hstarted) as Htick.
    rewrite Hfifo in Htick. rewrite <- Htick.
    assert (Hstarted' : r_started (ls_ctx (tick pol (default [] (head arrivals)) st))
                        = true)
      by (rewrite Htick; exact Hstarted).
    specialize (IH (tail arrivals) (tick pol (default [] (head arrivals)) st) Hstarted').
    cbn zeta in IH. rewrite Hstarted' in IH.
    assert (Hq : r_fifo (ls_ctx (tick pol (default [] (head arrivals)) st)) =
                 released_in pol (default [] (head arrivals)) st)
      by (rewrite Htick; reflexivity).
    rewrite Hq in IH. exact IH.
Qed.

Lemma head_arrivals_seen (seen : list (list Z)) n (arrivals : list (list (list Z))) :
  Forall (Forall (fun d => d ∈ seen)) (take (S n) arrivals) ->
  Forall (fun d => d ∈ seen) (default [] (head arrivals)) /\
  Forall (Forall (fun d => d ∈ seen)) (take n (tail arrivals)).
Proof.
  destruct arrivals as [|ds arrivals]; cbn [take head tail default from_option id].
  - intros _. split; [constructor|]. rewrite take_nil. constructor.
  - intros H. inversion H; subst. split; assumption.
Qed.

Lemma ticks_sound pol profile seen n : forall arrivals st,
  loop_sound pol profile seen st ->
  Forall (Forall (fun d => d ∈ seen)) (take n arrivals) ->
  loop_sound pol profile seen (ticks pol n arrivals st).
Proof.
  induction n as [|n IH]; intros arrivals st Hst Harr; cbn [ticks]; [exact Hst|].
  destruct (head_arrivals_seen seen n arrivals Harr) as [Hhead Htail].
  apply IH; [|exact Htail]. apply tick_sound; assumption.
Qed.

Lemma releases_sound pol profile seen n : forall arrivals st,
  loop_sound pol profile seen st ->
  Forall (Forall (fun d => d ∈ seen)) (take n arrivals) ->
  Forall (Forall (from_wire pol profile seen)) (releases pol n arrivals st).
Proof.
  induction n as [|n IH]; intros arrivals st Hst Harr; cbn [releases]; [constructor|].
  destruct (head_arrivals_seen seen n arrivals Harr) as [Hhead Htail].
  constructor.
  - apply released_in_sound; assumption.
  - apply IH; [|exact Htail]. apply tick_sound; assumption.
Qed.

Lemma ms_waited_le timeout : forall fifo released,
  (ms_waited timeout fifo released <= timeout)%nat.
Proof.
  induction timeout as [|timeout IH]; intros fifo released;
    destruct fifo; cbn [ms_waited]; try lia.
  specialize (IH (default [] (head released)) (tail released)). lia.
Qed.

(** The wait leaves in the queue only what was there or was released,
    and does not touch the rest of the context. *)
Lemma wait_for_data_context (P : rist_data_block -> Prop) timeout :
  forall released ctx,
    Forall P (r_fifo ctx) -> Forall (Forall P) released ->
    Forall P (r_fifo (wait_for_data timeout released ctx).2) /\
    r_profile (wait_for_data timeout released ctx).2 = r_profile ctx.
Proof.
  induction timeout as [|timeout IH]; intros released ctx Hfifo Hrel;
    cbn [wait_for_data].
  - destruct (r_fifo ctx) as [|b fifo] eqn:Hf; cbn [snd].
    + rewrite Hf. split; [constructor|reflexivity].
    + inversion Hfifo; subst. split; [assumption|reflexivity].
  - destruct (r_fifo ctx) as [|b fifo] eqn:Hf; cbn [snd].
    + assert (Hhead : Forall P (default [] (head released)))
        by (destruct Hrel; [constructor|assumption]).
      assert (Htail : Forall (Forall P) (tail released))
        by (destruct Hrel; [constructor|assumption]).
      destruct (IH (tail released) (with_fifo ctx ([] ++ default [] (head released))))
        as [H1 H2]; [exact Hhead|exact Htail|].
      split; [exact H1|exact H2].
    + inversion Hfifo; subst. split; [assumption|reflexivity].
Qed.

Lemma loop_data_read_sound pol profile seen st timeout arrivals :
  loop_sound pol profile seen st ->
  Forall (Forall (fun d => d ∈ seen)) (take timeout arrivals) ->
  loop_sound pol profile seen (loop_data_read pol st timeout arrivals).2.
Proof.
  intros Hst Harr. unfold loop_data_read. cbn [snd].
  destruct (r_started (ls_ctx st)) eqn:Hstarted; [|exact Hst].
  unfold rist_receiver_data_read. rewrite Hstarted.
  pose proof (releases_sound pol profile seen timeout arrivals st Hst Harr) as Hrel.
  set (released := releases pol timeout arrivals st) in *. clearbody released.
  set (n := ms_waited timeout (r_fifo (ls_ctx st)) released).
  assert (Hn : (n <= timeout)%nat) by apply ms_waited_le.
  assert (Hticks : loop_sound pol profile seen (ticks pol n arrivals st)).
  { apply ticks_sound; [exact Hst|].
    replace n with (Nat.min n timeout) by lia.
    rewrite <- take_take. apply Forall_take. exact Harr. }
  destruct Hst as (Hprofile & Hfifo & _).
  destruct (wait_for_data_context (from_wire pol profile seen) timeout released
              (ls_ctx st) Hfifo Hrel) as [Hq Hp].
  destruct Hticks as (_ & _ & Hheld).
  split; [cbn [with_ctx ls_ctx]; rewrite Hp; exact Hprofile|].
  split; [exact Hq|exact Hheld].
Qed.

Lemma receiver_step_sound pol profile seen st c :
  loop_sound pol profile seen st ->
  Forall (fun d => d ∈ seen) (call_datagrams c) ->
  loop_sound pol profile seen (receiver_step pol st c).
Proof.
  intros Hst Hc. destruct c as [config_ok|ds|timeout arrivals];
    cbn [receiver_step call_datagrams] in *.
  - destruct Hst as (Hprofile & Hfifo & Hheld).
    unfold rist_receiver_start.
    destruct (r_started (ls_ctx st)); [split; [exact Hprofile|split; assumption]|].
    destruct (negb _); split; try exact Hprofile; split; assumption.
  - apply tick_sound; assumption.
  - apply loop_data_read_sound; [exact Hst|].
    apply Forall_concat. exact Hc.
Qed.

Lemma receiver_steps_sound pol profile seen calls : forall st,
  loop_sound pol profile seen st ->
  Forall (fun d => d ∈ seen) (traffic calls) ->
  loop_sound pol profile seen (foldl (receiver_step pol) st calls).
Proof.
  induction calls as [|c calls IH]; intros st Hst Hseen; cbn [foldl]; [exact Hst|].
  unfold traffic in Hseen. cbn [flat_map] in Hseen.
  apply Forall_app in Hseen. destruct Hseen as [Hc Hcalls].
  apply IH; [|exact Hcalls]. apply receiver_step_sound; assumption.
Qed.

(** C2: a call of [rist_receiver_data_read] ends in one of three ways:
    with one block, which is then the oldest block queued or released
    within the timeout; with TimedOut, when the context is started and
    nothing was queued or released within the timeout; or with
    NotStarted. And whatever has happened to a receiver since it was
    created, and whatever datagrams it was sent, cut short or not, a
    block its loop lets a read return is complete: it is what the
    receive path makes of one whole datagram that arrived, with as many
    payload bytes as its length says. *)
Theorem data_read_outcomes pol profile log_level calls timeout arrivals ctx released :
  match (rist_receiver_data_read ctx timeout released).1 with
  | Ok b => r_started ctx = true /\ head (available ctx timeout released) = Some b
  | Err TimedOut => r_started ctx = true /\ available ctx timeout released = []
  | Err NotStarted => r_started ctx = false
  | Err _ => False
  end /\
  (let st := receiver_run pol profile log_level calls in
   forall b,
     (rist_receiver_data_read (ls_ctx st) timeout
        (releases pol timeout arrivals st)).1 = Ok b ->
     complete b /\
     exists d, d ∈ traffic calls ++ concat (take timeout arrivals) /\
               incoming pol profile d = Some b).
Proof.
  split.
  - unfold rist_receiver_data_read.
    destruct (r_started ctx); [|reflexivity].
    rewrite wait_for_data_result.
    destruct (available ctx timeout released) as [|b rest]; cbn [head];
      split; reflexivity.
  - intros st b Hread.
    set (seen := traffic calls ++ concat (take timeout arrivals)).
    assert (Hst : loop_sound pol profile seen st).
    { apply receiver_steps_sound.
      - split; [reflexivity|]. split; constructor.
      - apply Forall_forall. intros d Hd. apply elem_of_app. left. exact Hd. }
    assert (Harr : Forall (Forall (fun d => d ∈ seen)) (take timeout arrivals)).
    { apply Forall_concat. apply Forall_forall. intros d Hd.
      apply elem_of_app. right. exact Hd. }
    pose proof (releases_sound pol profile seen timeout arrivals st Hst Harr) as Hrel.
    assert (Hb : from_wire pol profile seen b).
    { unfold rist_receiver_data_read in Hread.
      destruct (r_started (ls_ctx st)); [|discriminate Hread].
      rewrite wait_for_data_result in Hread.
      assert (Hall : Forall (from_wire pol profile seen)
                       (available (ls_ctx st) timeout (releases pol timeout arrivals st))).
      { unfold available. apply Forall_app. split; [apply Hst|].
        apply Forall_concat, Forall_take. exact Hrel. }
      destruct (available _ _ _) as [|b0 rest]; cbn [head] in Hread;
        [discriminate Hread|].
      injection Hread as <-. inversion Hall; assumption. }
    split; [exact (from_wire_complete pol profile seen b Hb)|exact Hb].
Qed.

(** A datagram that arrives whole is read two milliseconds later; cut
    short by one byte it is dropped and the read times out. *)
Lemma data_read_outcomes_witness :
  (rist_receiver_data_read
     (ls_ctx (receiver_run Sample.policy RIST_PROFILE_MAIN RIST_LOG_WARN
                [CallReceiverStart (fun _ => true)]))
     5
     (releases Sample.policy 5 [[Sample.truncated; Sample.datagram]]
        (receiver_run Sample.policy RIST_PROFILE_MAIN RIST_LOG_WARN
           [CallReceiverStart (fun _ => true)]))).1 = Ok Sample.wire_block /\
  complete Sample.wire_block.
Proof.
  assert (Hread :
    (rist_receiver_data_read
       (ls_ctx (receiver_run Sample.policy RIST_PROFILE_MAIN RIST_LOG_WARN
                  [CallReceiverStart (fun _ => true)]))
       5
       (releases Sample.policy 5 [[Sample.truncated; Sample.datagram]]
          (receiver_run Sample.policy RIST_PROFILE_MAIN RIST_LOG_WARN
             [CallReceiverStart (fun _ => true)]))).1 = Ok Sample.wire_block)
    by (vm_compute; reflexivity).
  split; [exact Hread|].
  destruct (data_read_outcomes Sample.policy RIST_PROFILE_MAIN RIST_LOG_WARN
              [CallReceiverStart (fun _ => true)] 5
              [[Sample.truncated; Sample.datagram]]
              Sample.receiver []) as [_ Hcomplete].
  exact (proj1 (Hcomplete Sample.wire_block Hread)).
Defined.

Example truncated_datagram_is_dropped :
  incoming Sample.policy RIST_PROFILE_MAIN Sample.truncated = None /\
  (loop_data_read Sample.policy
     (receiver_run Sample.policy RIST_PROFILE_MAIN RIST_LOG_WARN
        [CallReceiverStart (fun _ => true)])
     5 [[Sample.truncated]]).1 = Err TimedOut.
Proof. split; vm_compute; reflexivity. Qed.

(** C5: a start call, on a sender or on a receiver, returns ok,
    InvalidConfig or AlreadyStarted and nothing else; it returns ok
    exactly on a context that was not started and whose configuration
    passes the check, which is then started and otherwise as before; and
    when it returns an error the context is exactly as it was. *)
Theorem start_outcomes (sender_ok : rist_sender -> bool)
    (receiver_ok : rist_receiver -> bool) (s : rist_sender) (r : rist_receiver) :
  match rist_sender_start sender_ok s with
  | (Ok _, s') =>
      s_started s = false /\ sender_ok s = true /\ s_started s' = true /\
      s_flow_id s' = s_flow_id s /\ s_next_seq s' = s_next_seq s /\
      s_peers s' = s_peers s
  | (Err InvalidConfig, s') => s_started s = false /\ sender_ok s = false /\ s' = s
  | (Err AlreadyStarted, s') => s_started s = true /\ s' = s
  | (Err _, _) => False
  end /\
  match rist_receiver_start receiver_ok r with
  | (Ok _, r') =>
      r_started r = false /\ receiver_ok r = true /\ r_started r' = true /\
      r_fifo r' = r_fifo r /\ r_peers r' = r_peers r
  | (Err InvalidConfig, r') => r_started r = false /\ receiver_ok r = false /\ r' = r
  | (Err AlreadyStarted, r') => r_started r = true /\ r' = r
  | (Err _, _) => False
  end.
Proof.
  unfold rist_sender_start, rist_receiver_start. split.
  - destruct (s_started s); [split; reflexivity|].
    destruct (sender_ok s); cbn [negb]; repeat split; reflexivity.
  - destruct (r_started r); [split; reflexivity|].
    destruct (receiver_ok r); cbn [negb]; repeat split; reflexivity.
Qed.

Lemma transmit_last pkt p :
  sp_authenticated p = true ->
  last (sp_transmitted (transmit pkt p)) = Some pkt.
Proof.
  intros Hauth. unfold transmit. rewrite Hauth. cbn [sp_transmitted].
  apply last_snoc.
Qed.

(** C6: a call of [rist_sender_data_write] that accepts the block stamps
    it with the current [next_seq] as sequence number and advances
    [next_seq] by one, in the 32-bit sequence space; the flow id of the
    stamped block is that of the sender when the caller passed zero, its
    timestamp is the current NTP time when the caller passed zero; and
    the stamped block is what every authenticated peer transmits. *)
Theorem data_write_stamps ctx now b n ctx' :
  rist_sender_data_write ctx now b = (Ok n, ctx') ->
  let pkt := stamp ctx now b in
  seq pkt = s_next_seq ctx /\
  s_next_seq ctx' = uint32_t (s_next_seq ctx + 1) /\
  (flow_id b = 0 -> flow_id pkt = s_flow_id ctx) /\
  (ts_ntp b = 0 -> ts_ntp pkt = now) /\
  payload pkt = payload b /\
  n = payload_len b /\
  length (s_peers ctx') = length (s_peers ctx) /\
  Forall (fun p => sp_authenticated p = true -> last (sp_transmitted p) = Some pkt)
         (s_peers ctx').
Proof.
  unfold rist_sender_data_write.
  destruct (would_block ctx); [discriminate|].
  intros Heq. injection Heq as Hn Hctx. subst ctx' n.
  cbn [s_next_seq s_peers].
  split; [reflexivity|]. split; [reflexivity|].
  split.
  { intros Hzero. cbn [stamp flow_id]. rewrite bool_decide_eq_true_2 by exact Hzero.
    reflexivity. }
  split.
  { intros Hzero. cbn [stamp ts_ntp]. rewrite bool_decide_eq_true_2 by exact Hzero.
    reflexivity. }
  split; [reflexivity|]. split; [reflexivity|].
  split; [apply length_map|].
  apply Forall_forall. intros p' Hin.
  apply list_elem_of_fmap in Hin. destruct Hin as (p & -> & _).
  intros Hauth. apply transmit_last.
  unfold transmit in Hauth.
  destruct (sp_authenticated p) eqn:Hp; [reflexivity|].
  rewrite Hp in Hauth. exact Hauth.
Qed.

Lemma data_write_stamps_witness :
  let ctx' := (rist_sender_data_write Sample.sender 12345 Sample.fresh_block).2 in
  rist_sender_data_write Sample.sender 12345 Sample.fresh_block = (Ok 3, ctx') /\
  seq (stamp Sample.sender 12345 Sample.fresh_block) = 4294967295 /\
  s_next_seq ctx' = uint32_t (4294967295 + 1) /\
  flow_id (stamp Sample.sender 12345 Sample.fresh_block) = 0x11223344 /\
  ts_ntp (stamp Sample.sender 12345 Sample.fresh_block) = 12345.
Proof.
  intros ctx'.
  assert (Heq : rist_sender_data_write Sample.sender 12345 Sample.fresh_block
                = (Ok 3, ctx')) by reflexivity.
  destruct (data_write_stamps Sample.sender 12345 Sample.fresh_block 3 ctx' Heq)
    as (Hseq & Hnext & Hflow & Hts & _).
  split; [exact Heq|]. split; [exact Hseq|]. split; [exact Hnext|].
  split; [apply Hflow; reflexivity|apply Hts; reflexivity].
Defined.

Lemma sender_step_flow_id config_ok ctx c :
  s_flow_id (sender_step config_ok ctx c) = s_flow_id ctx.
Proof.
  destruct c as [|now b]; cbn [sender_step].
  - unfold rist_sender_start.
    destruct (s_started ctx); [reflexivity|].
    destruct (config_ok ctx); reflexivity.
  - unfold rist_sender_data_write. destruct (would_block ctx); reflexivity.
Qed.

Lemma sender_run_flow_id config_ok calls : forall ctx,
  s_flow_id (sender_run config_ok ctx calls) = s_flow_id ctx.
Proof.
  unfold sender_run.
  induction calls as [|c calls IH]; intros ctx; [reflexivity|].
  cbn [foldl]. rewrite IH. apply sender_step_flow_id.
Qed.

(** C7: a sender created with flow id 0 has the flow id the library
    generated, a sender created with another flow id has that one; this
    is the value [rist_sender_flow_id_get] returns, right after the
    creation and after any further start and write calls, and the value
    the sender stamps on a block that comes without a flow id. *)
Theorem sender_flow_id_assignment config_ok profile requested log_level generated
    calls now bytes len ts src_port dst_port sq fl :
  let created := rist_sender_create profile requested log_level generated in
  let ctx := sender_run config_ok created calls in
  let assigned := if bool_decide (requested = 0) then generated else requested in
  rist_sender_flow_id_get created = Ok assigned /\
  rist_sender_flow_id_get ctx = Ok assigned /\
  flow_id (stamp ctx now (DataBlock bytes len ts src_port dst_port 0 sq fl)) = assigned.
Proof.
  intros created ctx assigned.
  assert (Hctx : s_flow_id ctx = assigned).
  { subst ctx. rewrite sender_run_flow_id. reflexivity. }
  split; [reflexivity|]. split.
  - unfold rist_sender_flow_id_get. rewrite Hctx. reflexivity.
  - cbn [stamp flow_id]. rewrite bool_decide_eq_true_2 by reflexivity. exact Hctx.
Qed.

Example sender_flow_id_delegated :
  rist_sender_flow_id_get
    (sender_run (fun _ => true) (rist_sender_create RIST_PROFILE_MAIN 0 RIST_LOG_WARN 0xcafe)
       [CallStart; CallDataWrite 1 Sample.fresh_block])
  = Ok 0xcafe.
Proof. reflexivity. Qed.

Example sender_flow_id_given :
  rist_sender_flow_id_get
    (sender_run (fun _ => true) (rist_sender_create RIST_PROFILE_MAIN 77 RIST_LOG_WARN 0xcafe)
       [CallStart; CallDataWrite 1 Sample.fresh_block])
  = Ok 77.
Proof. reflexivity. Qed.

Example start_twice :
  let '(r1, s1) := rist_sender_start (fun _ => true)
                     (rist_sender_create RIST_PROFILE_MAIN 77 RIST_LOG_WARN 0) in
  r1 = Ok () /\ (rist_sender_start (fun _ => true) s1).1 = Err AlreadyStarted.
Proof. split; reflexivity. Qed.

Example read_before_start :
  (rist_receiver_data_read (rist_receiver_create RIST_PROFILE_MAIN RIST_LOG_WARN) 5
     [[Sample.block]]).1 = Err NotStarted.
Proof. reflexivity. Qed.

Example read_times_out :
  (rist_receiver_data_read Sample.receiver 2 [[]; []; [Sample.block]]).1 = Err TimedOut.
Proof. reflexivity. Qed.

(** * Further properties of the code *)

(** ** src/log.c: runs of calls *)

Import LogRun.

Lemma win32_prologue_idem p st :
  win32_prologue p (win32_prologue p st) = win32_prologue p st.
Proof.
  destruct p; try reflexivity. unfold win32_prologue.
  destruct (bool_decide_reflect (stats_fd st = -1)) as [Hfd|Hfd].
  - cbn [stats_fd]. rewrite bool_decide_eq_false_2; [reflexivity|].
    unfold fileno_stderr. lia.
  - rewrite (bool_decide_eq_false_2 _ Hfd). reflexivity.
Qed.

Lemma msg_events_prologue p tv s c level content st :
  (msg p tv s c level content (win32_prologue p st)).2 =
  (msg p tv s c level content st).2.
Proof. unfold msg. rewrite win32_prologue_idem. reflexivity. Qed.

Lemma msg_run_snoc p calls c st :
  msg_run p (calls ++ [c]) st =
  ((msg_of p c (msg_run p calls st).1).1,
   (msg_run p calls st).2 ++ (msg_of p c (msg_run p calls st).1).2).
Proof. unfold msg_run. rewrite foldl_app. reflexivity. Qed.

Lemma msg_run_state p calls st :
  (msg_run p calls st).1 =
  match calls with [] => st | _ => win32_prologue p st end.
Proof.
  induction calls as [|c calls IH] using rev_ind; [reflexivity|].
  rewrite msg_run_snoc. cbn [fst]. unfold msg_of. rewrite msg_state, IH.
  destruct calls as [|c' calls]; cbn [app]; [reflexivity|].
  apply win32_prologue_idem.
Qed.

Lemma msg_run_events p calls st :
  (msg_run p calls st).2 = flat_map (fun c => (msg_of p c st).2) calls.
Proof.
  induction calls as [|c calls IH] using rev_ind; [reflexivity|].
  rewrite msg_run_snoc. cbn [snd]. rewrite IH, flat_map_app.
  cbn [flat_map]. rewrite app_nil_r. f_equal.
  rewrite msg_run_state. destruct calls as [|c' calls]; [reflexivity|].
  unfold msg_of. apply msg_events_prologue.
Qed.

(** X1: the messages of a run do not influence each other. What a run
    of [msg] calls writes is, message by message, what each call would
    write on its own from the starting state; the run never changes
    [loglevel] or [stats_socket], and the only change it can make to the
    state is the one-time replacement of the unset descriptor on a
    Windows build, made by the first call. *)
Theorem msg_run_independent p calls st :
  (msg_run p calls st).2 = flat_map (fun c => (msg_of p c st).2) calls /\
  (msg_run p calls st).1 =
    match calls with [] => st | _ => win32_prologue p st end /\
  loglevel (msg_run p calls st).1 = loglevel st /\
  stats_socket (msg_run p calls st).1 = stats_socket st /\
  match p with Win32 => True | _ => (msg_run p calls st).1 = st end.
Proof.
  split; [apply msg_run_events|].
  split; [apply msg_run_state|].
  rewrite msg_run_state.
  destruct calls as [|c calls].
  - repeat split. destruct p; auto.
  - rewrite win32_prologue_loglevel, win32_prologue_socket.
    repeat split. destruct p; auto.
Qed.

Lemma fd_calls_snoc fds fd st :
  fd_calls (fds ++ [fd]) st =
  ((fd_calls fds st).1 ++ [(rist_set_stats_fd fd (fd_calls fds st).2).1.1],
   (rist_set_stats_fd fd (fd_calls fds st).2).1.2).
Proof. unfold fd_calls. rewrite foldl_app. reflexivity. Qed.

(** X2: in a run of [rist_set_stats_fd] calls every call returns 0, the
    last argument greater than -1 is the descriptor in force afterwards
    (the one before the run if there is no such argument), and
    [loglevel] and [stats_socket] are not touched. *)
Theorem stats_fd_last_valid_wins fds st :
  (fd_calls fds st).1 = map (fun _ => 0) fds /\
  stats_fd (fd_calls fds st).2 =
    default (stats_fd st) (last (filter (fun fd => fd > -1) fds)) /\
  loglevel (fd_calls fds st).2 = loglevel st /\
  stats_socket (fd_calls fds st).2 = stats_socket st.
Proof.
  induction fds as [|fd fds IH] using rev_ind.
  - repeat split.
  - destruct IH as (Hret & Hfd & Hlevel & Hsock).
    rewrite fd_calls_snoc. cbn [fst snd].
    rewrite map_app, filter_app, Hret. cbn [map].
    unfold rist_set_stats_fd.
    destruct (bool_decide_reflect (fd > -1)) as [Hvalid|Hinvalid].
    + cbn [fst snd stats_fd loglevel stats_socket].
      rewrite filter_cons_True by exact Hvalid. rewrite filter_nil, last_snoc.
      repeat split; assumption.
    + cbn [fst snd].
      rewrite filter_cons_False by exact Hinvalid. rewrite filter_nil, app_nil_r.
      repeat split; assumption.
Qed.

(** X3: the three configuration calls act on three separate variables:
    applied in either order, any two of different kinds leave the same
    state, and none changes what another returns. *)
Theorem config_calls_commute level fd connected port st :
  set_loglevel level (rist_set_stats_fd fd st).1.2 =
    (rist_set_stats_fd fd (set_loglevel level st)).1.2 /\
  set_loglevel level (rist_set_stats_socket connected port st).1.2 =
    (rist_set_stats_socket connected port (set_loglevel level st)).1.2 /\
  (rist_set_stats_fd fd (rist_set_stats_socket connected port st).1.2).1.2 =
    (rist_set_stats_socket connected port (rist_set_stats_fd fd st).1.2).1.2 /\
  (rist_set_stats_socket connected port (rist_set_stats_fd fd st).1.2).1.1 =
    (rist_set_stats_socket connected port st).1.1 /\
  (rist_set_stats_socket connected port (set_loglevel level st)).1.1 =
    (rist_set_stats_socket connected port st).1.1 /\
  (rist_set_stats_fd fd (rist_set_stats_socket connected port st).1.2).1.1 =
    (rist_set_stats_fd fd st).1.1.
Proof.
  unfold set_loglevel, rist_set_stats_fd, rist_set_stats_socket.
  destruct (bool_decide (fd > -1)), (bool_decide (port = 0));
    cbn [fst snd loglevel stats_fd stats_socket];
    destruct (bool_decide (stats_socket st = 0));
    cbn [fst snd loglevel stats_fd stats_socket]; repeat split.
Qed.

(** X4: a connect that fails is never retried. Once the first call of
    [rist_set_stats_socket] with a nonzero port has stored a negative
    descriptor, no later call connects again, the descriptor stays, and
    no message is ever sent to a socket. *)
Theorem failed_connect_is_permanent p st connected port later mcalls :
  port <> 0 ->
  stats_socket st = 0 ->
  connected < 0 ->
  let r := socket_calls ((connected, port) :: later) st in
  stats_socket r.1.2 = connected /\
  filter is_connect r.2 = [UdpConnect "127.0.0.1" port] /\
  filter is_udp_write (msg_run p mcalls r.1.2).2 = [].
Proof.
  intros Hport Hnone Hneg r.
  assert (Hnil : Forall (fun call : Z * Z => call.2 = 0) []) by constructor.
  assert (Hconn : connected <> 0) by lia.
  assert (Hsock : stats_socket r.1.2 = connected /\
                  filter is_connect r.2 = [UdpConnect "127.0.0.1" port]).
  { subst r. rewrite socket_calls_cons.
    assert (Hfirst : rist_set_stats_socket (connected, port).1 (connected, port).2 st =
                     (0, {| loglevel := loglevel st; stats_fd := stats_fd st;
                            stats_socket := connected |},
                      [UdpConnect "127.0.0.1" port;
                       Stderr ("Statistic socket created on port " +:+ pretty port +:+
                               " (#" +:+ pretty connected +:+ ")" +:+ newline)])).
    { unfold rist_set_stats_socket. cbn [fst snd].
      rewrite (bool_decide_eq_false_2 _ Hport).
      rewrite (bool_decide_eq_true_2 _ Hnone). reflexivity. }
    rewrite Hfirst. cbn [fst snd].
    set (st1 := {| loglevel := loglevel st; stats_fd := stats_fd st;
                   stats_socket := connected |}).
    destruct (socket_calls_existing later st1 Hconn) as [Hs Hl].
    split; [exact Hs|].
    change ([UdpConnect "127.0.0.1" port;
             Stderr ("Statistic socket created on port " +:+ pretty port +:+
                     " (#" +:+ pretty connected +:+ ")" +:+ newline)]
            ++ (socket_calls later st1).2)
      with (UdpConnect "127.0.0.1" port ::
            Stderr ("Statistic socket created on port " +:+ pretty port +:+
                     " (#" +:+ pretty connected +:+ ")" +:+ newline) ::
            (socket_calls later st1).2).
    rewrite filter_cons_True by reflexivity.
    rewrite filter_cons_False by (simpl; auto).
    rewrite Hl. reflexivity. }
  destruct Hsock as [Hs Hc]. split; [exact Hs|]. split; [exact Hc|].
  rewrite msg_run_events.
  induction mcalls as [|c mcalls IH]; [reflexivity|].
  cbn [flat_map]. rewrite filter_app, IH, app_nil_r.
  unfold msg_of, msg. rewrite win32_prologue_socket, Hs.
  case_bool_decide; [reflexivity|].
  rewrite (bool_decide_eq_false_2 (connected > 0)) by lia.
  reflexivity.
Qed.

Lemma failed_connect_is_permanent_witness :
  let r := socket_calls [(-1, 9000); (8, 9001)] (initial Unix) in
  stats_socket r.1.2 = -1 /\
  filter is_udp_write
    (msg_run Unix [MsgCall (Timeval 1 2) 0 0 RIST_LOG_ERROR "e"] r.1.2).2 = [].
Proof.
  assert (Hport : 9000 <> 0) by lia.
  assert (Hnone : stats_socket (initial Unix) = 0) by reflexivity.
  assert (Hneg : -1 < 0) by lia.
  destruct (failed_connect_is_permanent Unix (initial Unix) (-1) 9000 [(8, 9001)]
              [MsgCall (Timeval 1 2) 0 0 RIST_LOG_ERROR "e"] Hport Hnone Hneg)
    as (Hs & _ & Hw).
  split; [exact Hs|exact Hw].
Defined.

(** ** tools/ristreceiver.c: timestamps and headers *)

Lemma convertNTPtoRTP_formula i_ntp :
  risttools_convertNTPtoRTP i_ntp = (i_ntp * 90000 / 2 ^ 32) mod 2 ^ 32.
Proof.
  unfold risttools_convertNTPtoRTP, uint64_t, uint32_t, to_uint.
  rewrite Z.shiftr_div_pow2 by lia.
  change (2 ^ 64) with 18446744073709551616.
  change (2 ^ 32) with 4294967296.
  Z.div_mod_to_equations. lia.
Qed.

(** X5: [risttools_convertNTPtoRTP] turns a 64-bit NTP time into ticks
    of a 90 kHz clock modulo [2 ^ 32]: for [seconds] whole seconds and a
    fraction of [fraction / 2 ^ 32] it yields 90000 ticks per second
    plus the ticks of the fraction, rounded down and fewer than 90000.
    The 64-bit overflow of the multiplication does not show in the
    result. *)
Theorem convertNTPtoRTP_is_90kHz seconds fraction :
  0 <= fraction < 2 ^ 32 ->
  risttools_convertNTPtoRTP (seconds * 2 ^ 32 + fraction) =
    uint32_t (90000 * seconds + 90000 * fraction / 2 ^ 32) /\
  0 <= 90000 * fraction / 2 ^ 32 < 90000 /\
  is_uint 32 (risttools_convertNTPtoRTP (seconds * 2 ^ 32 + fraction)).
Proof.
  intros Hfraction.
  rewrite convertNTPtoRTP_formula. unfold uint32_t, to_uint, is_uint.
  split; [|split].
  - f_equal.
    replace ((seconds * 2 ^ 32 + fraction) * 90000)
      with (90000 * seconds * 2 ^ 32 + 90000 * fraction) by ring.
    rewrite Z.div_add_l by lia. reflexivity.
  - change (2 ^ 32) with 4294967296 in *. Z.div_mod_to_equations. lia.
  - apply Z.mod_pos_bound. lia.
Qed.

Lemma convertNTPtoRTP_is_90kHz_witness :
  risttools_convertNTPtoRTP (3 * 2 ^ 32 + 2 ^ 31) = 315000.
Proof.
  assert (Hfraction : 0 <= 2 ^ 31 < 2 ^ 32) by lia.
  destruct (convertNTPtoRTP_is_90kHz 3 (2 ^ 31) Hfraction) as (Heq & _ & _).
  rewrite Heq. reflexivity.
Defined.

(** X6: an NTP time that is [k] seconds later converts to an RTP
    timestamp that is [90000 * k] ticks later, modulo [2 ^ 32], whatever
    the fraction and also across the wrap of the 64-bit NTP time. *)
Theorem convertNTPtoRTP_seconds_step i_ntp k :
  risttools_convertNTPtoRTP (i_ntp + k * 2 ^ 32) =
    uint32_t (risttools_convertNTPtoRTP i_ntp + 90000 * k).
Proof.
  rewrite !convertNTPtoRTP_formula. unfold uint32_t, to_uint.
  replace ((i_ntp + k * 2 ^ 32) * 90000)
    with (i_ntp * 90000 + 90000 * k * 2 ^ 32) by ring.
  rewrite Z.div_add by lia.
  rewrite Zplus_mod_idemp_l. reflexivity.
Qed.

(** X7: the header [risttools_rtp_set_hdr] writes determines its
    arguments up to their widths and nothing more: two calls write the
    same twelve bytes exactly when the payload types agree in their low
    seven bits, the sequence numbers in their low 16 bits, and the
    timestamps and the SSRCs in their low 32 bits. The top bit of the
    payload type is dropped, so the marker bit is never set. *)
Theorem rtp_set_hdr_injective i_type i_seqnum i_timestamp i_ssrc
    i_type' i_seqnum' i_timestamp' i_ssrc' :
  risttools_rtp_set_hdr i_type i_seqnum i_timestamp i_ssrc =
  risttools_rtp_set_hdr i_type' i_seqnum' i_timestamp' i_ssrc' <->
  i_type mod 2 ^ 7 = i_type' mod 2 ^ 7 /\
  uint16_t i_seqnum = uint16_t i_seqnum' /\
  uint32_t i_timestamp = uint32_t i_timestamp' /\
  uint32_t i_ssrc = uint32_t i_ssrc'.
Proof.
  assert (Hpt : forall t, uint8_t t mod 2 ^ 7 = t mod 2 ^ 7).
  { intros t. unfold uint8_t, to_uint.
    change (2 ^ 8) with 256. change (2 ^ 7) with 128.
    Z.div_mod_to_equations. lia. }
  split.
  - intros Heq.
    destruct (rtp_set_hdr_fields i_type i_seqnum i_timestamp i_ssrc)
      as (_ & _ & _ & _ & _ & _ & _ & Ht & Hs & Hts & Hss).
    destruct (rtp_set_hdr_fields i_type' i_seqnum' i_timestamp' i_ssrc')
      as (_ & _ & _ & _ & _ & _ & _ & Ht' & Hs' & Hts' & Hss').
    rewrite Heq in Ht, Hs, Hts, Hss.
    rewrite <- (Hpt i_type), <- (Hpt i_type').
    repeat split; congruence.
  - intros (Ht & Hs & Hts & Hss).
    unfold risttools_rtp_set_hdr. cbv zeta.
    rewrite !land_127, !Hpt, Ht, Hs, Hts, Hss. reflexivity.
Qed.

(** ** tools/ristreceiver.c: what [cb_recv] returns and leaves behind *)

Import ToolRun.

Lemma output_events_shape profile net co b i :
  output_events profile net co b i = [] \/
  (exists fd buf rest,
     output_events profile net co b i = Sent i fd buf :: rest /\
     filter is_sent rest = [] /\ filter is_free rest = []).
Proof.
  unfold output_events.
  destruct (udp_config co !! i) as [[cfg|]|]; auto.
  destruct (_ && _); auto.
  right. eexists _, _, _. split; [reflexivity|].
  destruct (_ && _); split; reflexivity.
Qed.

Lemma loop_events_shape profile net co b l :
  filter is_free (flat_map (output_events profile net co b) l) = [] /\
  (flat_map (output_events profile net co b) l = [] \/
   existsb is_sent (flat_map (output_events profile net co b) l) = true).
Proof.
  induction l as [|i l [IHfree IHsent]]; cbn [flat_map]; [auto|].
  rewrite filter_app, IHfree, app_nil_r.
  destruct (output_events_shape profile net co b i)
    as [Hnil|(fd & buf & rest & Heq & _ & Hfree)]; rewrite ?Hnil, ?Heq.
  - split; [reflexivity|exact IHsent].
  - split.
    + rewrite filter_cons_False by (simpl; auto). exact Hfree.
    + right. reflexivity.
Qed.

(** What one iteration does to the flag and to the counters. *)
Lemma cb_recv_body_state profile net b co st i :
  mpeg (rl_object st) = mpeg co ->
  udp_config (rl_object st) = udp_config co ->
  rl_found (cb_recv_body profile net b st i) =
    match output_events profile net co b i with
    | [] => rl_found st
    | _ => 1
    end /\
  i_seqnum (rl_object (cb_recv_body profile net b st i)) !! i =
    (if counter_used profile co b i
     then (fun old => uint16_t (old + 1)) <$> i_seqnum (rl_object st) !! i
     else i_seqnum (rl_object st) !! i) /\
  length (i_seqnum (rl_object (cb_recv_body profile net b st i))) =
    length (i_seqnum (rl_object st)).
Proof.
  intros Hmpeg Hcfg.
  unfold cb_recv_body, output_events, counter_used. rewrite Hmpeg, Hcfg.
  destruct (udp_config co !! i) as [[cfg|]|]; try (repeat split; reflexivity).
  destruct (output_selected profile cfg b); cbn [andb];
    try (repeat split; reflexivity).
  destruct (bool_decide_reflect (default 0 (mpeg co !! i) > 0)) as [Hfd|Hfd];
    cbn [andb]; try (repeat split; reflexivity).
  destruct (bool_decide_reflect (rtp cfg <> 0)) as [Hrtp|Hrtp]; cbn [andb].
  - unfold rtp_seqnum.
    destruct (bool_decide_reflect (rtp_sequence cfg <> 0)) as [Hseq|Hseq].
    + rewrite bool_decide_eq_false_2 by exact Hseq.
      destruct (net _ _) as [ret errno]. repeat split; reflexivity.
    + apply dec_stable in Hseq. rewrite (bool_decide_eq_true_2 _ Hseq).
      destruct (net _ _) as [ret errno]. cbn [rl_found rl_object i_seqnum].
      split; [reflexivity|]. split; [|apply length_insert].
      destruct (i_seqnum (rl_object st) !! i) as [old|] eqn:Hold.
      * cbn [fmap option_fmap option_map default from_option id].
        apply list_lookup_insert_eq. apply lookup_lt_Some in Hold. exact Hold.
      * cbn [fmap option_fmap option_map].
        rewrite list_insert_ge by (apply lookup_ge_None; exact Hold).
        exact Hold.
  - destruct (net _ _) as [ret errno]. repeat split; reflexivity.
Qed.

(** The state of the loop after any list of distinct outputs. *)
Lemma cb_recv_loop_state profile net b co l : forall st,
  NoDup l ->
  mpeg (rl_object st) = mpeg co ->
  udp_config (rl_object st) = udp_config co ->
  (forall i, In i l -> i_seqnum (rl_object st) !! i = i_seqnum co !! i) ->
  let st' := foldl (cb_recv_body profile net b) st l in
  rl_found st' =
    match flat_map (output_events profile net co b) l with
    | [] => rl_found st
    | _ => 1
    end /\
  mpeg (rl_object st') = mpeg co /\
  udp_config (rl_object st') = udp_config co /\
  length (i_seqnum (rl_object st')) = length (i_seqnum (rl_object st)) /\
  forall j,
    i_seqnum (rl_object st') !! j =
    if bool_decide (j ∈ l) && counter_used profile co b j
    then (fun old => uint16_t (old + 1)) <$> i_seqnum (rl_object st) !! j
    else i_seqnum (rl_object st) !! j.
Proof.
  induction l as [|i l IH]; intros st Hnodup Hmpeg Hcfg Hseq.
  - cbn [foldl flat_map]. repeat split; try assumption.
  - apply NoDup_cons in Hnodup as [Hnotin Hnodup].
    destruct (cb_recv_body_events profile net b co st i Hmpeg Hcfg)
      as (_ & Hm & Hc & Hother).
    { apply Hseq. left. reflexivity. }
    destruct (cb_recv_body_state profile net b co st i Hmpeg Hcfg)
      as (Hfound & Hat & Hlen).
    assert (Hseq' : forall j, In j l ->
              i_seqnum (rl_object (cb_recv_body profile net b st i)) !! j =
              i_seqnum co !! j).
    { intros j Hj. rewrite Hother.
      - apply Hseq. right. exact Hj.
      - intros ->. apply Hnotin. apply list_elem_of_In. exact Hj. }
    destruct (IH (cb_recv_body profile net b st i) Hnodup Hm Hc Hseq')
      as (IHfound & IHm & IHc & IHlen & IHseq).
    cbn [foldl flat_map]. cbv zeta in *.
    split.
    { rewrite IHfound, Hfound.
      destruct (output_events profile net co b i) as [|e es]; cbn [app].
      - reflexivity.
      - destruct (flat_map _ l); reflexivity. }
    split; [exact IHm|]. split; [exact IHc|].
    split; [rewrite IHlen; exact Hlen|].
    intros j. rewrite IHseq.
    destruct (decide (j = i)) as [->|Hne].
    + rewrite (bool_decide_eq_false_2 (i ∈ l)) by exact Hnotin.
      rewrite (bool_decide_eq_true_2 (i ∈ i :: l)) by (left).
      cbn [andb]. exact Hat.
    + rewrite Hother by exact Hne.
      destruct (bool_decide_reflect (j ∈ l)) as [Hin|Hin].
      * rewrite (bool_decide_eq_true_2 (j ∈ i :: l)) by (right; exact Hin).
        reflexivity.
      * rewrite (bool_decide_eq_false_2 (j ∈ i :: l)); [reflexivity|].
        intros Hin'. apply elem_of_cons in Hin' as [Heq|Hin']; auto.
Qed.

(** [cb_recv] in one piece. *)
Lemma cb_recv_result profile net co b :
  let sends := flat_map (output_events profile net co b) (List.seq 0 MAX_OUTPUT_COUNT) in
  let r := cb_recv profile net co b in
  r.1.1 = match sends with [] => -1 | _ => 0 end /\
  r.2 = sends ++
        [match sends with
         | [] => LogError ("Destination port mismatch, no output found for " +:+
                           pretty (virt_dst_port b) +:+ newline)
         | _ => BlockFree
         end] /\
  mpeg r.1.2 = mpeg co /\
  udp_config r.1.2 = udp_config co /\
  length (i_seqnum r.1.2) = length (i_seqnum co) /\
  forall j,
    i_seqnum r.1.2 !! j =
    if bool_decide (j < MAX_OUTPUT_COUNT)%nat && counter_used profile co b j
    then (fun old => uint16_t (old + 1)) <$> i_seqnum co !! j
    else i_seqnum co !! j.
Proof.
  intros sends r. subst r. unfold cb_recv.
  pose proof (cb_recv_loop_events profile net b co (List.seq 0 MAX_OUTPUT_COUNT)
                {| rl_object := co; rl_events := []; rl_found := 0 |}
                (proj2 (NoDup_ListNoDup _) (List.seq_NoDup _ _))
                eq_refl eq_refl (fun _ _ => eq_refl)) as Hev.
  destruct (cb_recv_loop_state profile net b co (List.seq 0 MAX_OUTPUT_COUNT)
              {| rl_object := co; rl_events := []; rl_found := 0 |}
              (proj2 (NoDup_ListNoDup _) (List.seq_NoDup _ _))
              eq_refl eq_refl (fun _ _ => eq_refl))
    as (Hfound & Hm & Hc & Hlen & Hseq).
  cbn [rl_object rl_events rl_found] in Hev, Hfound, Hlen, Hseq.
  rewrite app_nil_l in Hev. fold sends in Hev, Hfound.
  set (st' := foldl (cb_recv_body profile net b)
                {| rl_object := co; rl_events := []; rl_found := 0 |}
                (List.seq 0 MAX_OUTPUT_COUNT)) in *.
  assert (Hrange : forall j, bool_decide (j ∈ List.seq 0 MAX_OUTPUT_COUNT)
                             = bool_decide (j < MAX_OUTPUT_COUNT)%nat).
  { intros j. apply bool_decide_ext. rewrite list_elem_of_In, in_seq. lia. }
  rewrite Hfound, Hev.
  destruct sends as [|e es].
  - rewrite bool_decide_eq_true_2 by reflexivity. cbn [fst snd].
    repeat split; try assumption.
    intros j. rewrite Hseq, Hrange. reflexivity.
  - rewrite bool_decide_eq_false_2 by lia. cbn [fst snd].
    repeat split; try assumption.
    intros j. rewrite Hseq, Hrange. reflexivity.
Qed.

(** X8: [cb_recv] returns 0 when it has sent the block to at least one
    output, and then frees the block, once, as the last thing it does;
    it returns -1 when no output took the block, and then all it does is
    log the mismatch: the block is not freed. *)
Theorem cb_recv_return_and_free profile net co b :
  let r := cb_recv profile net co b in
  if existsb is_sent r.2 then
    r.1.1 = 0 /\ filter is_free r.2 = [BlockFree] /\ last r.2 = Some BlockFree
  else
    r.1.1 = -1 /\
    r.2 = [LogError ("Destination port mismatch, no output found for " +:+
                     pretty (virt_dst_port b) +:+ newline)].
Proof.
  intros r. subst r.
  destruct (cb_recv_result profile net co b) as (Hret & Hev & _).
  destruct (loop_events_shape profile net co b (List.seq 0 MAX_OUTPUT_COUNT))
    as (Hfree & Hsent).
  rewrite Hret, Hev. clear Hret Hev.
  destruct (flat_map (output_events profile net co b) (List.seq 0 MAX_OUTPUT_COUNT))
    as [|e es] eqn:Hsends.
  - cbn. split; reflexivity.
  - destruct Hsent as [Hnil|Hsent]; [discriminate Hnil|].
    rewrite existsb_app, Hsent. cbn [orb].
    split; [reflexivity|]. split.
    + rewrite filter_app, Hfree. reflexivity.
    + apply last_snoc.
Qed.

(** X9: a call of [cb_recv] leaves the sockets and the configurations
    of the callback object alone. Of the sequence counters it changes
    only those of the outputs it has sent an RTP packet to with the
    counter as sequence number, each by one modulo [2 ^ 16]; an output
    that takes the sequence number from the block keeps its counter. *)
Theorem cb_recv_counters profile net co b j :
  let co' := (cb_recv profile net co b).1.2 in
  mpeg co' = mpeg co /\
  udp_config co' = udp_config co /\
  length (i_seqnum co') = length (i_seqnum co) /\
  i_seqnum co' !! j =
    if bool_decide (j < MAX_OUTPUT_COUNT)%nat && counter_used profile co b j
    then (fun old => uint16_t (old + 1)) <$> i_seqnum co !! j
    else i_seqnum co !! j.
Proof.
  intros co'. subst co'.
  destruct (cb_recv_result profile net co b) as (_ & _ & Hm & Hc & Hlen & Hseq).
  repeat split; try assumption. apply Hseq.
Qed.

(** X10: the routing of [cb_recv], exactly. The block is sent on output
    [i] with descriptor [fd] if and only if [i] is one of the ten
    outputs, has a configuration and the open socket [fd], and the
    profile is simple, or the stream id of the output is 0, or it is the
    virtual destination port of the block; what is sent is then the
    payload, behind an RTP header if the output asks for one. *)
Theorem cb_recv_routing profile net co b i fd buf :
  In (Sent i fd buf) (cb_recv profile net co b).2 <->
  (i < MAX_OUTPUT_COUNT)%nat /\
  exists cfg,
    udp_config co !! i = Some (Some cfg) /\
    (profile = RIST_PROFILE_SIMPLE \/ uint16_t (stream_id cfg) = 0 \/
     uint16_t (stream_id cfg) = virt_dst_port b) /\
    mpeg co !! i = Some fd /\ fd > 0 /\
    buf = (if bool_decide (rtp cfg <> 0)
           then risttools_rtp_set_hdr (rtp_payload_type cfg) (rtp_seqnum cfg b i co).1
                  (risttools_convertNTPtoRTP (ts_ntp b)) (flow_id b)
           else []) ++ block_bytes b.
Proof.
  assert (Hsel : forall cfg, output_selected profile cfg b = true <->
            (profile = RIST_PROFILE_SIMPLE \/ uint16_t (stream_id cfg) = 0 \/
             uint16_t (stream_id cfg) = virt_dst_port b)).
  { intros cfg. unfold output_selected. cbv zeta.
    rewrite !orb_true_iff, !bool_decide_eq_true. tauto. }
  assert (Hbuf : forall cfg, output_buffer co b i cfg =
            (if bool_decide (rtp cfg <> 0)
             then risttools_rtp_set_hdr (rtp_payload_type cfg) (rtp_seqnum cfg b i co).1
                    (risttools_convertNTPtoRTP (ts_ntp b)) (flow_id b)
             else []) ++ block_bytes b).
  { intros cfg. unfold output_buffer. case_bool_decide; reflexivity. }
  split.
  - intros Hin.
    pose proof (proj1 (cb_recv_sends profile net co b i fd buf) Hin) as Hflat.
    destruct (proj1 (in_flat_map _ _ _) Hflat) as (j & Hj & Hout).
    destruct (output_events_sent profile net co b j i fd buf Hout)
      as (-> & cfg & Hcfg & Hs & Hfd & Hpos & ->).
    split; [apply in_seq in Hj; lia|].
    exists cfg. split; [exact Hcfg|]. split; [apply Hsel; exact Hs|].
    split.
    + destruct (mpeg co !! i) as [fd'|]; cbn [default from_option id] in Hfd.
      * rewrite Hfd. reflexivity.
      * exfalso. clear -Hfd Hpos. lia.
    + split; [exact Hpos|apply Hbuf].
  - intros (Hi & cfg & Hcfg & Hs & Hfd & Hpos & ->).
    rewrite <- Hbuf.
    apply selected_output_is_sent_to; try assumption.
    apply Hsel. exact Hs.
Qed.

(** X11: what [cb_recv] sends has the length the code computes: for a
    block whose payload has [payload_len] bytes, every buffer sent on an
    output without RTP is the payload itself, and every buffer sent on
    an output with RTP is twelve bytes longer than the payload. *)
Theorem cb_recv_buffer_length profile net co b i fd buf cfg :
  payload_len b = Z.of_nat (length (payload b)) ->
  udp_config co !! i = Some (Some cfg) ->
  In (Sent i fd buf) (cb_recv profile net co b).2 ->
  if bool_decide (rtp cfg <> 0)
  then Z.of_nat (length buf) = 12 + payload_len b /\ drop 12 buf = payload b
  else buf = payload b.
Proof.
  intros Hlen Hcfg Hin.
  apply (proj1 (cb_recv_routing profile net co b i fd buf)) in Hin.
  destruct Hin as (_ & cfg' & Hcfg' & _ & _ & _ & ->).
  assert (cfg' = cfg) by congruence. subst cfg'.
  assert (Hbytes : block_bytes b = payload b).
  { unfold block_bytes. rewrite Hlen, Nat2Z.id. apply firstn_all. }
  rewrite Hbytes.
  case_bool_decide; [|reflexivity].
  split.
  - rewrite length_app, Hlen.
    destruct (rtp_set_hdr_fields (rtp_payload_type cfg) (rtp_seqnum cfg b i co).1
                (risttools_convertNTPtoRTP (ts_ntp b)) (flow_id b)) as (Hl & _).
    rewrite Hl. lia.
  - reflexivity.
Qed.

Lemma cb_recv_buffer_length_witness :
  Z.of_nat (length [128; 33; 0; 41; 0; 1; 95; 144; 17; 34; 51; 68; 71; 1; 2]) =
    12 + payload_len Sample.block /\
  drop 12 [128; 33; 0; 41; 0; 1; 95; 144; 17; 34; 51; 68; 71; 1; 2] =
    payload Sample.block.
Proof.
  assert (Hlen : payload_len Sample.block = Z.of_nat (length (payload Sample.block)))
    by reflexivity.
  assert (Hcfg : udp_config Sample.outputs !! 0%nat = Some (Some (UdpConfig 0 1 0 0)))
    by reflexivity.
  assert (Hin : In (Sent 0 5 [128; 33; 0; 41; 0; 1; 95; 144; 17; 34; 51; 68; 71; 1; 2])
                   (cb_recv RIST_PROFILE_MAIN Sample.net Sample.outputs Sample.block).2)
    by (vm_compute; left; reflexivity).
  exact (cb_recv_buffer_length RIST_PROFILE_MAIN Sample.net Sample.outputs Sample.block
           0 5 _ (UdpConfig 0 1 0 0) Hlen Hcfg Hin).
Defined.

(** ** tools/ristreceiver.c: the RTP sequence counter over many blocks *)

Lemma counter_used_always profile co b i cfg fd :
  udp_config co !! i = Some (Some cfg) ->
  rtp cfg <> 0 ->
  rtp_sequence cfg = 0 ->
  mpeg co !! i = Some fd ->
  fd > 0 ->
  profile = RIST_PROFILE_SIMPLE \/ uint16_t (stream_id cfg) = 0 ->
  output_selected profile cfg b = true /\ counter_used profile co b i = true.
Proof.
  intros Hcfg Hrtp Hseq Hfd Hpos Hsel.
  assert (Hs : output_selected profile cfg b = true).
  { unfold output_selected. cbv zeta.
    destruct Hsel as [Hp|Hz].
    - rewrite (bool_decide_eq_true_2 _ Hp). reflexivity.
    - rewrite (bool_decide_eq_true_2 _ Hz). apply orb_true_iff. left.
      apply orb_true_r. }
  split; [exact Hs|].
  unfold counter_used. rewrite Hcfg, Hfd, Hs. cbn [default from_option id andb].
  rewrite (bool_decide_eq_true_2 _ Hpos), (bool_decide_eq_true_2 _ Hrtp),
    (bool_decide_eq_true_2 _ Hseq).
  reflexivity.
Qed.

Lemma uint16_add_l a b : uint16_t (uint16_t a + b) = uint16_t (a + b).
Proof. unfold uint16_t, to_uint. apply Zplus_mod_idemp_l. Qed.

(** The counter of an output that takes every block, after a run. *)
Lemma recv_run_counter profile net bs : forall co i cfg fd s,
  (i < MAX_OUTPUT_COUNT)%nat ->
  udp_config co !! i = Some (Some cfg) ->
  rtp cfg <> 0 ->
  rtp_sequence cfg = 0 ->
  mpeg co !! i = Some fd ->
  fd > 0 ->
  profile = RIST_PROFILE_SIMPLE \/ uint16_t (stream_id cfg) = 0 ->
  i_seqnum co !! i = Some s ->
  is_uint 16 s ->
  mpeg (recv_run profile net co bs) = mpeg co /\
  udp_config (recv_run profile net co bs) = udp_config co /\
  i_seqnum (recv_run profile net co bs) !! i =
    Some (uint16_t (s + Z.of_nat (length bs))).
Proof.
  induction bs as [|b bs IH];
    intros co i cfg fd s Hi Hcfg Hrtp Hseq Hfd Hpos Hsel Hs Hrange.
  - cbn [recv_run foldl length]. split; [reflexivity|]. split; [reflexivity|].
    rewrite Hs. cbn [Z.of_nat]. rewrite Z.add_0_r.
    unfold uint16_t. rewrite (to_uint_id 16 s Hrange). reflexivity.
  - destruct (cb_recv_result profile net co b) as (_ & _ & Hm & Hc & _ & Hcounter).
    specialize (Hcounter i).
    destruct (counter_used_always profile co b i cfg fd Hcfg Hrtp Hseq Hfd Hpos Hsel)
      as [_ Hused].
    rewrite Hused, (bool_decide_eq_true_2 _ Hi), Hs in Hcounter.
    cbn [andb fmap option_fmap option_map] in Hcounter.
    assert (Hrange' : is_uint 16 (uint16_t (s + 1)))
      by (apply (to_uint_range 16); lia).
    rewrite <- Hc in Hcfg. rewrite <- Hm in Hfd.
    destruct (IH (cb_recv profile net co b).1.2 i cfg fd (uint16_t (s + 1))
                Hi Hcfg Hrtp Hseq Hfd Hpos Hsel Hcounter Hrange')
      as (IHm & IHc & IHs).
    change (recv_run profile net co (b :: bs))
      with (recv_run profile net (cb_recv profile net co b).1.2 bs).
    split; [rewrite IHm; exact Hm|]. split; [rewrite IHc; exact Hc|].
    rewrite IHs, uint16_add_l. f_equal. f_equal.
    cbn [length]. lia.
Qed.

(** X12: an output that sends RTP with its own counter and takes every
    block (simple profile, or stream id 0) numbers the blocks
    consecutively modulo [2 ^ 16]: after [n] blocks its counter has
    advanced by [n], and the packet it sends for the next block carries
    the starting value plus [n] as sequence number. *)
Theorem rtp_sequence_counts_blocks profile net co bs b i cfg fd s :
  (i < MAX_OUTPUT_COUNT)%nat ->
  udp_config co !! i = Some (Some cfg) ->
  rtp cfg <> 0 ->
  rtp_sequence cfg = 0 ->
  mpeg co !! i = Some fd ->
  fd > 0 ->
  profile = RIST_PROFILE_SIMPLE \/ uint16_t (stream_id cfg) = 0 ->
  i_seqnum co !! i = Some s ->
  is_uint 16 s ->
  let co' := recv_run profile net co bs in
  i_seqnum co' !! i = Some (uint16_t (s + Z.of_nat (length bs))) /\
  exists buf,
    In (Sent i fd buf) (cb_recv profile net co' b).2 /\
    Rtp.sequence (take 12 buf) = uint16_t (s + Z.of_nat (length bs)).
Proof.
  intros Hi Hcfg Hrtp Hseq Hfd Hpos Hsel Hs Hrange co'.
  destruct (recv_run_counter profile net bs co i cfg fd s
              Hi Hcfg Hrtp Hseq Hfd Hpos Hsel Hs Hrange) as (Hm & Hc & Hcount).
  fold co' in Hm, Hc, Hcount.
  split; [exact Hcount|].
  rewrite <- Hc in Hcfg. rewrite <- Hm in Hfd.
  destruct (counter_used_always profile co' b i cfg fd Hcfg Hrtp Hseq Hfd Hpos Hsel)
    as [Hselected _].
  exists (output_buffer co' b i cfg). split.
  - apply selected_output_is_sent_to; assumption.
  - unfold output_buffer. rewrite (bool_decide_eq_true_2 _ Hrtp).
    destruct (rtp_set_hdr_fields (rtp_payload_type cfg) (rtp_seqnum cfg b i co').1
                (risttools_convertNTPtoRTP (ts_ntp b)) (flow_id b))
      as (Hlen & _ & _ & _ & _ & _ & _ & _ & Hsequence & _).
    rewrite take_app_length' by exact Hlen.
    rewrite Hsequence. unfold rtp_seqnum.
    rewrite (bool_decide_eq_false_2 (rtp_sequence cfg <> 0)) by (intros H; exact (H Hseq)).
    cbn [fst]. rewrite Hcount. cbn [default from_option id].
    unfold uint16_t. apply to_uint_idemp. lia.
Qed.

Lemma rtp_sequence_counts_blocks_witness :
  let co' := recv_run RIST_PROFILE_SIMPLE Sample.net Sample.outputs
               [Sample.block; Sample.block; Sample.block] in
  i_seqnum co' !! 0%nat = Some (uint16_t (41 + 3)).
Proof.
  assert (Hi : (0 < MAX_OUTPUT_COUNT)%nat) by (unfold MAX_OUTPUT_COUNT; lia).
  assert (Hcfg : udp_config Sample.outputs !! 0%nat = Some (Some (UdpConfig 0 1 0 0)))
    by reflexivity.
  assert (Hrtp : rtp (UdpConfig 0 1 0 0) <> 0) by (simpl; lia).
  assert (Hseq : rtp_sequence (UdpConfig 0 1 0 0) = 0) by reflexivity.
  assert (Hfd : mpeg Sample.outputs !! 0%nat = Some 5) by reflexivity.
  assert (Hpos : 5 > 0) by lia.
  assert (Hsel : RIST_PROFILE_SIMPLE = RIST_PROFILE_SIMPLE \/
                 uint16_t (stream_id (UdpConfig 0 1 0 0)) = 0) by (left; reflexivity).
  assert (Hs : i_seqnum Sample.outputs !! 0%nat = Some 41) by reflexivity.
  assert (Hrange : is_uint 16 41) by (unfold is_uint; lia).
  destruct (rtp_sequence_counts_blocks RIST_PROFILE_SIMPLE Sample.net Sample.outputs
              [Sample.block; Sample.block; Sample.block] Sample.block 0
              (UdpConfig 0 1 0 0) 5 41 Hi Hcfg Hrtp Hseq Hfd Hpos Hsel Hs Hrange)
    as [Hcount _].
  exact Hcount.
Defined.

(** ** tools/ristreceiver.c: the order of the cumulative list *)

Lemma first_seen_elem ids y : y ∈ first_seen ids <-> y ∈ ids.
Proof.
  induction ids as [|x rest IH]; cbn [first_seen]; [reflexivity|].
  rewrite !elem_of_cons, list_elem_of_filter, IH.
  destruct (decide (y = x)); tauto.
Qed.

Lemma first_seen_snoc ids x :
  first_seen (ids ++ [x]) =
  if bool_decide (x ∈ ids) then first_seen ids else first_seen ids ++ [x].
Proof.
  induction ids as [|a rest IH]; cbn [app first_seen].
  - rewrite bool_decide_eq_false_2 by (apply not_elem_of_nil). reflexivity.
  - rewrite IH.
    destruct (bool_decide_reflect (x ∈ rest)) as [Hin|Hin].
    + rewrite bool_decide_eq_true_2 by (right; exact Hin). reflexivity.
    + rewrite filter_app.
      destruct (decide (x = a)) as [->|Hne].
      * rewrite bool_decide_eq_true_2 by left.
        rewrite filter_cons_False by (intros H; apply H; reflexivity).
        rewrite filter_nil, app_nil_r. reflexivity.
      * rewrite bool_decide_eq_false_2
          by (intros H; apply elem_of_cons in H as [H|H]; auto).
        rewrite filter_cons_True by exact Hne. reflexivity.
Qed.

(** The walk keeps the nodes in place and appends at most one. *)
Lemma stats_update_order c l :
  map cs_flow_id (stats_update c l).1 =
  if bool_decide (rf_flow_id c ∈ map cs_flow_id l)
  then map cs_flow_id l
  else map cs_flow_id l ++ [rf_flow_id c].
Proof.
  induction l as [|n l IH]; cbn [stats_update map].
  - rewrite bool_decide_eq_false_2 by (apply not_elem_of_nil). reflexivity.
  - destruct (bool_decide_reflect (cs_flow_id n <> rf_flow_id c)) as [Hne|Heq].
    + destruct (stats_update c l) as [l' updated]. cbn [fst map] in *.
      rewrite IH.
      destruct (bool_decide_reflect (rf_flow_id c ∈ map cs_flow_id l)) as [Hin|Hin].
      * rewrite bool_decide_eq_true_2 by (right; exact Hin). reflexivity.
      * rewrite bool_decide_eq_false_2; [reflexivity|].
        intros H. apply elem_of_cons in H as [H|H]; [apply Hne; auto|auto].
    + apply dec_stable in Heq. cbn [fst map]. rewrite stats_add_flow_id.
      rewrite bool_decide_eq_true_2 by (rewrite Heq; left). reflexivity.
Qed.

Lemma stats_after_order cs :
  map cs_flow_id (stats_after cs) =
  first_seen (map rf_flow_id (filter is_flow_report cs)).
Proof.
  induction cs as [|c cs IH] using rev_ind; [reflexivity|].
  rewrite stats_after_snoc, cb_stats_list, filter_app.
  unfold is_flow_report at 2.
  destruct (stats_type c) eqn:Htype.
  - rewrite filter_cons_False by (unfold is_flow_report; rewrite Htype; auto).
    rewrite filter_nil, app_nil_r. exact IH.
  - rewrite filter_cons_True by (unfold is_flow_report; rewrite Htype; exact I).
    rewrite filter_nil, map_app. cbn [map].
    rewrite first_seen_snoc, stats_update_order, IH.
    apply (f_equal (fun t : bool => if t then _ else _)).
    apply bool_decide_ext. apply first_seen_elem.
Qed.

(** X13: the cumulative list holds the flows in the order in which they
    were first reported: its flow ids are the distinct flow ids of the
    receiver-flow reports, first occurrence first. Nodes are never
    removed or moved: the list after more callbacks starts with the
    list before them. *)
Theorem stats_list_first_seen_order (cs more : list rist_stats) :
  map cs_flow_id (stats_after cs) =
    first_seen (map rf_flow_id (filter is_flow_report cs)) /\
  map cs_flow_id (stats_after cs) `prefix_of` map cs_flow_id (stats_after (cs ++ more)).
Proof.
  split; [apply stats_after_order|].
  induction more as [|c more IH] using rev_ind.
  - rewrite app_nil_r. reflexivity.
  - rewrite app_assoc, stats_after_snoc, cb_stats_list.
    destruct (stats_type c); [exact IH|].
    rewrite stats_update_order.
    case_bool_decide; [exact IH|].
    etransitivity; [exact IH|]. apply prefix_app_r. reflexivity.
Qed.

(** ** tools/ristreceiver.c: the outputs [main] opens *)

Lemma open_output_slot co flag n tok ms cs :
  mpeg co = ms ++ replicate (S n) 0 ->
  udp_config co = cs ++ replicate (S n) None ->
  let st := open_output (co, flag) (length ms, tok) in
  length cs = length ms ->
  mpeg st.1 = (ms ++ [slot_fd tok]) ++ replicate n 0 /\
  udp_config st.1 = (cs ++ [slot_cfg tok]) ++ replicate n None /\
  i_seqnum st.1 = i_seqnum co /\
  st.2 = flag || slot_open tok.
Proof.
  intros Hm Hc st Hlen. subst st.
  unfold open_output, slot_fd, slot_cfg, slot_open, token_ok.
  rewrite <- !app_assoc. cbn [app].
  destruct (parse_failed tok); cbn [negb andb fst snd].
  { rewrite orb_false_r. repeat split; assumption. }
  destruct (url_rejected tok); cbn [negb andb fst snd].
  { rewrite orb_false_r. repeat split; assumption. }
  assert (Hins : forall (A : Type) (l : list A) (x y : A) k,
            <[length l := y]> (l ++ x :: k) = l ++ y :: k).
  { intros A l x y k. rewrite insert_app_r_alt by lia.
    rewrite Nat.sub_diag. reflexivity. }
  destruct (bool_decide_reflect (opened tok <= 0)) as [Hfd|Hfd];
    cbn [fst snd mpeg udp_config i_seqnum].
  - rewrite (bool_decide_eq_false_2 (opened tok > 0)) by lia.
    rewrite orb_false_r, Hm. cbn [replicate]. rewrite Hins.
    repeat split. exact Hc.
  - rewrite (bool_decide_eq_true_2 (opened tok > 0)) by lia.
    rewrite orb_true_r, Hm, Hc. cbn [replicate].
    rewrite Hins, <- Hlen, Hins. repeat split.
Qed.

(** The loop over the first tokens, slot by slot. *)
Lemma open_outputs_run garbage toks :
  (length toks <= MAX_OUTPUT_COUNT)%nat ->
  let st := foldl open_output
              ({| mpeg := replicate MAX_OUTPUT_COUNT 0;
                  udp_config := replicate MAX_OUTPUT_COUNT None;
                  i_seqnum := garbage |}, false)
              (imap (fun i tok => (i, tok)) toks) in
  mpeg st.1 = map slot_fd toks ++ replicate (MAX_OUTPUT_COUNT - length toks) 0 /\
  udp_config st.1 =
    map slot_cfg toks ++ replicate (MAX_OUTPUT_COUNT - length toks) None /\
  i_seqnum st.1 = garbage /\
  st.2 = existsb slot_open toks.
Proof.
  induction toks as [|tok toks IH] using rev_ind; intros Hlen st.
  - subst st. cbn [imap foldl fst snd map app length mpeg udp_config i_seqnum existsb].
    rewrite Nat.sub_0_r. repeat split.
  - rewrite length_app in Hlen. cbn [length] in Hlen.
    destruct IH as (Hm & Hc & Hs & Hflag); [lia|].
    subst st. rewrite imap_app, foldl_app. cbn [imap foldl].
    rewrite Nat.add_0_r.
    set (prev := foldl open_output _ (imap _ toks)) in *.
    destruct prev as [co flag]. cbn [fst snd] in Hm, Hc, Hs, Hflag.
    replace (MAX_OUTPUT_COUNT - length toks)%nat
      with (S (MAX_OUTPUT_COUNT - length (toks ++ [tok])))%nat in Hm, Hc
      by (rewrite length_app; cbn [length]; lia).
    pose proof (open_output_slot co flag _ tok _ _ Hm Hc) as Hstep.
    rewrite !length_map in Hstep. specialize (Hstep eq_refl).
    destruct Hstep as (Hm' & Hc' & Hs' & Hflag').
    rewrite !map_app, existsb_app. cbn [map existsb].
    rewrite orb_false_r, <- Hflag, <- Hs.
    repeat split; assumption.
Qed.

Lemma open_outputs_closed_form garbage tokens :
  let toks := take MAX_OUTPUT_COUNT tokens in
  let st := open_outputs garbage tokens in
  mpeg st.1 = map slot_fd toks ++ replicate (MAX_OUTPUT_COUNT - length toks) 0 /\
  udp_config st.1 =
    map slot_cfg toks ++ replicate (MAX_OUTPUT_COUNT - length toks) None /\
  i_seqnum st.1 = garbage /\
  st.2 = existsb slot_open toks.
Proof.
  intros toks st. subst st. unfold open_outputs.
  apply open_outputs_run. subst toks. rewrite length_take. lia.
Qed.

(** X14: the callback object [main] builds, slot by slot. Slot [i]
    belongs to the [i]-th URL of the list, and only the first ten URLs
    count. A URL that does not parse leaves its slot with descriptor 0
    and no configuration; a socket that does not open leaves the
    descriptor it got (not positive) and no configuration; a socket
    that opens leaves its descriptor and the parsed configuration. The
    later slots are not shifted, the unused ones stay cleared, the
    sequence counters are whatever they were, and the flag that lets
    [main] go on is set exactly when some socket opened. *)
Theorem open_outputs_slots garbage tokens :
  let toks := take MAX_OUTPUT_COUNT tokens in
  let st := open_outputs garbage tokens in
  mpeg st.1 = map slot_fd toks ++ replicate (MAX_OUTPUT_COUNT - length toks) 0 /\
  udp_config st.1 =
    map slot_cfg toks ++ replicate (MAX_OUTPUT_COUNT - length toks) None /\
  i_seqnum st.1 = garbage /\
  st.2 = existsb slot_open toks.
Proof. apply open_outputs_closed_form. Qed.

Lemma slot_cfg_fd tok :
  (exists cfg, slot_cfg tok = Some cfg) <-> slot_fd tok > 0.
Proof.
  unfold slot_cfg, slot_fd, slot_open.
  destruct (token_ok tok); cbn [andb].
  - destruct (bool_decide_reflect (opened tok > 0)) as [H|H].
    + split; [intros _; exact H|intros _; eexists; reflexivity].
    + split; [intros [cfg Hcfg]; discriminate Hcfg|intros H'; contradiction].
  - split; [intros [cfg Hcfg]; discriminate Hcfg|lia].
Qed.

Lemma open_outputs_lookup garbage tokens j :
  let co := (open_outputs garbage tokens).1 in
  (exists cfg, udp_config co !! j = Some (Some cfg)) <->
  (exists fd, mpeg co !! j = Some fd /\ fd > 0).
Proof.
  intros co. subst co.
  destruct (open_outputs_closed_form garbage tokens) as (Hm & Hc & _ & _).
  rewrite Hm, Hc. clear Hm Hc.
  set (toks := take MAX_OUTPUT_COUNT tokens).
  destruct (decide (j < length toks)%nat) as [Hj|Hj].
  - rewrite !lookup_app_l by (rewrite length_map; exact Hj).
    rewrite !list_lookup_fmap.
    destruct (toks !! j) as [tok|] eqn:Htok;
      [|apply lookup_ge_None in Htok; lia].
    cbn [fmap option_fmap option_map].
    split.
    + intros [cfg Hcfg]. exists (slot_fd tok). split; [reflexivity|].
      apply slot_cfg_fd. exists cfg. congruence.
    + intros (fd & Hfd & Hpos). injection Hfd as <-.
      apply slot_cfg_fd in Hpos. destruct Hpos as [cfg Hcfg].
      exists cfg. rewrite Hcfg. reflexivity.
  - rewrite !lookup_app_r by (rewrite length_map; lia).
    rewrite !length_map. split.
    + intros [cfg Hcfg]. apply lookup_replicate in Hcfg. destruct Hcfg as [Hcfg _].
      discriminate Hcfg.
    + intros (fd & Hfd & Hpos). apply lookup_replicate in Hfd. lia.
Qed.

Lemma open_outputs_flag garbage tokens :
  (open_outputs garbage tokens).2 = true <->
  exists j cfg, (j < MAX_OUTPUT_COUNT)%nat /\
                udp_config (open_outputs garbage tokens).1 !! j = Some (Some cfg).
Proof.
  destruct (open_outputs_closed_form garbage tokens) as (_ & Hc & _ & Hflag).
  rewrite Hflag, Hc. clear Hflag Hc.
  set (toks := take MAX_OUTPUT_COUNT tokens).
  assert (Hlen : (length toks <= MAX_OUTPUT_COUNT)%nat)
    by (subst toks; rewrite length_take; lia).
  rewrite existsb_exists. split.
  - intros (tok & Hin & Hopen).
    apply list_elem_of_In, list_elem_of_lookup in Hin. destruct Hin as [j Hj].
    exists j, (parsed tok). split.
    + apply lookup_lt_Some in Hj. lia.
    + rewrite lookup_app_l by (rewrite length_map; apply lookup_lt_Some in Hj; exact Hj).
      rewrite list_lookup_fmap, Hj. cbn [fmap option_fmap option_map].
      unfold slot_cfg. rewrite Hopen. reflexivity.
  - intros (j & cfg & _ & Hcfg).
    destruct (decide (j < length toks)%nat) as [Hj|Hj].
    + rewrite lookup_app_l in Hcfg by (rewrite length_map; exact Hj).
      rewrite list_lookup_fmap in Hcfg.
      destruct (toks !! j) as [tok|] eqn:Htok; [|discriminate Hcfg].
      exists tok. split.
      * apply list_elem_of_In, list_elem_of_lookup. exists j. exact Htok.
      * cbn [fmap option_fmap option_map] in Hcfg. unfold slot_cfg in Hcfg.
        destruct (slot_open tok); [reflexivity|discriminate Hcfg].
    + rewrite lookup_app_r in Hcfg by (rewrite length_map; lia).
      apply lookup_replicate in Hcfg. destruct Hcfg as [Hcfg _]. discriminate Hcfg.
Qed.

(** X15: in the callback object [main] builds an output has a
    configuration exactly when it has an open socket (a positive
    descriptor), so the two tests [cb_recv] makes on an output always
    agree; and [main] goes on past the opening of the outputs exactly
    when one of the ten slots has a configuration. *)
Theorem open_outputs_config_iff_socket garbage tokens j :
  let st := open_outputs garbage tokens in
  ((exists cfg, udp_config st.1 !! j = Some (Some cfg)) <->
   (exists fd, mpeg st.1 !! j = Some fd /\ fd > 0)) /\
  (st.2 = true <->
   exists k cfg, (k < MAX_OUTPUT_COUNT)%nat /\ udp_config st.1 !! k = Some (Some cfg)).
Proof.
  intros st. split.
  - apply open_outputs_lookup.
  - apply open_outputs_flag.
Qed.

(** ** tools/ristreceiver.c: the set-up part of [main] *)

(** X16: [main] makes its set-up calls in a fixed order (create,
    authentication handler, out-of-band callback unless the profile is
    simple, statistics callback) and stops at the first one that fails,
    exiting with status 1; it goes on exactly when none fails. Creation
    and the authentication handler fail on any nonzero return value, the
    two callback registrations only on -1. *)
Theorem main_setup_stops_at_first_failure profile statsinterval ret :
  main_setup profile statsinterval ret =
  (up_to_first (call_failed ret) (main_calls profile statsinterval),
   if existsb (call_failed ret) (main_calls profile statsinterval)
   then Some 1 else None).
Proof.
  unfold main_setup, main_calls.
  destruct (bool_decide (ret (ReceiverCreate profile) <> 0)) eqn:Hcreate;
    cbn [app up_to_first existsb call_failed orb]; rewrite Hcreate;
    [reflexivity|].
  destruct (bool_decide (ret AuthHandlerSet <> 0)) eqn:Hauth;
    cbn [orb]; [reflexivity|].
  destruct (bool_decide (profile <> RIST_PROFILE_SIMPLE));
    cbn [app up_to_first existsb call_failed orb].
  - destruct (bool_decide (ret OobCallbackSet = -1)); cbn [orb]; [reflexivity|].
    destruct (bool_decide (ret (StatsCallbackSet statsinterval) = -1));
      reflexivity.
  - destruct (bool_decide (ret (StatsCallbackSet statsinterval) = -1));
      reflexivity.
Qed.

(** ** tools/ristreceiver.c: from [main] to [cb_recv] *)

Lemma recv_run_frame profile net bs : forall co,
  mpeg (recv_run profile net co bs) = mpeg co /\
  udp_config (recv_run profile net co bs) = udp_config co.
Proof.
  induction bs as [|b bs IH]; intros co; [split; reflexivity|].
  change (recv_run profile net co (b :: bs))
    with (recv_run profile net (cb_recv profile net co b).1.2 bs).
  destruct (IH (cb_recv profile net co b).1.2) as [IHm IHc].
  destruct (cb_recv_result profile net co b) as (_ & _ & Hm & Hc & _).
  split; congruence.
Qed.

(** X17: once [main] has got past the opening of the outputs, the
    simple profile never runs into the destination port mismatch: for
    every block, also after any number of earlier blocks, [cb_recv]
    sends it somewhere, returns 0 and frees it. *)
Theorem simple_profile_never_mismatches garbage tokens net co bs b :
  main_outputs garbage tokens = Some co ->
  let r := cb_recv RIST_PROFILE_SIMPLE net (recv_run RIST_PROFILE_SIMPLE net co bs) b in
  r.1.1 = 0 /\ existsb is_sent r.2 = true /\ last r.2 = Some BlockFree.
Proof.
  intros Hmain r. unfold main_outputs in Hmain.
  destruct (open_outputs garbage tokens).2 eqn:Hflag; [|discriminate Hmain].
  injection Hmain as <-.
  apply (proj1 (open_outputs_flag garbage tokens)) in Hflag.
  destruct Hflag as (j & cfg & Hj & Hcfg).
  destruct (proj1 (open_outputs_lookup garbage tokens j)
              (ex_intro _ cfg Hcfg)) as (fd & Hfd & Hpos).
  set (co := (open_outputs garbage tokens).1) in *.
  destruct (recv_run_frame RIST_PROFILE_SIMPLE net bs co) as [Hm Hc].
  set (co' := recv_run RIST_PROFILE_SIMPLE net co bs) in *.
  rewrite <- Hc in Hcfg. rewrite <- Hm in Hfd.
  assert (Hsel : output_selected RIST_PROFILE_SIMPLE cfg b = true).
  { unfold output_selected. rewrite bool_decide_eq_true_2 by reflexivity.
    reflexivity. }
  pose proof (selected_output_is_sent_to RIST_PROFILE_SIMPLE net co' b j fd cfg
                Hj Hcfg Hsel Hfd Hpos) as Hin.
  pose proof (proj1 (cb_recv_sends RIST_PROFILE_SIMPLE net co' b j fd _) Hin) as Hflat.
  destruct (cb_recv_result RIST_PROFILE_SIMPLE net co' b) as (Hret & Hev & _).
  subst r. rewrite Hret, Hev.
  destruct (flat_map (output_events RIST_PROFILE_SIMPLE net co' b)
              (List.seq 0 MAX_OUTPUT_COUNT)) as [|e es] eqn:Hsends;
    [destruct Hflat|].
  split; [reflexivity|]. split; [|apply last_snoc].
  rewrite existsb_app. apply orb_true_iff. left.
  apply existsb_exists. exists (Sent j fd (output_buffer co' b j cfg)).
  split; [exact Hflat|reflexivity].
Qed.

Lemma simple_profile_never_mismatches_witness :
  (cb_recv RIST_PROFILE_SIMPLE Sample.net
     (recv_run RIST_PROFILE_SIMPLE Sample.net
        (open_outputs [41; 0; 0; 0; 0; 0; 0; 0; 0; 0] Sample.tokens).1 [Sample.block])
     Sample.block).1.1 = 0.
Proof.
  assert (Hmain : main_outputs [41; 0; 0; 0; 0; 0; 0; 0; 0; 0] Sample.tokens =
                  Some (open_outputs [41; 0; 0; 0; 0; 0; 0; 0; 0; 0] Sample.tokens).1)
    by reflexivity.
  destruct (simple_profile_never_mismatches [41; 0; 0; 0; 0; 0; 0; 0; 0; 0]
              Sample.tokens Sample.net _ [Sample.block] Sample.block Hmain)
    as (Hret & _ & _).
  exact Hret.
Defined.

(** ** tools/ristreceiver.c: the overrides of the peer configuration *)

Lemma c_string_terminated l r :
  Forall (fun c => c <> 0) l -> c_string (l ++ 0 :: r) = l.
Proof.
  induction l as [|c l IH]; intros Hl; cbn [app c_string].
  - rewrite bool_decide_eq_true_2 by reflexivity. reflexivity.
  - inversion Hl as [|? ? Hc Hl']; subst.
    rewrite (bool_decide_eq_false_2 _ Hc), IH by exact Hl'. reflexivity.
Qed.

Lemma strncpy_c_string dst src n :
  Forall (fun c => c <> 0) src ->
  length dst = S n ->
  dst !! n = Some 0 ->
  c_string (strncpy dst src n) = take n src /\ length (strncpy dst src n) = S n.
Proof.
  intros Hsrc Hlen Hlast. unfold strncpy.
  assert (Hdrop : drop n dst = [0]).
  { rewrite (drop_S dst 0 n Hlast), drop_ge by lia. reflexivity. }
  rewrite Hdrop. split.
  - destruct (decide (n <= length src)%nat) as [Hle|Hgt].
    + rewrite take_app_le by exact Hle.
      apply c_string_terminated. apply Forall_take. exact Hsrc.
    + rewrite take_app_ge by lia.
      rewrite take_replicate, (take_ge src) by lia.
      replace (Nat.min (n - length src) n) with (S (n - length src - 1)) by lia.
      cbn [replicate]. rewrite <- app_assoc. cbn [app].
      apply c_string_terminated. exact Hsrc.
  - rewrite length_app, length_take, length_app, length_replicate.
    cbn [length]. lia.
Qed.

(** X18: the overrides of the command line, for every peer. With [-s],
    a peer whose URL carries no secret gets the shared one, cut to one
    character less than the array holds and still terminated, and is
    left with a nonzero key size, that is with encryption on: the size
    given with [-e] if there is one, else the size of the URL, else 128.
    A peer whose URL carries a secret keeps it and its key size, and so
    does every peer when there is no [-s]. Whatever becomes of the
    secret, a nonzero [-b] sets both recovery lengths of the peer to its
    value and a zero one leaves them. *)
Theorem shared_secret_override max_string_short shared_secret encryption_type buffer cfg :
  Forall (fun c => c <> 0) (default [] shared_secret) ->
  length (po_secret cfg) = S max_string_short ->
  po_secret cfg !! max_string_short = Some 0 ->
  let cfg' := process_overrides (S max_string_short) shared_secret encryption_type
                buffer cfg in
  match shared_secret with
  | Some shared =>
      if bool_decide (default 0 (po_secret cfg !! 0%nat) = 0) then
        c_string (po_secret cfg') = take max_string_short shared /\
        length (po_secret cfg') = S max_string_short /\
        po_key_size cfg' <> 0 /\
        po_key_size cfg' =
          (if bool_decide (encryption_type <> 0) then encryption_type
           else if bool_decide (po_key_size cfg = 0) then 128 else po_key_size cfg)
      else po_secret cfg' = po_secret cfg /\ po_key_size cfg' = po_key_size cfg
  | None => po_secret cfg' = po_secret cfg /\ po_key_size cfg' = po_key_size cfg
  end /\
  (po_recovery_length_min cfg', po_recovery_length_max cfg') =
    (if bool_decide (buffer <> 0) then (uint32_t buffer, uint32_t buffer)
     else (po_recovery_length_min cfg, po_recovery_length_max cfg)).
Proof.
  intros Hshared Hlen Hlast cfg'. subst cfg'.
  unfold process_overrides.
  replace (S max_string_short - 1)%nat with max_string_short by lia.
  destruct shared_secret as [shared|]; cbn [default from_option id] in Hshared.
  - destruct (bool_decide (default 0 (po_secret cfg !! 0%nat) = 0)).
    + destruct (strncpy_c_string (po_secret cfg) shared max_string_short
                  Hshared Hlen Hlast) as [Hstr Hl].
      assert (Hkey : (if bool_decide (encryption_type <> 0) then encryption_type
                      else if bool_decide (po_key_size cfg = 0) then 128
                           else po_key_size cfg) <> 0).
      { repeat case_bool_decide; lia. }
      destruct (bool_decide (buffer <> 0));
        cbn [po_secret po_key_size po_recovery_length_min po_recovery_length_max];
        (split; [split; [exact Hstr|split; [exact Hl|split; [exact Hkey|reflexivity]]]
                |reflexivity]).
    + destruct (bool_decide (buffer <> 0));
        cbn [po_secret po_key_size po_recovery_length_min po_recovery_length_max];
        (split; [split; reflexivity|reflexivity]).
  - destruct (bool_decide (buffer <> 0));
      cbn [po_secret po_key_size po_recovery_length_min po_recovery_length_max];
      (split; [split; reflexivity|reflexivity]).
Qed.

Lemma shared_secret_override_witness :
  (let cfg' := process_overrides 4 (Some [115; 101; 99; 114; 101; 116]) 0 1000
                 (PeerOverrides [0; 0; 0; 0] 0 50 500) in
   c_string (po_secret cfg') = [115; 101; 99] /\ po_key_size cfg' = 128) /\
  (let cfg' := process_overrides 4 None 0 1000 (PeerOverrides [107; 0; 0; 0] 256 50 500) in
   (po_recovery_length_min cfg', po_recovery_length_max cfg') = (1000, 1000)).
Proof.
  assert (Hshared : Forall (fun c => c <> 0)
                      (default [] (Some [115; 101; 99; 114; 101; 116])))
    by (repeat constructor; lia).
  assert (Hnone : Forall (fun c : Z => c <> 0) (default [] None)) by constructor.
  split.
  - destruct (shared_secret_override 3 (Some [115; 101; 99; 114; 101; 116]) 0 1000
                (PeerOverrides [0; 0; 0; 0] 0 50 500) Hshared eq_refl eq_refl)
      as [(Hstr & _ & _ & Hkey) _].
    split; [exact Hstr|exact Hkey].
  - destruct (shared_secret_override 3 None 0 1000
                (PeerOverrides [107; 0; 0; 0] 256 50 500) Hnone eq_refl eq_refl)
      as [_ Hbuf].
    exact Hbuf.
Defined.

(** ** tools/ristreceiver.c: the command line *)

Lemma last_arg_cons {A : Type} (f : string -> A) (d : A) c opt rest :
  from_option f d (last_arg c (opt :: rest)) =
  from_option f (if bool_decide (opt.1 = c) then f opt.2 else d) (last_arg c rest).
Proof.
  unfold last_arg.
  destruct (bool_decide_reflect (opt.1 = c)) as [Hc|Hc].
  - rewrite filter_cons_True by exact Hc. cbn [map].
    destruct (map snd (filter (fun o : string * string => o.1 = c) rest))
      as [|x l] eqn:Hl; [reflexivity|].
    rewrite last_cons. destruct (last (x :: l)) eqn:Hlast; [reflexivity|].
    apply last_None in Hlast. discriminate Hlast.
  - rewrite filter_cons_False by exact Hc. reflexivity.
Qed.

Ltac option_case IH :=
  match goal with
  | |- context [parse_option ?m ?a ?f ?s ?o] =>
      let H := fresh "Hopt" in
      let s' := fresh "s'" in
      destruct (parse_option m a f s o) as [s'|] eqn:H; simpl in H;
      [injection H as <-; rewrite IH; reflexivity|discriminate H]
  end.

(** Every case of the [switch] that ends the program ends it with
    status 1. *)
Lemma parse_option_status use_mbedtls atoi fopen_ok s opt status :
  parse_option use_mbedtls atoi fopen_ok s opt = inr status -> status = 1.
Proof.
  destruct opt as [c optarg]. unfold parse_option.
  repeat (case_bool_decide; [discriminate|]).
  destruct (use_mbedtls && _); [destruct (fopen_ok optarg); [discriminate|]|];
    [|destruct (bool_decide (c = "u"))]; intros [= <-]; reflexivity.
Qed.

(** Where plain [char] is unsigned the loop never ends normally. *)
Lemma parse_options_unsigned_char use_mbedtls atoi fopen_ok opts : forall s,
  parse_options false use_mbedtls atoi fopen_ok s opts = inr 1.
Proof.
  induction opts as [|opt rest IH]; intros s; cbn [parse_options]; [reflexivity|].
  destruct (parse_option use_mbedtls atoi fopen_ok s opt) as [s'|status] eqn:Hopt.
  - apply IH.
  - apply parse_option_status in Hopt. rewrite Hopt. reflexivity.
Qed.

(** The option loop from any starting values. *)
Lemma parse_options_last_wins char_signed use_mbedtls atoi fopen_ok opts : forall s,
  parse_options char_signed use_mbedtls atoi fopen_ok s opts =
  if char_signed && forallb (sets_variable use_mbedtls fopen_ok) opts then
    inl {| inputurl := from_option Some (inputurl s) (last_arg "i" opts);
           outputurl := from_option Some (outputurl s) (last_arg "o" opts);
           oobtun := from_option Some (oobtun s) (last_arg "t" opts);
           shared_secret := from_option Some (shared_secret s) (last_arg "s" opts);
           buffer := from_option atoi (buffer s) (last_arg "b" opts);
           encryption_type := from_option atoi (encryption_type s) (last_arg "e" opts);
           profile := from_option atoi (profile s) (last_arg "p" opts);
           statsinterval := from_option atoi (statsinterval s) (last_arg "S" opts);
           loglevel := from_option atoi (loglevel s) (last_arg "v" opts);
           remote_log_address :=
             from_option Some (remote_log_address s) (last_arg "r" opts);
           srpfile := from_option Some (srpfile s) (last_arg "F" opts) |}
  else inr 1.
Proof.
  destruct char_signed; cbn [andb];
    [|intros s; apply parse_options_unsigned_char].
  induction opts as [|[c optarg] rest IH]; intros s.
  - destruct s. reflexivity.
  - cbn [parse_options forallb]. rewrite !last_arg_cons. cbn [fst snd].
    destruct (decide (c = "i")) as [->|Hi]; [option_case IH|].
    destruct (decide (c = "o")) as [->|Ho]; [option_case IH|].
    destruct (decide (c = "b")) as [->|Hb]; [option_case IH|].
    destruct (decide (c = "s")) as [->|Hs]; [option_case IH|].
    destruct (decide (c = "e")) as [->|He]; [option_case IH|].
    destruct (decide (c = "t")) as [->|Ht]; [option_case IH|].
    destruct (decide (c = "p")) as [->|Hp]; [option_case IH|].
    destruct (decide (c = "S")) as [->|HS]; [option_case IH|].
    destruct (decide (c = "v")) as [->|Hv]; [option_case IH|].
    destruct (decide (c = "r")) as [->|Hr]; [option_case IH|].
    assert (Hletters : bool_decide
              (c ∈ ["i"; "o"; "b"; "s"; "e"; "t"; "p"; "S"; "v"; "r"]) = false).
    { apply bool_decide_eq_false_2. rewrite !elem_of_cons, elem_of_nil. tauto. }
    unfold sets_variable. cbn [fst snd]. rewrite Hletters. cbn [orb].
    unfold parse_option.
    rewrite (bool_decide_eq_false_2 _ Hi), (bool_decide_eq_false_2 _ Ho),
      (bool_decide_eq_false_2 _ Hb), (bool_decide_eq_false_2 _ Hs),
      (bool_decide_eq_false_2 _ He), (bool_decide_eq_false_2 _ Ht),
      (bool_decide_eq_false_2 _ Hp), (bool_decide_eq_false_2 _ HS),
      (bool_decide_eq_false_2 _ Hv), (bool_decide_eq_false_2 _ Hr).
    destruct use_mbedtls; cbn [andb].
    + destruct (decide (c = "F")) as [->|HF].
      * rewrite (bool_decide_eq_true_2 ("F" = "F")) by reflexivity. cbn [andb].
        destruct (fopen_ok optarg); [|reflexivity].
        rewrite IH. reflexivity.
      * rewrite (bool_decide_eq_false_2 _ HF). cbn [andb].
        destruct (bool_decide (c = "u")); reflexivity.
    + destruct (bool_decide (c = "u")); reflexivity.
Qed.

(** X19: the command line of [main], that is the option loop and the
    test of the two URLs after it. Built where plain [char] is signed,
    the tool goes on past them exactly when every option
    is one that sets a variable (with [USE_MBEDTLS], [-F] counts if its
    file opens) and both [-i] and [-o] are given; in every other case,
    be it [-h], [-u], an unknown option or a missing URL, it ends with
    status 1. When it goes on every variable holds the argument of the
    last occurrence of its option, or its default: profile main,
    statistics every 1000 ms, log level [RIST_LOG_INFO], no buffer, no
    encryption type. Built where plain [char] is unsigned, the tool ends
    with status 1 on every command line: the end of the options, -1
    cast to [char], is 255 there and is taken for an unknown option. *)
Theorem main_options_last_wins char_signed use_mbedtls atoi fopen_ok opts :
  main_options char_signed use_mbedtls atoi fopen_ok opts =
  if char_signed && forallb (sets_variable use_mbedtls fopen_ok) opts then
    match last_arg "i" opts, last_arg "o" opts with
    | Some i, Some o =>
        inl {| inputurl := Some i;
               outputurl := Some o;
               oobtun := last_arg "t" opts;
               shared_secret := last_arg "s" opts;
               buffer := from_option atoi 0 (last_arg "b" opts);
               encryption_type := from_option atoi 0 (last_arg "e" opts);
               profile := from_option atoi RIST_PROFILE_MAIN (last_arg "p" opts);
               statsinterval := from_option atoi 1000 (last_arg "S" opts);
               loglevel := from_option atoi RIST_LOG_INFO (last_arg "v" opts);
               remote_log_address := last_arg "r" opts;
               srpfile := last_arg "F" opts |}
    | _, _ => inr 1
    end
  else inr 1.
Proof.
  assert (Hid : forall o : option string, from_option Some None o = o)
    by (intros [x|]; reflexivity).
  unfold main_options. rewrite parse_options_last_wins.
  destruct (char_signed && forallb _ opts); [|reflexivity].
  cbn [inputurl outputurl default_settings oobtun shared_secret buffer
       encryption_type profile statsinterval loglevel remote_log_address srpfile].
  rewrite !Hid.
  destruct (last_arg "i" opts), (last_arg "o" opts); reflexivity.
Qed.

Example main_options_sample :
  main_options true false (fun s => Z.of_nat (String.length s)) (fun _ => true)
    [("i", "rist://a"); ("p", ""); ("o", "udp://b"); ("i", "rist://c")]
  = inl {| inputurl := Some "rist://c"; outputurl := Some "udp://b";
           oobtun := None; shared_secret := None; buffer := 0;
           encryption_type := 0; profile := 0; statsinterval := 1000;
           loglevel := RIST_LOG_INFO; remote_log_address := None;
           srpfile := None |}.
Proof. reflexivity. Qed.

Example main_options_help :
  main_options true false (fun _ => 0) (fun _ => true)
    [("i", "rist://a"); ("o", "udp://b"); ("h", "")] = inr 1.
Proof. reflexivity. Qed.

Example main_options_unsigned_char :
  main_options false false (fun _ => 0) (fun _ => true)
    [("i", "rist://a"); ("o", "udp://b")] = inr 1.
Proof. reflexivity. Qed.

(** ** tools/ristreceiver.c: failed sends *)

Lemma output_events_sends profile net co b i :
  filter is_sent (output_events profile net co b i) =
  match udp_config co !! i with
  | Some (Some cfg) =>
      if output_selected profile cfg b && bool_decide (default 0 (mpeg co !! i) > 0)
      then [Sent i (default 0 (mpeg co !! i)) (output_buffer co b i cfg)]
      else []
  | _ => []
  end.
Proof.
  unfold output_events.
  destruct (udp_config co !! i) as [[cfg|]|]; try reflexivity.
  destruct (_ && _); [|reflexivity].
  rewrite filter_cons_True by exact I.
  destruct (_ && _); reflexivity.
Qed.

Lemma loop_sends_any_net profile net net' co b l :
  filter is_sent (flat_map (output_events profile net co b) l) =
  filter is_sent (flat_map (output_events profile net' co b) l).
Proof.
  induction l as [|i l IH]; [reflexivity|].
  cbn [flat_map]. rewrite !filter_app, IH, !output_events_sends. reflexivity.
Qed.

Lemma loop_sends_nil profile net co b l :
  flat_map (output_events profile net co b) l = [] <->
  filter is_sent (flat_map (output_events profile net co b) l) = [].
Proof.
  split; [intros ->; reflexivity|].
  intros Hnone.
  destruct (loop_events_shape profile net co b l) as [_ [Hnil|Hsent]]; [exact Hnil|].
  apply existsb_exists in Hsent. destruct Hsent as (e & Hin & He).
  assert (Hfilter : e ∈ filter is_sent (flat_map (output_events profile net co b) l)).
  { apply list_elem_of_filter. split; [apply Is_true_true; exact He|].
    apply list_elem_of_In. exact Hin. }
  rewrite Hnone in Hfilter. apply elem_of_nil in Hfilter. destruct Hfilter.
Qed.

(** X20: [cb_recv] does not react to failed sends beyond logging them.
    Whatever [udpsocket_send] returns, the same buffers are sent to the
    same outputs in the same order, the return value is the same (0 as
    soon as a send was attempted, even if every send failed) and the
    callback object ends up the same. *)
Theorem cb_recv_ignores_send_failures profile net net' co b :
  (cb_recv profile net co b).1 = (cb_recv profile net' co b).1 /\
  filter is_sent (cb_recv profile net co b).2 =
    filter is_sent (cb_recv profile net' co b).2.
Proof.
  destruct (cb_recv_result profile net co b) as (Hret & Hev & Hm & Hc & Hlen & Hseq).
  destruct (cb_recv_result profile net' co b)
    as (Hret' & Hev' & Hm' & Hc' & Hlen' & Hseq').
  pose proof (loop_sends_any_net profile net net' co b (List.seq 0 MAX_OUTPUT_COUNT))
    as Hsame.
  pose proof (loop_sends_nil profile net co b (List.seq 0 MAX_OUTPUT_COUNT)) as Hnil.
  pose proof (loop_sends_nil profile net' co b (List.seq 0 MAX_OUTPUT_COUNT)) as Hnil'.
  set (sends := flat_map (output_events profile net co b)
                  (List.seq 0 MAX_OUTPUT_COUNT)) in *.
  set (sends' := flat_map (output_events profile net' co b)
                   (List.seq 0 MAX_OUTPUT_COUNT)) in *.
  assert (Hempty : sends = [] <-> sends' = []).
  { rewrite Hnil, Hnil', Hsame. reflexivity. }
  clearbody sends sends'. clear Hnil Hnil'.
  split.
  - destruct (cb_recv profile net co b) as [[ret obj] evs].
    destruct (cb_recv profile net' co b) as [[ret' obj'] evs'].
    cbn [fst snd] in *. f_equal.
    + rewrite Hret, Hret'.
      destruct sends as [|e es], sends' as [|e' es']; try reflexivity.
      * discriminate (proj1 Hempty eq_refl).
      * discriminate (proj2 Hempty eq_refl).
    + destruct obj as [m c s], obj' as [m' c' s'].
      cbn [mpeg udp_config i_seqnum] in *. f_equal; try congruence.
      apply list_eq. intros j. rewrite Hseq, Hseq'. reflexivity.
  - rewrite Hev, Hev', !filter_app, Hsame. f_equal.
    destruct sends as [|e es], sends' as [|e' es']; reflexivity.
Qed.
